(** * futurecities: the streaming wireframe city (ThreeCityscape) and the
      validation of generated content (App)

    A shallow embedding of the parts of [src/App.tsx] and of the
    [ThreeCityscape] component (second half of
    [src/components/LogoSpinner.tsx]) that decide the streaming, merging,
    zooming, fading and snapshot behaviour; of the noise texture, the
    button handler and the loader of [src/components/MonitorScreen.tsx];
    and of the program around them: when [App] and [MonitorScreen] mount
    and unmount the cityscape.

    Conventions of the embedding:
    - a JavaScript [number] is an exact rational [Q]; [NaN], the infinities
      and rounding are outside the model, and [===] on numbers is [Qeq_bool];
    - [Math.sin], [Math.cos], [Math.sqrt] and [String.prototype.trim] are
      library functions and are taken as parameters (class [JSLib]), and so
      is [String.prototype.toLowerCase] where the program uses it;
    - the React refs of the component are the fields of [State]; every
      handler is a function [State -> State], what the environment supplies
      (clock readings, [Math.random], promise results) is an argument;
    - the objects of three.js carry the numeric identity three.js gives them
      ([uuid], geometry and material ids), allocated from one counter, and a
      log records what was disposed. *)

From Stdlib Require Import QArith Qminmax Qround Qabs Lqa Ascii.
From stdpp Require Import gmap strings list pretty.

Open Scope Q_scope.

(** ** Numbers *)

Definition Qltb (a b : Q) : bool := negb (Qle_bool b a).

(** [Math.sign] *)
Definition Math_sign (a : Q) : Q :=
  match Qnum a with
  | Z0 => 0
  | Zpos _ => 1
  | Zneg _ => -1
  end.

(** [Math.abs] *)
Definition Math_abs (a : Q) : Q := Qabs a.

(** [Math.floor] *)
Definition Math_floor (a : Q) : Z := Qfloor a.

(** [a || b] on numbers: [a] unless it is zero. *)
Definition orElse (a b : Q) : Q := if Qeq_bool a 0 then b else a.

(** Truthiness of an optional number field: present and not zero. *)
Definition truthy (a : option Q) : bool :=
  match a with
  | Some v => negb (Qeq_bool v 0)
  | None => false
  end.

(** The library functions the component calls. *)
Class JSLib := {
  Math_sin : Q -> Q;
  Math_cos : Q -> Q;
  Math_sqrt : Q -> Q;
  Math_PI : Q;
  String_trim : string -> string;
}.

(** ** THREE.Vector3 *)

Record Vector3 := mkVector3 { vx : Q; vy : Q; vz : Q }.

Definition multiplyScalar (v : Vector3) (k : Q) : Vector3 :=
  mkVector3 (vx v * k) (vy v * k) (vz v * k).

Definition addVectors (v w : Vector3) : Vector3 :=
  mkVector3 (vx v + vx w) (vy v + vy w) (vz v + vz w).

Definition addScaledVector (v d : Vector3) (k : Q) : Vector3 :=
  mkVector3 (vx v + vx d * k) (vy v + vy d * k) (vz v + vz d * k).

Definition lengthSq (v : Vector3) : Q :=
  vx v * vx v + vy v * vy v + vz v * vz v.

Definition distanceToSquared (v w : Vector3) : Q :=
  let dx := vx v - vx w in
  let dy := vy v - vy w in
  let dz := vz v - vz w in
  dx * dx + dy * dy + dz * dz.

Definition crossVectors (a b : Vector3) : Vector3 :=
  mkVector3 (vy a * vz b - vz a * vy b)
            (vz a * vx b - vx a * vz b)
            (vx a * vy b - vy a * vx b).

Section VectorLib.
Context `{JSLib}.

(** [length()] and [normalize()], which is [divideScalar(length() || 1)]. *)
Definition length3 (v : Vector3) : Q := Math_sqrt (lengthSq v).

Definition normalize (v : Vector3) : Vector3 :=
  multiplyScalar v (1 / orElse (length3 v) 1).
End VectorLib.

(** ** Constants of the component *)

Definition HIGH_ANGLE_INITIAL_CAMERA_Y : Q := 300.
Definition HIGH_ANGLE_INITIAL_CAMERA_Z : Q := 100.
Definition HIGH_ANGLE_FORWARD_SPEED : Q := 0.6.

Definition MIN_FOV : Q := 30.
Definition MAX_FOV : Q := 90.
Definition DEFAULT_FOV : Q := 60.
Definition FOV_STEP : Q := 2.

Definition KEYBOARD_ROTATION_SPEED : Q := 0.02.
Definition MOUSE_AZIMUTH_SENSITIVITY_PER_FRAME : Q := 0.015.

Definition GENERATION_TRIGGER_DISTANCE : Q := 400.
Definition CLUSTER_SPAWN_AHEAD_OFFSET : Q := 600.
Definition MIN_DISTANCE_BETWEEN_TRIGGER_POINTS : Q := 300.
Definition MAX_ACTIVE_CLUSTER_REQUESTS : Z := 1.
Definition FADE_IN_DURATION : Q := 0.35.
Definition INTER_CLUSTER_SPACING : Q := 225.

(** [globalCityColor], the value [MonitorScreen] passes down. *)
Definition globalCityColor : string := "#a3e635".
Definition white : string := "#ffffff".

(** ** Data model (App.tsx) *)

Inductive Shape := box | cylinder.

Record Dimensions := mkDimensions {
  height : Q;
  width : option Q;
  depth : option Q;
  radius : option Q;
}.

Record CityElementData := mkCityElementData {
  el_id : string;
  shape : Shape;
  position : Vector3;
  dimensions : Dimensions;
  orientationY : option Q;
}.

Record SkySettings := mkSkySettings { topColor : string; horizonColor : string }.

Record LandscapeData := mkLandscapeData {
  sky : SkySettings;
  buildings : list CityElementData;
}.

(** ** Parsed JSON (the result of [JSON.parse])

    An object is the list of its own properties; [JSON.parse] keeps one
    entry per key. [None] stands for [undefined]. *)

#[local] Set Warnings "-register-all".

Inductive JSON :=
| JNull
| JBool (b : bool)
| JNumber (n : Q)
| JString (s : string)
| JArray (items : list JSON)
| JObject (fields : list (string * JSON)).

Inductive JSType := t_undefined | t_object | t_boolean | t_number | t_string.

Definition typeof (v : option JSON) : JSType :=
  match v with
  | None => t_undefined
  | Some JNull => t_object
  | Some (JBool _) => t_boolean
  | Some (JNumber _) => t_number
  | Some (JString _) => t_string
  | Some (JArray _) => t_object
  | Some (JObject _) => t_object
  end.

Definition JSType_eqb (a b : JSType) : bool :=
  match a, b with
  | t_undefined, t_undefined | t_object, t_object | t_boolean, t_boolean
  | t_number, t_number | t_string, t_string => true
  | _, _ => false
  end.

Fixpoint lookupField (k : string) (fs : list (string * JSON)) : option JSON :=
  match fs with
  | [] => None
  | (k', v) :: rest => if String.eqb k k' then Some v else lookupField k rest
  end.

(** Member access [v.k] on a value that is neither [null] nor [undefined]
    when the access is made (the callers check first). *)
Definition get (v : option JSON) (k : string) : option JSON :=
  match v with
  | Some (JObject fs) => lookupField k fs
  | _ => None
  end.

Definition isNull (v : option JSON) : bool :=
  match v with Some JNull => true | _ => false end.

(** [v === 'lit'] for a string literal. *)
Definition isStringLit (v : option JSON) (lit : string) : bool :=
  match v with Some (JString s) => String.eqb s lit | _ => false end.

(** [typeof v !== 'number' || v <= 0] *)
Definition notPositiveNumber (v : option JSON) : bool :=
  match v with
  | Some (JNumber n) => Qle_bool n 0
  | _ => true
  end.

(** JavaScript truthiness. *)
Definition truthyJ (v : option JSON) : bool :=
  match v with
  | None | Some JNull => false
  | Some (JBool b) => b
  | Some (JNumber n) => negb (Qeq_bool n 0)
  | Some (JString s) => negb (String.eqb s "")
  | Some (JArray _) | Some (JObject _) => true
  end.

Section Validation.
Context `{JSLib}.

(** [isValidBuildingElement], App.tsx lines 42-65, guard by guard. *)
Definition isValidBuildingElement (el0 : JSON) : bool :=
  let el := Some el0 in
  if negb (JSType_eqb (typeof el) t_object) || isNull el then false else
  if negb (JSType_eqb (typeof (get el "id")) t_string)
     || match get el "id" with
        | Some (JString s) => String.eqb (String_trim s) ""
        | _ => false
        end then false else
  if negb (isStringLit (get el "type") "building") then false else
  if negb (isStringLit (get el "shape") "box")
     && negb (isStringLit (get el "shape") "cylinder") then false else
  let pos := get el "position" in
  if negb (JSType_eqb (typeof pos) t_object) || isNull pos then false else
  if negb (JSType_eqb (typeof (get pos "x")) t_number)
     || negb (JSType_eqb (typeof (get pos "y")) t_number)
     || negb (JSType_eqb (typeof (get pos "z")) t_number) then false else
  if match get pos "y" with
     | Some (JNumber y) => negb (Qeq_bool y 0)
     | _ => true
     end then false else
  let dims := get el "dimensions" in
  if negb (JSType_eqb (typeof dims) t_object) || isNull dims then false else
  if notPositiveNumber (get dims "height") then false else
  if (if isStringLit (get el "shape") "box"
      then notPositiveNumber (get dims "width")
           || notPositiveNumber (get dims "depth")
      else if isStringLit (get el "shape") "cylinder"
      then notPositiveNumber (get dims "radius")
      else false) then false else
  if negb (JSType_eqb (typeof (get el "orientationY")) t_undefined)
     && negb (JSType_eqb (typeof (get el "orientationY")) t_number)
  then false else
  true.

(** The view of a validated element as a [CityElementData] (the cast
    [as CityElementData] of the source). *)
Definition asNumber (v : option JSON) : option Q :=
  match v with Some (JNumber n) => Some n | _ => None end.

Definition asCityElementData (el0 : JSON) : option CityElementData :=
  let el := Some el0 in
  match get el "id", asNumber (get (get el "position") "x"),
        asNumber (get (get el "position") "y"),
        asNumber (get (get el "position") "z"),
        asNumber (get (get el "dimensions") "height") with
  | Some (JString i), Some x, Some y, Some z, Some h =>
      Some (mkCityElementData i
              (if isStringLit (get el "shape") "box" then box else cylinder)
              (mkVector3 x y z)
              (mkDimensions h
                 (asNumber (get (get el "dimensions") "width"))
                 (asNumber (get (get el "dimensions") "depth"))
                 (asNumber (get (get el "dimensions") "radius")))
              (asNumber (get el "orientationY")))
  | _, _, _, _, _ => None
  end.
End Validation.

(** ** App.tsx: accepting or rejecting what the content service returns *)

(** What [ai.models.generateContent] and the text handling before
    [JSON.parse] produce: the call rejects ([message] is the text of the
    error when the reason is an [Error]), or it yields the text [jsonStr]
    (already trimmed and stripped of its fence) with the outcome of
    [JSON.parse(jsonStr)], [None] when it throws a [SyntaxError]. *)
Inductive ApiResponse :=
| ApiThrows (message : option string)
| ApiText (jsonStr : string) (parsed : option JSON).

Record AppState := mkAppState {
  landscapeData : option JSON;
  isLoading : bool;
  error : option string;
}.

Definition minBuildings : nat := 25.
Definition maxBuildings : nat := 50.

Definition includes (s sub : string) : bool :=
  match String.index 0 sub s with Some _ => true | None => false end.

(** The message the [catch (err)] of [generateNewLandscape] shows. *)
Definition errorMessageOf (message : option string) : string :=
  match message with
  | None => "Failed to generate landscape data. Please try again."
  | Some m =>
      if includes m "API key not valid"
      then "API Key is not valid. Please check your configuration."
      else String.append "Error: " m
  end.

Definition rawResponseLog (jsonStr : string) : string :=
  if Nat.ltb (String.length jsonStr) 2000 then jsonStr
  else String.append (String.substring 0 1997 jsonStr) "...".

Section App.
Context `{JSLib}.

(** The condition of the [if] at App.tsx lines 158-166. Reading
    [parsedData.sky] of [null] throws, which the enclosing [try] catches:
    the value is rejected like one that fails the condition. *)
Definition landscapeCondition (parsedData : JSON) : bool :=
  match parsedData with
  | JNull => false
  | _ =>
      let sky := get (Some parsedData) "sky" in
      truthyJ sky
      && JSType_eqb (typeof (get sky "topColor")) t_string
      && JSType_eqb (typeof (get sky "horizonColor")) t_string
      && match get (Some parsedData) "buildings" with
         | Some (JArray bs) =>
             Nat.leb minBuildings (List.length bs)
             && Nat.leb (List.length bs) maxBuildings
             && forallb isValidBuildingElement bs
         | _ => false
         end
  end.

(** The inner [try] of [generateNewLandscape]: the accepted value, or the
    message of the error its [catch] rethrows. *)
Definition parseLandscape (jsonStr : string) (parsed : option JSON)
  : JSON + string :=
  match parsed with
  | Some parsedData =>
      if landscapeCondition parsedData then inl parsedData
      else inr (String.append
                  "Failed to parse landscape data from API. Invalid JSON structure. Raw: "
                  (rawResponseLog jsonStr))
  | None =>
      inr (String.append
             "Failed to parse landscape data from API. Invalid JSON structure. Raw: "
             (rawResponseLog jsonStr))
  end.

(** [generateNewLandscape] once its promise has settled. [apiKey] tells
    whether [process.env.API_KEY] is set. *)
Definition generateNewLandscape (apiKey : bool) (r : ApiResponse)
    (s : AppState) : AppState :=
  if negb apiKey then
    mkAppState None false
      (Some "API_KEY is missing. Cannot generate landscape data.")
  else
    match r with
    | ApiThrows message =>
        mkAppState None false (Some (errorMessageOf message))
    | ApiText jsonStr parsed =>
        match parseLandscape jsonStr parsed with
        | inl parsedData => mkAppState (Some parsedData) false None
        | inr m => mkAppState None false (Some (errorMessageOf (Some m)))
        end
    end.

(** [{...b, id: `${clusterIdPrefix}${b.id}`}] *)
Fixpoint setField (k : string) (v : JSON) (fs : list (string * JSON))
  : list (string * JSON) :=
  match fs with
  | [] => [(k, v)]
  | (k', v') :: rest =>
      if String.eqb k k' then (k, v) :: rest else (k', v') :: setField k v rest
  end.

Definition prefixId (clusterIdPrefix : string) (b : JSON) : JSON :=
  match b with
  | JObject fs =>
      match lookupField "id" fs with
      | Some (JString i) =>
          JObject (setField "id" (JString (String.append clusterIdPrefix i)) fs)
      | _ => b
      end
  | _ => b
  end.

(** [generateBuildingCluster]: the value its promise resolves to, [None]
    for [null]. It never rejects. *)
Definition generateBuildingCluster (apiKey : bool) (clusterIdPrefix : string)
    (r : ApiResponse) : option (list JSON) :=
  if negb apiKey then None
  else
    match r with
    | ApiThrows _ => None
    | ApiText _ None => None
    | ApiText _ (Some parsedClusterData) =>
        match parsedClusterData with
        | JArray bs =>
            if Nat.leb 5 (List.length bs) && Nat.leb (List.length bs) 8
               && forallb isValidBuildingElement bs
            then Some (map (prefixId clusterIdPrefix) bs)
            else None
        | _ => None
        end
    end.
End App.

(** ** The scene of ThreeCityscape *)

(** The edge geometry [createOrUpdateLineSegments] builds. *)
Inductive EdgesShape :=
| BoxEdges (w h d : Q)
| CylinderEdges (r h : Q).

Record BufferGeometry := mkGeometry { geomId : nat; geomShape : EdgesShape }.

Record LineBasicMaterial := mkMaterial {
  matId : nat;
  color : string;
  opacity : Q;
  transparent : bool;
}.

(** [userData] of a building object: [None] is a property never set. *)
Record UserData := mkUserData {
  ud_id : string;
  ud_height : Q;
  isDynamicallyGenerated : option bool;
  isAppearing : option bool;
  creationTime : option Q;
}.

(** A WorldElement: one [THREE.LineSegments] of the city group. *)
Record LineSegments := mkLineSegments {
  uuid : nat;
  geometry : BufferGeometry;
  material : LineBasicMaterial;
  seg_position : Vector3;
  rotation_y : Q;
  userData : UserData;
}.

Record PerspectiveCamera := mkCamera {
  cam_position : Vector3;
  fov : Q;
  aspect : Q;
}.

(** [cam.up], never changed by the component. *)
Definition cam_up : Vector3 := mkVector3 0 1 0.

(** What the setup effect creates and its cleanup nulls, all at once:
    [sceneRef], [cameraRef], [rendererRef], [clockRef], [skyMeshRef] (its
    [visible] flag) and [cityElementsGroupRef] (its [children]). [mountRef]
    is set for as long as the listeners of that effect exist. *)
Record Scene := mkScene {
  camera : PerspectiveCamera;
  skyVisible : bool;
  children : list LineSegments;
}.

Record InputRefs := mkInputRefs {
  cameraAzimuthAngleRef : Q;
  cameraFovRef : Q;
  isRotatingLeftRef : bool;
  isRotatingRightRef : bool;
  normalizedMouseXRef : Q;
  initialPinchDistanceRef : option Q;
  initialFovAtPinchStartRef : option Q;
}.

Record StreamingRefs := mkStreamingRefs {
  dynamicallyGeneratedBuildingsRef : gset string;
  generationTriggerPointsRef : list Vector3;
  activeClusterRequestsRef : Z;
  nextClusterIdCounterRef : Z;
}.

(** One batch of sub-cluster requests whose [Promise.allSettled] has not
    settled yet: the [targetCenters] its continuation closes over and the id
    prefixes it asked for. *)
Record Batch := mkBatch {
  targetCenters : list Vector3;
  clusterIdPrefixes : list string;
}.

(** What lies outside the component: the id counter and disposal log of
    three.js, the batches in flight, and what was observed from outside. *)
Record World := mkWorld {
  nextId : nat;
  disposedGeometries : list nat;
  disposedMaterials : list nat;
  pending : list Batch;
  screenshotsInitiated : nat;
  renderPasses : nat;
  downloads : nat;
}.

Record State := mkState {
  scene : option Scene;
  isCapturingRef : bool;
  input : InputRefs;
  streaming : StreamingRefs;
  world : World;
}.

Definition withScene (s : State) (sc : option Scene) : State :=
  mkState sc (isCapturingRef s) (input s) (streaming s) (world s).
Definition withCapturing (s : State) (b : bool) : State :=
  mkState (scene s) b (input s) (streaming s) (world s).
Definition withInput (s : State) (i : InputRefs) : State :=
  mkState (scene s) (isCapturingRef s) i (streaming s) (world s).
Definition withStreaming (s : State) (r : StreamingRefs) : State :=
  mkState (scene s) (isCapturingRef s) (input s) r (world s).
Definition withWorld (s : State) (w : World) : State :=
  mkState (scene s) (isCapturingRef s) (input s) (streaming s) w.

Definition withFov (i : InputRefs) (v : Q) : InputRefs :=
  mkInputRefs (cameraAzimuthAngleRef i) v (isRotatingLeftRef i)
    (isRotatingRightRef i) (normalizedMouseXRef i)
    (initialPinchDistanceRef i) (initialFovAtPinchStartRef i).
Definition withAzimuth (i : InputRefs) (v : Q) : InputRefs :=
  mkInputRefs v (cameraFovRef i) (isRotatingLeftRef i)
    (isRotatingRightRef i) (normalizedMouseXRef i)
    (initialPinchDistanceRef i) (initialFovAtPinchStartRef i).
Definition withRotating (i : InputRefs) (l r : bool) : InputRefs :=
  mkInputRefs (cameraAzimuthAngleRef i) (cameraFovRef i) l r
    (normalizedMouseXRef i)
    (initialPinchDistanceRef i) (initialFovAtPinchStartRef i).
Definition withMouseX (i : InputRefs) (v : Q) : InputRefs :=
  mkInputRefs (cameraAzimuthAngleRef i) (cameraFovRef i) (isRotatingLeftRef i)
    (isRotatingRightRef i) v
    (initialPinchDistanceRef i) (initialFovAtPinchStartRef i).
Definition withPinch (i : InputRefs) (d f : option Q) : InputRefs :=
  mkInputRefs (cameraAzimuthAngleRef i) (cameraFovRef i) (isRotatingLeftRef i)
    (isRotatingRightRef i) (normalizedMouseXRef i) d f.

(** The refs as [useRef] initialises them, before any effect has run. *)
Definition initialState : State :=
  mkState None false
    (mkInputRefs 0 DEFAULT_FOV false false 0 None None)
    (mkStreamingRefs ∅ [] 0%Z 0%Z)
    (mkWorld 0 [] [] [] 0 0 0).

(** ** InputController *)

(** [Math.max(MIN_FOV, Math.min(MAX_FOV, v))] *)
Definition clampFov (v : Q) : Q := Qmax MIN_FOV (Qmin MAX_FOV v).

Inductive Direction := dir_left | dir_right.

Record Touch := mkTouch { clientX : Q; clientY : Q }.

(** [getBoundingClientRect()] of the mount element. *)
Record DOMRect := mkDOMRect { rect_left : Q; rect_width : Q }.

Section Input.
Context `{JSLib}.

Definition turnViewDirection (direction : Direction) (s : State) : State :=
  let turnAngle := Math_PI / 4 in
  let i := input s in
  match direction with
  | dir_left => withInput s (withAzimuth i (cameraAzimuthAngleRef i - turnAngle))
  | dir_right => withInput s (withAzimuth i (cameraAzimuthAngleRef i + turnAngle))
  end.

Definition zoomCameraByFactor (factor : Q) (s : State) : State :=
  match scene s with
  | None => s
  | Some _ =>
      let fovChange := DEFAULT_FOV * factor in
      withInput s (withFov (input s)
                     (clampFov (cameraFovRef (input s) + fovChange)))
  end.

Definition handleMouseWheel (deltaY : Q) (s : State) : State :=
  match scene s with
  | None => s
  | Some _ =>
      let newFov := cameraFovRef (input s) + Math_sign deltaY * FOV_STEP in
      withInput s (withFov (input s) (clampFov newFov))
  end.

Definition updateNormalizedPointerX (rect : DOMRect) (x : Q) (s : State)
  : State :=
  match scene s with
  | None => s
  | Some _ =>
      let pointerX := x - rect_left rect in
      withInput s (withMouseX (input s) ((pointerX / rect_width rect) * 2 - 1))
  end.

Definition mouseMoveHandler (rect : DOMRect) (x : Q) (s : State) : State :=
  updateNormalizedPointerX rect x s.

Definition mouseLeaveHandler (s : State) : State :=
  withInput s (withMouseX (input s) 0).

Definition calculateTouchDistance (touch1 touch2 : Touch) : Q :=
  let dx := clientX touch1 - clientX touch2 in
  let dy := clientY touch1 - clientY touch2 in
  Math_sqrt (dx * dx + dy * dy).

Definition touchStartHandler (rect : DOMRect) (touches : list Touch)
    (s : State) : State :=
  match scene s with
  | None => s
  | Some _ =>
      match touches with
      | [t0; t1] =>
          let i := withPinch (input s) (Some (calculateTouchDistance t0 t1))
                     (Some (cameraFovRef (input s))) in
          withInput s (withMouseX i 0)
      | [t0] =>
          updateNormalizedPointerX rect (clientX t0)
            (withInput s (withPinch (input s) None None))
      | _ => s
      end
  end.

Definition touchMoveHandler (rect : DOMRect) (touches : list Touch)
    (s : State) : State :=
  match scene s with
  | None => s
  | Some _ =>
      match touches, initialPinchDistanceRef (input s),
            initialFovAtPinchStartRef (input s) with
      | [t0; t1], Some initialPinchDistance, Some initialFovAtPinchStart =>
          let currentDistance := calculateTouchDistance t0 t1 in
          if Qeq_bool initialPinchDistance 0 then s
          else
            let scale := currentDistance / initialPinchDistance in
            withInput s (withFov (input s)
                           (clampFov (initialFovAtPinchStart * scale)))
      | [t0], _, _ => updateNormalizedPointerX rect (clientX t0) s
      | _, _, _ => s
      end
  end.

Definition touchEndHandler (rect : DOMRect) (touches : list Touch)
    (s : State) : State :=
  let s1 := withInput s (withMouseX (input s) 0) in
  let s2 := if Nat.ltb (List.length touches) 2
            then withInput s1 (withPinch (input s1) None None) else s1 in
  match touches with
  | [t0] => updateNormalizedPointerX rect (clientX t0) s2
  | _ => s2
  end.

Inductive Key := ArrowLeft | ArrowRight | OtherKey.

Definition handleKeyDown (key : Key) (s : State) : State :=
  let i := input s in
  match key with
  | ArrowLeft => withInput s (withRotating i true (isRotatingRightRef i))
  | ArrowRight => withInput s (withRotating i (isRotatingLeftRef i) true)
  | OtherKey => s
  end.

Definition handleKeyUp (key : Key) (s : State) : State :=
  let i := input s in
  match key with
  | ArrowLeft => withInput s (withRotating i false (isRotatingRightRef i))
  | ArrowRight => withInput s (withRotating i (isRotatingLeftRef i) false)
  | OtherKey => s
  end.

(** [handleResize]: the aspect ratio follows the mount element. *)
Definition handleResize (clientWidth clientHeight : Q) (s : State) : State :=
  match scene s with
  | None => s
  | Some sc =>
      let newHeight := Qmax 1 clientHeight in
      withScene s (Some (mkScene
        (mkCamera (cam_position (camera sc)) (fov (camera sc))
                  (clientWidth / newHeight))
        (skyVisible sc) (children sc)))
  end.
End Input.

(** ** GeometryBuilder: [createOrUpdateLineSegments] *)

Definition allocate (k : nat) (w : World) : World :=
  mkWorld (nextId w + k) (disposedGeometries w) (disposedMaterials w)
    (pending w) (screenshotsInitiated w) (renderPasses w) (downloads w).

Definition disposeGeometry (g : nat) (w : World) : World :=
  mkWorld (nextId w) (disposedGeometries w ++ [g]) (disposedMaterials w)
    (pending w) (screenshotsInitiated w) (renderPasses w) (downloads w).

Definition disposeMaterial (m : nat) (w : World) : World :=
  mkWorld (nextId w) (disposedGeometries w) (disposedMaterials w ++ [m])
    (pending w) (screenshotsInitiated w) (renderPasses w) (downloads w).

Definition withPending (w : World) (p : list Batch) : World :=
  mkWorld (nextId w) (disposedGeometries w) (disposedMaterials w)
    p (screenshotsInitiated w) (renderPasses w) (downloads w).

(** The shape the three branches of lines 178-186 choose. *)
Definition edgesShapeOf (elementData : CityElementData) : EdgesShape :=
  let d := dimensions elementData in
  match shape elementData, width d, depth d, radius d with
  | box, Some w, Some dp, _ =>
      if truthy (Some w) && truthy (Some (height d)) && truthy (Some dp)
      then BoxEdges w (height d) dp else BoxEdges 10 10 10
  | cylinder, _, _, Some r =>
      if truthy (Some r) && truthy (Some (height d))
      then CylinderEdges r (height d) else BoxEdges 10 10 10
  | _, _, _, _ => BoxEdges 10 10 10
  end.

(** Lines 177-189: a solid geometry is created (id [nextId]), its edges are
    created (id [nextId + 1]) and the solid one is disposed. *)
Definition buildEdges (elementData : CityElementData) (w : World)
  : BufferGeometry * World :=
  let solid := nextId w in
  let edges := mkGeometry (S solid) (edgesShapeOf elementData) in
  (edges, disposeGeometry solid (allocate 2 w)).

Definition withGeometry (e : LineSegments) (g : BufferGeometry) : LineSegments :=
  mkLineSegments (uuid e) g (material e) (seg_position e) (rotation_y e)
    (userData e).
Definition withMaterial (e : LineSegments) (m : LineBasicMaterial) : LineSegments :=
  mkLineSegments (uuid e) (geometry e) m (seg_position e) (rotation_y e)
    (userData e).
Definition withUserData (e : LineSegments) (u : UserData) : LineSegments :=
  mkLineSegments (uuid e) (geometry e) (material e) (seg_position e)
    (rotation_y e) u.
Definition withPlacement (e : LineSegments) (p : Vector3) (r : Q) : LineSegments :=
  mkLineSegments (uuid e) (geometry e) (material e) p r (userData e).

Definition withColor (m : LineBasicMaterial) (c : string) : LineBasicMaterial :=
  mkMaterial (matId m) c (opacity m) (transparent m).
Definition withOpacity (m : LineBasicMaterial) (o : Q) (t : bool)
  : LineBasicMaterial :=
  mkMaterial (matId m) (color m) o t.

(** Where an element is placed: its vertical centre at
    [position.y + height / 2]. *)
Definition placementOf (elementData : CityElementData) : Vector3 :=
  mkVector3 (vx (position elementData))
            (vy (position elementData)
             + orElse (height (dimensions elementData)) 0 / 2)
            (vz (position elementData)).

(** [clock] is the reading of [clockRef.current.getElapsedTime()], [None]
    when [clockRef.current] is null. *)
Definition createOrUpdateLineSegments (elementData : CityElementData)
    (existingSegments : option LineSegments) (isDynamicFadeIn : bool)
    (clock : option Q) (w : World) : LineSegments * World :=
  let '(edges, w1) := buildEdges elementData w in
  match existingSegments with
  | Some existing =>
      let w2 := disposeGeometry (geomId (geometry existing)) w1 in
      let e1 := withGeometry existing edges in
      let mat := withColor (material e1) globalCityColor in
      match isDynamicFadeIn, clock with
      | true, Some t =>
          let u := userData e1 in
          (withUserData (withMaterial e1 (withOpacity mat 0.01 true))
             (mkUserData (ud_id u) (ud_height u) (Some true) (Some true)
                (Some t)), w2)
      | _, _ => (withMaterial e1 (withOpacity mat 1 false), w2)
      end
  | None =>
      let mid := nextId w1 in
      let oid := S mid in
      let fade := match isDynamicFadeIn, clock with
                  | true, Some t => Some t
                  | _, _ => None
                  end in
      let mat := match fade with
                 | Some _ => mkMaterial mid globalCityColor 0.01 true
                 | None => mkMaterial mid globalCityColor 1 false
                 end in
      let h := orElse (height (dimensions elementData)) 0 in
      let u := match fade with
               | Some t => mkUserData (el_id elementData) h (Some true)
                             (Some true) (Some t)
               | None => mkUserData (el_id elementData) h None None None
               end in
      (mkLineSegments oid edges mat (placementOf elementData)
         (match orientationY elementData with Some r => r | None => 0 end) u,
       allocate 2 w1)
  end.

(** ** StreamingController *)

(** A flag of [userData] read as a condition. *)
Definition flag (b : option bool) : bool :=
  match b with Some true => true | _ => false end.

(** The fade-in aging of one child, lines 743-753. [creationTime] is
    assigned together with the two flags, so it is present whenever they
    are set. *)
Definition fadeIn (elapsedTimeTotal : Q) (element : LineSegments) : LineSegments :=
  let u := userData element in
  if flag (isDynamicallyGenerated u) && flag (isAppearing u) then
    match creationTime u with
    | Some created =>
        let timeElapsed := elapsedTimeTotal - created in
        let newOpacity := Qmin 1 (timeElapsed / FADE_IN_DURATION) in
        let e1 := withMaterial element
                    (withOpacity (material element) newOpacity
                       (transparent (material element))) in
        if Qle_bool 1 newOpacity
        then withUserData e1
               (mkUserData (ud_id u) (ud_height u) (isDynamicallyGenerated u)
                  (Some false) (creationTime u))
        else e1
    | None => element
    end
  else element.

(** The loop of lines 688-693, with its [break]. *)
Fixpoint farEnoughFromAllExisting (center : Vector3) (points : list Vector3)
  : bool :=
  match points with
  | [] => true
  | existingPoint :: rest =>
      if Qltb (distanceToSquared center existingPoint)
              (MIN_DISTANCE_BETWEEN_TRIGGER_POINTS
               * MIN_DISTANCE_BETWEEN_TRIGGER_POINTS)
      then false
      else farEnoughFromAllExisting center rest
  end.

Definition triggerCondition (cameraPosition center : Vector3)
    (points : list Vector3) : bool :=
  match points with
  | [] =>
      Qltb ((GENERATION_TRIGGER_DISTANCE * 0.5)
            * (GENERATION_TRIGGER_DISTANCE * 0.5))
           (lengthSq cameraPosition)
  | _ => farEnoughFromAllExisting center points
  end.

(** The [for] loop of lines 709-716: target centres and id prefixes of the
    sub-clusters [i, i+1, ...], [count] of them, with the id counter. *)
Fixpoint subClusters (base rightDirection : Vector3) (numClusters : Z)
    (i : nat) (count : nat) (counter : Z) : list Vector3 * list string * Z :=
  match count with
  | O => ([], [], counter)
  | S count' =>
      let lateralOffset :=
        (inject_Z (Z.of_nat i) - inject_Z (numClusters - 1) / 2)
        * INTER_CLUSTER_SPACING in
      let targetCenter :=
        addVectors base (multiplyScalar rightDirection lateralOffset) in
      let clusterIdPrefix :=
        String.append "dyn_c" (String.append (pretty counter) "_") in
      let '(cs, ps, counter') :=
        subClusters base rightDirection numClusters (S i) count'
          (counter + 1)%Z in
      (targetCenter :: cs, clusterIdPrefix :: ps, counter')
  end.

Inductive PromiseSettledResult :=
| fulfilled (value : option (list CityElementData))
| rejected.

Section Streaming.
Context `{JSLib}.

(** One tick of [animate], lines 637-768. [elapsedTimeTotal] is the clock
    reading of the frame and [random] the value of [Math.random()]. The
    orientation of the camera, the sky and the draw call are not
    modelled. *)
Definition animate (elapsedTimeTotal random : Q) (s : State) : State :=
  match scene s with
  | None => s
  | Some sc =>
      if isCapturingRef s then s
      else
        let cam := camera sc in
        let i := input s in
        let fov' := if Qltb 0.01 (Math_abs (fov cam - cameraFovRef i))
                    then cameraFovRef i else fov cam in
        let az1 := if isRotatingLeftRef i
                   then cameraAzimuthAngleRef i - KEYBOARD_ROTATION_SPEED
                   else cameraAzimuthAngleRef i in
        let az2 := if isRotatingRightRef i
                   then az1 + KEYBOARD_ROTATION_SPEED else az1 in
        let az3 := az2 + normalizedMouseXRef i
                         * MOUSE_AZIMUTH_SENSITIVITY_PER_FRAME in
        let forwardDirection :=
          normalize (mkVector3 (Math_sin az3) 0 (- Math_cos az3)) in
        let cameraPosition :=
          addScaledVector (cam_position cam) forwardDirection
            HIGH_ANGLE_FORWARD_SPEED in
        let nextClusterPotentialCenter :=
          addScaledVector cameraPosition forwardDirection
            CLUSTER_SPAWN_AHEAD_OFFSET in
        let r := streaming s in
        let triggerNewGeneration :=
          triggerCondition cameraPosition nextClusterPotentialCenter
            (generationTriggerPointsRef r) in
        let '(r', w') :=
          if triggerNewGeneration
             && Z.ltb (activeClusterRequestsRef r) MAX_ACTIVE_CLUSTER_REQUESTS
          then
            let baseSpawnPointAhead :=
              addScaledVector cameraPosition forwardDirection
                CLUSTER_SPAWN_AHEAD_OFFSET in
            let rightDirection :=
              normalize (crossVectors forwardDirection cam_up) in
            let numClustersToGenerate := (Math_floor (random * 5) + 1)%Z in
            let '(centers, prefixes, counter') :=
              subClusters baseSpawnPointAhead rightDirection
                numClustersToGenerate 0 (Z.to_nat numClustersToGenerate)
                (nextClusterIdCounterRef r) in
            (mkStreamingRefs (dynamicallyGeneratedBuildingsRef r)
               (generationTriggerPointsRef r ++ [baseSpawnPointAhead])
               (activeClusterRequestsRef r + 1)%Z counter',
             withPending (world s)
               (pending (world s) ++ [mkBatch centers prefixes]))
          else (r, world s) in
        mkState
          (Some (mkScene (mkCamera cameraPosition fov' (aspect cam))
                   (skyVisible sc)
                   (map (fadeIn elapsedTimeTotal) (children sc))))
          (isCapturingRef s)
          (withAzimuth i az3)
          r' w'
  end.

(** The body of [newClusterBuildings.forEach], lines 724-730. *)
Definition addClusterBuilding (now : Q) (clusterTargetCenter : Vector3)
    (acc : list LineSegments * gset string * World)
    (b_data : CityElementData)
  : list LineSegments * gset string * World :=
  let '(group, dyn, w) := acc in
  let moved :=
    mkCityElementData (el_id b_data) (shape b_data)
      (mkVector3 (vx (position b_data) + vx clusterTargetCenter)
                 (vy (position b_data))
                 (vz (position b_data) + vz clusterTargetCenter))
      (dimensions b_data) (orientationY b_data) in
  let '(buildingMesh, w') :=
    createOrUpdateLineSegments moved None true (Some now) w in
  (group ++ [buildingMesh], {[ el_id moved ]} ∪ dyn, w').

(** The body of [results.forEach], lines 720-734, for the result paired
    with its target centre. *)
Definition applyResult (now : Q)
    (acc : list LineSegments * gset string * World)
    (entry : Vector3 * PromiseSettledResult)
  : list LineSegments * gset string * World :=
  match entry with
  | (clusterTargetCenter, fulfilled (Some newClusterBuildings)) =>
      foldl (addClusterBuilding now clusterTargetCenter) acc
        newClusterBuildings
  | (_, fulfilled None) => acc
  | (_, rejected) => acc
  end.

(** The continuation of [Promise.allSettled] for [batch], lines 718-739:
    the [then] handler, then the [finally] handler. [now] is the clock
    reading when it runs. *)
Definition settleBatch (batch : Batch) (results : list PromiseSettledResult)
    (now : Q) (s : State) : State :=
  let s1 :=
    match scene s with
    | Some sc =>
        let '(group, dyn, w) :=
          foldl (applyResult now)
            (children sc, dynamicallyGeneratedBuildingsRef (streaming s),
             world s)
            (zip (targetCenters batch) results) in
        mkState (Some (mkScene (camera sc) (skyVisible sc) group))
          (isCapturingRef s) (input s)
          (mkStreamingRefs dyn
             (generationTriggerPointsRef (streaming s))
             (activeClusterRequestsRef (streaming s))
             (nextClusterIdCounterRef (streaming s)))
          w
    | None => s
    end in
  let r := streaming s1 in
  withStreaming s1
    (mkStreamingRefs (dynamicallyGeneratedBuildingsRef r)
       (generationTriggerPointsRef r)
       (activeClusterRequestsRef r - 1)%Z
       (nextClusterIdCounterRef r)).

(** The batch at [index] of those in flight settles. [Promise.allSettled]
    yields one result per request. *)
Definition settle (index : nat) (results : list PromiseSettledResult)
    (now : Q) (s : State) : State :=
  match pending (world s) !! index with
  | Some batch =>
      if Nat.eqb (List.length results) (List.length (targetCenters batch))
      then
        settleBatch batch results now
          (withWorld s (withPending (world s)
                          (delete index (pending (world s)))))
      else s
  | None => s
  end.
End Streaming.

(** ** Full regeneration: the effect on [landscapeData], lines 815-894 *)

(** [geometry.dispose(); material.dispose()] of one child. *)
Definition disposeChild (w : World) (child : LineSegments) : World :=
  disposeMaterial (matId (material child))
    (disposeGeometry (geomId (geometry child)) w).

(** [group.children.slice().forEach(child => { if (p(child)) { dispose;
    group.remove(child) } })]: the children that satisfy [p] are disposed
    in order and leave the group, the others stay in order. *)
Definition removeWhere (p : LineSegments -> bool)
    (group : list LineSegments) (w : World) : list LineSegments * World :=
  (List.filter (fun c => negb (p c)) group,
   foldl disposeChild w (List.filter p group)).

(** Lines 861-870: the child found for [b_data] is refreshed in place. With
    [isDynamicFadeIn] false the builder does not read the clock. *)
Definition updateElement (b_data : CityElementData) (element : LineSegments)
    (w : World) : LineSegments * World :=
  let e0 := withMaterial element (withColor (material element) globalCityColor) in
  let '(e1, w1) := createOrUpdateLineSegments b_data (Some e0) false None w in
  let e2 := withPlacement e1 (placementOf b_data)
              (match orientationY b_data with
               | Some r => r
               | None => rotation_y e1
               end) in
  let u := userData e2 in
  (withUserData e2
     (mkUserData (ud_id u) (orElse (height (dimensions b_data)) 0)
        (Some false) (Some false) (creationTime u)), w1).

(** [group.children.find(c => c.userData.id === b_data.id)] followed by the
    update of the child found; [None] when no child has that id. *)
Fixpoint updateFirst (b_data : CityElementData) (group : list LineSegments)
    (w : World) : option (list LineSegments * World) :=
  match group with
  | [] => None
  | c :: rest =>
      if String.eqb (ud_id (userData c)) (el_id b_data)
      then let '(c', w') := updateElement b_data c w in Some (c' :: rest, w')
      else match updateFirst b_data rest w with
           | Some (rest', w') => Some (c :: rest', w')
           | None => None
           end
  end.

(** The body of [landscapeData.buildings.forEach], lines 856-876. *)
Definition reconcileBuilding (dyn : gset string)
    (acc : list LineSegments * World) (b_data : CityElementData)
  : list LineSegments * World :=
  let '(group, w) := acc in
  if bool_decide (el_id b_data ∈ dyn) then acc
  else
    match updateFirst b_data group w with
    | Some r => r
    | None =>
        let '(element, w') :=
          createOrUpdateLineSegments b_data None false None w in
        (group ++ [element], w')
    end.

(** Step 1, lines 820-836. *)
Definition clearDynamic (sc : Scene) (r : StreamingRefs) (w : World)
  : Scene * StreamingRefs * World :=
  if Nat.ltb 0 (size (dynamicallyGeneratedBuildingsRef r)) then
    let '(group, w') :=
      removeWhere
        (fun child =>
           bool_decide (ud_id (userData child)
                        ∈ dynamicallyGeneratedBuildingsRef r))
        (children sc) w in
    (mkScene (camera sc) (skyVisible sc) group,
     mkStreamingRefs ∅ [] 0%Z 0%Z, w')
  else (sc, r, w).

(** Steps 2 and 3, lines 839-892, on the group step 1 left. *)
Definition reconcileGroup (landscapeData : option LandscapeData)
    (dyn : gset string) (group : list LineSegments) (w : World)
  : list LineSegments * World :=
  match landscapeData with
  | None => removeWhere (fun _ => true) group w
  | Some l =>
      match buildings l with
      | [] => removeWhere (fun _ => true) group w
      | _ =>
          let newInitialElementIds : gset string :=
            list_to_set (map el_id (buildings l)) in
          let '(group1, w1) :=
            foldl (reconcileBuilding dyn) (group, w) (buildings l) in
          removeWhere
            (fun child =>
               negb (flag (isDynamicallyGenerated (userData child)))
               && negb (bool_decide (ud_id (userData child)
                                     ∈ newInitialElementIds)))
            group1 w1
      end
  end.

Definition landscapeEffect (landscapeData : option LandscapeData) (s : State)
  : State :=
  match scene s with
  | None => s
  | Some sc =>
      let '(sc1, r1, w1) := clearDynamic sc (streaming s) (world s) in
      let '(group, w2) :=
        reconcileGroup landscapeData (dynamicallyGeneratedBuildingsRef r1)
          (children sc1) w1 in
      mkState (Some (mkScene (camera sc1) (skyVisible sc1) group))
        (isCapturingRef s) (input s) r1 w2
  end.

(** ** SnapshotComposer: [handleCanvasClickAndCapture], lines 234-487 *)

(** Where the render phase (the [try] block) throws, if it does. *)
Inductive ThrowPoint :=
| GreenRendererCreation
| GreenRender
| WhiteRendererCreation
| WhiteRender.

(** What the environment decides during one capture: whether and where the
    render phase throws, whether both images load, whether the 2d context
    exists. *)
Record CaptureOutcome := mkCaptureOutcome {
  throwsAt : option ThrowPoint;
  imagesLoad : bool;
  context2d : bool;
}.

Definition ThrowPoint_eqb (a b : ThrowPoint) : bool :=
  match a, b with
  | GreenRendererCreation, GreenRendererCreation | GreenRender, GreenRender
  | WhiteRendererCreation, WhiteRendererCreation | WhiteRender, WhiteRender =>
      true
  | _, _ => false
  end.

Definition throwsHere (o : CaptureOutcome) (p : ThrowPoint) : bool :=
  match throwsAt o with
  | Some q => ThrowPoint_eqb p q
  | None => false
  end.

(** [originalMaterialColors], keyed by [uuid]. *)
Fixpoint lookupColor (k : nat) (m : list (nat * string)) : option string :=
  match m with
  | [] => None
  | (k', c) :: rest => if Nat.eqb k k' then Some c else lookupColor k rest
  end.

Definition restoreColor (originalMaterialColors : list (nat * string))
    (element : LineSegments) : LineSegments :=
  withMaterial element
    (withColor (material element)
       (match lookupColor (uuid element) originalMaterialColors with
        | Some c => c
        | None => globalCityColor
        end)).

(** Lines 336-353 of the [finally] block, for one child. *)
Definition restoreElement (originalMaterialColors : list (nat * string))
    (now : Q) (element : LineSegments) : LineSegments :=
  let e1 := restoreColor originalMaterialColors element in
  let u := userData e1 in
  let mat := material e1 in
  if flag (isDynamicallyGenerated u) && flag (isAppearing u) then
    match creationTime u with
    | Some created =>
        withMaterial e1
          (withOpacity mat (Qmin 1 ((now - created) / FADE_IN_DURATION)) true)
    | None => e1
    end
  else if flag (isDynamicallyGenerated u) && negb (flag (isAppearing u)) then
    withMaterial e1 (withOpacity mat 1 true)
  else withMaterial e1 (withOpacity mat 1 false).

Definition withChildren (sc : Scene) (group : list LineSegments) : Scene :=
  mkScene (camera sc) (skyVisible sc) group.
Definition withAspect (sc : Scene) (a : Q) : Scene :=
  mkScene (mkCamera (cam_position (camera sc)) (fov (camera sc)) a)
    (skyVisible sc) (children sc).
Definition withSkyVisible (sc : Scene) (v : bool) : Scene :=
  mkScene (camera sc) v (children sc).

Definition countRenderPass (w : World) : World :=
  mkWorld (nextId w) (disposedGeometries w) (disposedMaterials w)
    (pending w) (screenshotsInitiated w) (S (renderPasses w)) (downloads w).
Definition countScreenshot (w : World) : World :=
  mkWorld (nextId w) (disposedGeometries w) (disposedMaterials w)
    (pending w) (S (screenshotsInitiated w)) (renderPasses w) (downloads w).
Definition countDownload (w : World) : World :=
  mkWorld (nextId w) (disposedGeometries w) (disposedMaterials w)
    (pending w) (screenshotsInitiated w) (renderPasses w) (S (downloads w)).

(** The [try] block, lines 267-327: the scene and world where it stops, and
    whether it ran to its end. *)
Definition renderPhase (o : CaptureOutcome)
    (originalMaterialColors : list (nat * string)) (sc : Scene) (w : World)
  : Scene * World * bool :=
  let sc1 := withAspect sc 1 in
  if throwsHere o GreenRendererCreation then (sc1, w, false) else
  let sc2 := withSkyVisible
               (withChildren sc1
                  (map (restoreColor originalMaterialColors) (children sc1)))
               false in
  if throwsHere o GreenRender then (sc2, w, false) else
  let w1 := countRenderPass w in
  let sc3 := withChildren sc2
               (map (fun e => withMaterial e (withColor (material e) white))
                  (children sc2)) in
  if throwsHere o WhiteRendererCreation then (sc3, w1, false) else
  if throwsHere o WhiteRender then (sc3, w1, false) else
  (sc3, countRenderPass w1, true).

(** The [finally] block, lines 329-360, except for the flag. *)
Definition cleanupPhase (originalMaterialColors : list (nat * string))
    (originalAspect : Q) (originalSkyVisible : bool) (now : Q) (sc : Scene)
  : Scene :=
  withSkyVisible
    (withChildren (withAspect sc originalAspect)
       (map (restoreElement originalMaterialColors now) (children sc)))
    originalSkyVisible.

Definition handleCanvasClickAndCapture (o : CaptureOutcome) (now : Q)
    (s : State) : State :=
  match scene s with
  | None => s
  | Some sc =>
      if isCapturingRef s then s
      else
        (* onScreenshotInitiated(); isCapturingRef.current = true *)
        let w0 := countScreenshot (world s) in
        let originalSkyVisible := skyVisible sc in
        let originalMaterialColors :=
          map (fun e => (uuid e, color (material e))) (children sc) in
        let sc0 := withChildren sc
                     (map (fun e => withMaterial e
                                      (withOpacity (material e) 1 false))
                        (children sc)) in
        let originalAspect := aspect (camera sc0) in
        let '(sc1, w1, completed) :=
          renderPhase o originalMaterialColors sc0 w0 in
        (* finally: ...; isCapturingRef.current = false *)
        let sc2 := cleanupPhase originalMaterialColors originalAspect
                     originalSkyVisible now sc1 in
        let w2 := if completed && imagesLoad o && context2d o
                  then countDownload w1 else w1 in
        mkState (Some sc2) false (input s) (streaming s) w2
  end.

(** ** The setup effect and its cleanup, lines 557-811 *)

Section Lifecycle.
Context `{JSLib}.

(** The effect creates the scene and runs [animate()] once. *)
Definition mount (clientWidth clientHeight random : Q) (s : State) : State :=
  let cam :=
    mkCamera (mkVector3 0 HIGH_ANGLE_INITIAL_CAMERA_Y
                HIGH_ANGLE_INITIAL_CAMERA_Z)
             (cameraFovRef (input s))
             (clientWidth / Qmax 1 clientHeight) in
  animate 0 random
    (withInput (withScene s (Some (mkScene cam true [])))
       (withAzimuth (input s) 0)).

(** The cleanup disposes what the scene holds and nulls the refs. *)
Definition unmount (s : State) : State :=
  match scene s with
  | None => s
  | Some sc =>
      withWorld (withScene s None) (foldl disposeChild (world s) (children sc))
  end.

(** What can happen to the component. *)
Inductive Event :=
| Mount (clientWidth clientHeight random : Q)
| Unmount
| TurnView (direction : Direction)
| Zoom (factor : Q)
| Wheel (deltaY : Q)
| MouseMove (rect : DOMRect) (x : Q)
| MouseLeave
| TouchStart (rect : DOMRect) (touches : list Touch)
| TouchMove (rect : DOMRect) (touches : list Touch)
| TouchEnd (rect : DOMRect) (touches : list Touch)
| KeyDown (key : Key)
| KeyUp (key : Key)
| Resize (clientWidth clientHeight : Q)
| Frame (elapsedTimeTotal random : Q)
| Settle (index : nat) (results : list PromiseSettledResult) (now : Q)
| Landscape (landscapeData : option LandscapeData)
| Click (o : CaptureOutcome) (now : Q).

Definition step (s : State) (e : Event) : State :=
  match e with
  | Mount w h r => mount w h r s
  | Unmount => unmount s
  | TurnView d => turnViewDirection d s
  | Zoom f => zoomCameraByFactor f s
  | Wheel d => handleMouseWheel d s
  | MouseMove rect x => mouseMoveHandler rect x s
  | MouseLeave => mouseLeaveHandler s
  | TouchStart rect ts => touchStartHandler rect ts s
  | TouchMove rect ts => touchMoveHandler rect ts s
  | TouchEnd rect ts => touchEndHandler rect ts s
  | KeyDown k => handleKeyDown k s
  | KeyUp k => handleKeyUp k s
  | Resize w h => handleResize w h s
  | Frame t r => animate t r s
  | Settle i results now => settle i results now s
  | Landscape l => landscapeEffect l s
  | Click o now => handleCanvasClickAndCapture o now s
  end.

(** The events that the InputController handles. *)
Definition inputEvent (e : Event) : bool :=
  match e with
  | TurnView _ | Zoom _ | Wheel _ | MouseMove _ _ | MouseLeave
  | TouchStart _ _ | TouchMove _ _ | TouchEnd _ _ | KeyDown _ | KeyUp _ => true
  | _ => false
  end.

(** The state after a history of events, from the initial refs. *)
Definition run (events : list Event) : State := foldl step initialState events.
End Lifecycle.

(** ** MonitorScreen.tsx: the noise texture, the buttons and the loader

    [hexToRgb] matches [/^#?([a-f\d]{2})([a-f\d]{2})([a-f\d]{2})$/i] and
    reads the three groups with [parseInt(_, 16)]. The timers of the
    component are not modelled: a function below is one handler or one
    callback, with what it reads of the state as arguments. *)

Record RGB := mkRGB { rgb_r : Z; rgb_g : Z; rgb_b : Z }.

(** The value of one character of [[a-f\d]], case-insensitive. *)
Definition hexDigit (c : ascii) : option Z :=
  let n := Z.of_nat (nat_of_ascii c) in
  if (Z.leb 48 n && Z.leb n 57)%bool then Some (n - 48)%Z
  else if (Z.leb 97 n && Z.leb n 102)%bool then Some (n - 87)%Z
  else if (Z.leb 65 n && Z.leb n 70)%bool then Some (n - 55)%Z
  else None.

(** [parseInt] of a group of two such characters, base 16. *)
Definition parseHexPair (hi lo : ascii) : option Z :=
  match hexDigit hi, hexDigit lo with
  | Some h, Some l => Some (16 * h + l)%Z
  | _, _ => None
  end.

(** The failsafe green of [hexToRgb]. *)
Definition failsafeGreen : RGB := mkRGB 0 128 0.

Definition hexToRgb (hex : string) : RGB :=
  let digits := match hex with
                | String "#"%char rest => rest
                | _ => hex
                end in
  match digits with
  | String c1 (String c2 (String c3 (String c4 (String c5
      (String c6 EmptyString))))) =>
      match parseHexPair c1 c2, parseHexPair c3 c4, parseHexPair c5 c6 with
      | Some r, Some g, Some b => mkRGB r g b
      | _, _, _ => failsafeGreen
      end
  | _ => failsafeGreen
  end.

(** One pixel of the image data: red, green, blue, alpha. *)
Record Pixel := mkPixel { px_r : Z; px_g : Z; px_b : Z; px_a : Z }.

(** [darkColorRGB], line 62. *)
Definition darkColorOf (mainColorRGB : RGB) : RGB :=
  mkRGB (Math_floor (inject_Z (rgb_r mainColorRGB) * 0.2))
        (Math_floor (inject_Z (rgb_g mainColorRGB) * 0.4))
        (Math_floor (inject_Z (rgb_b mainColorRGB) * 0.2)).

(** The body of the loop of lines 65-81 for one pixel; [randomChoice] is
    the value of [Math.random()]. *)
Definition noisePixel (mainColorRGB darkColorRGB : RGB) (randomChoice : Q)
  : Pixel :=
  if Qltb randomChoice 0.6
  then mkPixel (rgb_r mainColorRGB) (rgb_g mainColorRGB) (rgb_b mainColorRGB)
         255
  else if Qltb randomChoice 0.85
  then mkPixel (rgb_r darkColorRGB) (rgb_g darkColorRGB) (rgb_b darkColorRGB)
         255
  else mkPixel 0 0 0 255.

(** [generateNoiseTexture] up to [putImageData]: the image data it fills,
    one pixel per value of [Math.random()]; [None] stands for the empty
    string it returns without a 2d context. *)
Definition generateNoiseTexture (color : string) (context2dExists : bool)
    (randoms : list Q) : option (list Pixel) :=
  if negb context2dExists then None
  else
    let mainColorRGB := hexToRgb color in
    let darkColorRGB := darkColorOf mainColorRGB in
    Some (map (noisePixel mainColorRGB darkColorRGB) randoms).

Inductive FlashType :=
| flash_generic | flash_populate | flash_research | flash_validate
| flash_xAxisA | flash_yAxisB | flash_viewMap.

(** What a press does: the call of [triggerFlash] it makes, if any, with
    the type and the duration the call runs with (100 is the default of
    [triggerFlash]), and whether [action()] is called. *)
Record PressOutcome := mkPressOutcome {
  flashTriggered : option (FlashType * Q);
  actionCalled : bool;
}.

(** The durations of the [switch] of lines 460-466. *)
Definition defaultFlashDuration (t : FlashType) : Q :=
  match t with
  | flash_populate => 5000
  | flash_research => 7000
  | flash_validate => 6000
  | flash_viewMap => 15000
  | _ => 100
  end.

(** [handleGenericButtonPress], lines 432-471. [flashType] is [None] for
    [undefined] and [Some None] for [null]; [flashDurationMs] is [None] for
    [undefined]. *)
Definition handleGenericButtonPress (isGenerating canGenerate : bool)
    (buttonId : string) (flashType : option (option FlashType))
    (flashDurationMs : option Q) : PressOutcome :=
  let baseButtonDisabled := isGenerating || negb canGenerate in
  if String.eqb buttonId "generate" && isGenerating
  then mkPressOutcome (Some (flash_generic, 100)) false
  else if String.eqb buttonId "zoomLvl"
  then mkPressOutcome None (negb baseButtonDisabled)
  else if baseButtonDisabled then mkPressOutcome None false
  else
    let resolvedFlashType :=
      match flashType with
      | Some t => t
      | None => Some flash_generic
      end in
    match resolvedFlashType with
    | Some flash_xAxisA => mkPressOutcome (Some (flash_xAxisA, 100)) true
    | Some flash_yAxisB => mkPressOutcome (Some (flash_yAxisB, 100)) true
    | Some t =>
        let duration :=
          match flashDurationMs with
          | Some d => if Qeq_bool d 0 then defaultFlashDuration t else d
          | None => defaultFlashDuration t
          end in
        mkPressOutcome (Some (t, duration)) true
    | None => mkPressOutcome None true
    end.

(** The three buttons whose action is a command of the cityscape, lines
    696-762. *)
Inductive CityButton := XAxisA | YAxisB | ZoomLvl.

Definition cityButtonId (b : CityButton) : string :=
  match b with
  | XAxisA => "xAxisA"
  | YAxisB => "yAxisB"
  | ZoomLvl => "zoomLvl"
  end.

Definition cityButtonFlash (b : CityButton) : option (option FlashType) :=
  match b with
  | XAxisA => Some (Some flash_xAxisA)
  | YAxisB => Some (Some flash_yAxisB)
  | ZoomLvl => None
  end.

(** A click on one of them: what it does to the cityscape. The ref
    [threeCityscapeRef] is set while the cityscape is rendered. *)
Definition clickCityButton `{JSLib} (isGenerating canGenerate : bool)
    (b : CityButton) (s : State) : State :=
  if actionCalled (handleGenericButtonPress isGenerating canGenerate
                     (cityButtonId b) (cityButtonFlash b) None)
  then match b with
       | XAxisA => turnViewDirection dir_left s
       | YAxisB => turnViewDirection dir_right s
       | ZoomLvl => zoomCameraByFactor 0.25 s
       end
  else s.

(** [targetPopulationNumberRef] as [triggerFlash] sets it, lines 343-357;
    [random] is the value of [Math.random()]. *)
Definition targetPopulationNumber (type : FlashType) (random : Q) : Z :=
  match type with
  | flash_populate => (Math_floor (random * 9000000) + 1000000)%Z
  | flash_research => (Math_floor (random * 950000) + 50000)%Z
  | flash_validate => (Math_floor (random * 430000) + 20000)%Z
  | _ => 0%Z
  end.

(** [updateLoaderAnimation], lines 368-380: the progress and the count it
    displays at [currentTime]. *)
Definition loaderProgressAt (loaderStartTime durationMs currentTime : Q) : Q :=
  let elapsedTime := currentTime - loaderStartTime in
  Qmin 100 (elapsedTime / durationMs * 100).

Definition loaderCountAt (targetPopulationNumber : Z) (progress : Q) : Z :=
  Math_floor (progress / 100 * inject_Z targetPopulationNumber).

(** *** The loader as the browser drives it *)

(** The state the loader of a populate, research or validate flash works
    on. The number displayed is kept as a number ([toLocaleString] is not
    modelled), and the characteristic text is left out. *)
Record Loader := mkLoader {
  isFlashing : bool;
  activeFlashType : option FlashType;
  loaderProgress : Q;
  currentPopulationDisplay : Z;
  targetPopulationNumberRef : Z;
  loaderStartTimeRef : option Q;
  animationFrameRequested : bool;
  flashTimeoutPending : bool;
}.

(** The callback of the full-screen static timeout for one of the three
    types, lines 336-392, on the state the head of [triggerFlash] has reset
    (lines 313-320): [now] is the value of [performance.now()] and
    [random] the one of [Math.random()]. It requests the first animation
    frame and sets the flash timeout. *)
Definition startLoader (type : FlashType) (random now : Q) : Loader :=
  mkLoader true (Some type) 0 0 (targetPopulationNumber type random)
    (Some now) true true.

(** [updateLoaderAnimation], lines 368-380, when the browser runs the frame
    requested. *)
Definition updateLoaderAnimation (durationMs currentTime : Q) (l : Loader)
  : Loader :=
  let stopped :=
    mkLoader (isFlashing l) (activeFlashType l) (loaderProgress l)
      (currentPopulationDisplay l) (targetPopulationNumberRef l)
      (loaderStartTimeRef l) false (flashTimeoutPending l) in
  match loaderStartTimeRef l with
  | None => stopped
  | Some loaderStartTime =>
      if Qeq_bool loaderStartTime 0 then stopped
      else
        let progress :=
          loaderProgressAt loaderStartTime durationMs currentTime in
        let currentCount :=
          loaderCountAt (targetPopulationNumberRef l) progress in
        if Qltb progress 100
        then mkLoader (isFlashing l) (activeFlashType l) progress currentCount
               (targetPopulationNumberRef l) (Some loaderStartTime) true
               (flashTimeoutPending l)
        else mkLoader (isFlashing l) (activeFlashType l) progress currentCount
               (targetPopulationNumberRef l) None false
               (flashTimeoutPending l)
  end.

(** The callback of the flash timeout, lines 383-392. *)
Definition flashTimeout (l : Loader) : Loader :=
  mkLoader false None 0 0 (targetPopulationNumberRef l) None false false.

(** What the browser runs during one flash: a frame that was requested,
    with its timestamp, or the flash timeout. *)
Inductive LoaderEvent :=
| AnimationFrame (currentTime : Q)
| FlashTimeout.

Definition loaderStep (durationMs : Q) (l : Loader) (e : LoaderEvent)
  : Loader :=
  match e with
  | AnimationFrame currentTime =>
      if animationFrameRequested l
      then updateLoaderAnimation durationMs currentTime l
      else l
  | FlashTimeout => if flashTimeoutPending l then flashTimeout l else l
  end.

Definition runLoader (durationMs : Q) (l : Loader)
    (events : list LoaderEvent) : Loader :=
  foldl (loaderStep durationMs) l events.

(** ** The program: App and MonitorScreen around the cityscape

    [App] holds [landscapeData], [isLoading] and [error]; [MonitorScreen]
    renders [ThreeCityscape] only while nothing is loading (line 821), so
    a regeneration unmounts the mounted instance and mounts a new one,
    whose refs start from their initial values. The requests of an
    unmounted instance are not cancelled: its batches stay in flight
    and their continuations run on its own refs. *)

(** [landscapeData] as [ThreeCityscape] reads it: the two colours of the
    sky and the buildings. *)
Definition asLandscapeData (parsedData : JSON) : option LandscapeData :=
  match get (get (Some parsedData) "sky") "topColor",
        get (get (Some parsedData) "sky") "horizonColor",
        get (Some parsedData) "buildings" with
  | Some (JString top), Some (JString horizon), Some (JArray bs) =>
      option_map (mkLandscapeData (mkSkySettings top horizon))
        (mapM asCityElementData bs)
  | _, _, _ => None
  end.

(** The prop [landscapeData] of the cityscape. *)
Definition landscapeProp (a : AppState) : option LandscapeData :=
  match landscapeData a with
  | Some parsedData => asLandscapeData parsedData
  | None => None
  end.

(** What a mount reads from the browser: the size of the container and the
    value of [Math.random()] in its first frame. *)
Record MountEnv := mkMountEnv {
  env_clientWidth : Q;
  env_clientHeight : Q;
  env_random : Q;
}.

(** The state of [App], the instance of [ThreeCityscape] that is mounted,
    if one is, and the instances unmounted so far. *)
Record Program := mkProgram {
  app : AppState;
  cityscape : option State;
  unmountedInstances : list State;
}.

(** The events of the mounted instance that come from the browser: the
    lifecycle is driven by React and the two commands by the buttons. *)
Definition browserEvent (e : Event) : bool :=
  match e with
  | Mount _ _ _ | Unmount | Landscape _ | TurnView _ | Zoom _ => false
  | _ => true
  end.

Inductive ProgramEvent :=
| GenerateClick (env : MountEnv)
| GenerationSettles (r : ApiResponse) (env : MountEnv)
| CityButtonClick (b : CityButton)
| CityscapeEvent (e : Event)
| UnmountedSettle (instance index : nat)
    (results : list PromiseSettledResult) (now : Q).

Section Program.
Context `{JSLib}.
Variable String_toLowerCase : string -> string.

(** The condition of MonitorScreen.tsx line 821,
    [!isLoading && (!error || error.toLowerCase().includes("api_key"))]. *)
Definition cityscapeRendered (a : AppState) : bool :=
  negb (isLoading a)
  && match error a with
     | None => true
     | Some e => String.eqb e "" || includes (String_toLowerCase e) "api_key"
     end.

(** React commits the state [a'] of [App]. [landscapeChanged] tells whether
    [landscapeData] holds another value than before. A cityscape that
    stays rendered runs its landscape effect when the prop changed; one
    that is no longer rendered runs its cleanup; one that is newly rendered
    starts from the initial refs and runs the setup effect, then the
    landscape effect. *)
Definition commit (env : MountEnv) (a' : AppState) (landscapeChanged : bool)
    (p : Program) : Program :=
  match cityscape p, cityscapeRendered a' with
  | Some s, true =>
      mkProgram a'
        (Some (if landscapeChanged then landscapeEffect (landscapeProp a') s
               else s))
        (unmountedInstances p)
  | Some s, false => mkProgram a' None (unmountedInstances p ++ [unmount s])
  | None, true =>
      mkProgram a'
        (Some (landscapeEffect (landscapeProp a')
                 (mount (env_clientWidth env) (env_clientHeight env)
                    (env_random env) initialState)))
        (unmountedInstances p)
  | None, false => mkProgram a' None (unmountedInstances p)
  end.

(** [generateNewLandscape] up to its first [await], App.tsx lines 73-81. *)
Definition startGeneration (apiKey : bool) (env : MountEnv) (p : Program)
  : Program :=
  if negb apiKey then
    commit env
      (mkAppState None false
         (Some "API_KEY is missing. Cannot generate landscape data."))
      (match landscapeData (app p) with Some _ => true | None => false end)
      p
  else commit env (mkAppState (landscapeData (app p)) true None) false p.

(** The rest of [generateNewLandscape], once the content service has
    answered. A parsed value is a new object; [null] replaces [null]
    without a change. *)
Definition finishGeneration (env : MountEnv) (r : ApiResponse) (p : Program)
  : Program :=
  let a' := generateNewLandscape true r (app p) in
  commit env a'
    (match landscapeData (app p), landscapeData a' with
     | None, None => false
     | _, _ => true
     end)
    p.

Definition programStep (apiKey : bool) (p : Program) (e : ProgramEvent)
  : Program :=
  match e with
  | GenerateClick env =>
      if actionCalled (handleGenericButtonPress (isLoading (app p)) apiKey
                         "generate" None None)
      then startGeneration apiKey env p
      else p
  | GenerationSettles r env =>
      if isLoading (app p) && apiKey then finishGeneration env r p else p
  | CityButtonClick b =>
      mkProgram (app p)
        (option_map (clickCityButton (isLoading (app p)) apiKey b)
           (cityscape p))
        (unmountedInstances p)
  | CityscapeEvent e =>
      if browserEvent e
      then mkProgram (app p) (option_map (fun s => step s e) (cityscape p))
             (unmountedInstances p)
      else p
  | UnmountedSettle instance index results now =>
      mkProgram (app p) (cityscape p)
        (alter (settle index results now) instance (unmountedInstances p))
  end.

(** The first render of [App] (App.tsx lines 69-71) and its effect, which
    calls [generateNewLandscape] (lines 311-313). *)
Definition initialProgram (apiKey : bool) (env : MountEnv) : Program :=
  startGeneration apiKey env (mkProgram (mkAppState None true None) None []).

Definition runProgram (apiKey : bool) (env : MountEnv)
    (events : list ProgramEvent) : Program :=
  foldl (programStep apiKey) (initialProgram apiKey env) events.
End Program.



(** ** Predicates the properties are stated with *)

(** The target field of view lies in [[MIN_FOV, MAX_FOV]]. *)
Definition fovInRange (v : Q) : Prop := MIN_FOV <= v /\ v <= MAX_FOV.

(** Any two trigger points recorded at different positions of the list are
    at least [MIN_DISTANCE_BETWEEN_TRIGGER_POINTS] apart (on the squares of
    the distances, as the source compares them). *)
Definition spaced (points : list Vector3) : Prop :=
  forall (i j : nat) (p q : Vector3),
    i <> j -> points !! i = Some p -> points !! j = Some q ->
    MIN_DISTANCE_BETWEEN_TRIGGER_POINTS * MIN_DISTANCE_BETWEEN_TRIGGER_POINTS
    <= distanceToSquared p q.

(** [e] is the WorldElement streamed in at time [now] for the building [b]
    of a cluster whose target centre is [center]: it carries the id of [b],
    is tagged dynamic and appearing with [now] as creation time, starts at
    opacity 0.01, and stands where [b] would stand moved by the [x] and [z]
    of [center]. *)
Definition streamedFrom (now : Q) (center : Vector3) (b : CityElementData)
    (e : LineSegments) : Prop :=
  ud_id (userData e) = el_id b
  /\ isDynamicallyGenerated (userData e) = Some true
  /\ isAppearing (userData e) = Some true
  /\ creationTime (userData e) = Some now
  /\ opacity (material e) = 0.01
  /\ transparent (material e) = true
  /\ vx (seg_position e) = vx (placementOf b) + vx center
  /\ vy (seg_position e) = vy (placementOf b)
  /\ vz (seg_position e) = vz (placementOf b) + vz center.

(** The children of the city group, none when the scene is not mounted. *)
Definition childrenOf (s : State) : list LineSegments :=
  match scene s with
  | Some sc => children sc
  | None => []
  end.

(** Object identities are well formed: the children of the group have
    pairwise different [uuid]s, all allocated already. *)
Definition uuidsWellFormed (group : list LineSegments) (w : World) : Prop :=
  NoDup (map uuid group)
  /\ Forall (fun u => (u < nextId w)%nat) (map uuid group).

(** The world only moves forward: the disposal logs are extended at their
    end and the id counter does not decrease. *)
Definition grows (w w' : World) : Prop :=
  disposedGeometries w `prefix_of` disposedGeometries w'
  /\ disposedMaterials w `prefix_of` disposedMaterials w'
  /\ (nextId w <= nextId w')%nat.

(** [c.userData.id === i] *)
Definition idIs (i : string) (c : LineSegments) : bool :=
  String.eqb (ud_id (userData c)) i.

(** The ids the children of a group carry, in order. *)
Definition childIds (group : list LineSegments) : list string :=
  map (fun c => ud_id (userData c)) group.

(** The material objects of the children of a group, in order. *)
Definition childMaterials (group : list LineSegments) : list nat :=
  map (fun c => matId (material c)) group.

(** The initial buildings of a Landscape, none when there is no Landscape. *)
Definition buildingsOf (l : option LandscapeData) : list CityElementData :=
  match l with
  | Some d => buildings d
  | None => []
  end.

(** A history in which no regeneration resets the counter of a batch in
    flight: every change of [landscapeData] finds the scene unmounted, no
    streamed element registered (step 1 is skipped) or no batch in
    flight. *)
Fixpoint regenerationsLoseNoBatch `{JSLib} (s : State) (events : list Event)
  : Prop :=
  match events with
  | [] => True
  | e :: rest =>
      match e with
      | Landscape _ =>
          scene s = None
          \/ dynamicallyGeneratedBuildingsRef (streaming s) = ∅
          \/ pending (world s) = []
      | _ => True
      end
      /\ regenerationsLoseNoBatch (step s e) rest
  end.

(** The in-flight counter counts the batches in flight, at most one. *)
Definition counterMatchesBatches (s : State) : Prop :=
  activeClusterRequestsRef (streaming s)
  = Z.of_nat (List.length (pending (world s)))
  /\ (List.length (pending (world s)) <= 1)%nat.

(** The same element under another id. *)
Definition withId (d : CityElementData) (i : string) : CityElementData :=
  mkCityElementData i (shape d) (position d) (dimensions d) (orientationY d).

(** How often a list of turns goes to the side [d]. *)
Definition turnsTo (d : Direction) (ds : list Direction) : Q :=
  inject_Z (Z.of_nat (List.length
    (List.filter (fun x => match x, d with
                           | dir_left, dir_left | dir_right, dir_right => true
                           | _, _ => false
                           end) ds))).

(** The azimuth a frame steers to, lines 654-661. *)
Definition steeredAzimuth (i : InputRefs) : Q :=
  (if isRotatingRightRef i
   then (if isRotatingLeftRef i
         then cameraAzimuthAngleRef i - KEYBOARD_ROTATION_SPEED
         else cameraAzimuthAngleRef i) + KEYBOARD_ROTATION_SPEED
   else (if isRotatingLeftRef i
         then cameraAzimuthAngleRef i - KEYBOARD_ROTATION_SPEED
         else cameraAzimuthAngleRef i))
  + normalizedMouseXRef i * MOUSE_AZIMUTH_SENSITIVITY_PER_FRAME.

(** The direction of flight at an azimuth, lines 663-667. *)
Definition forwardDirectionAt `{JSLib} (azimuth : Q) : Vector3 :=
  normalize (mkVector3 (Math_sin azimuth) 0 (- Math_cos azimuth)).

(** A pinch gesture after its start: any touch moves. *)
Definition touchMoves `{JSLib} (moves : list (DOMRect * list Touch))
    (s : State) : State :=
  foldl (fun st m => touchMoveHandler m.1 m.2 st) s moves.

(** Where the camera is, when the scene is mounted. *)
Definition cameraPositionOf (s : State) : option Vector3 :=
  option_map (fun sc => cam_position (camera sc)) (scene s).

(** The id prefix of the sub-cluster numbered [k], line 714. *)
Definition clusterIdPrefixOf (k : Z) : string :=
  String.append "dyn_c" (String.append (pretty k) "_").

(** The streaming refs with the in-flight counter one lower, line 738. *)
Definition requestDone (r : StreamingRefs) : StreamingRefs :=
  mkStreamingRefs (dynamicallyGeneratedBuildingsRef r)
    (generationTriggerPointsRef r) (activeClusterRequestsRef r - 1)%Z
    (nextClusterIdCounterRef r).

(** A request that produced no buildings: it was rejected or resolved to
    [null]. *)
Definition failedResult (r : PromiseSettledResult) : bool :=
  match r with
  | fulfilled (Some _) => false
  | fulfilled None | rejected => true
  end.

(** The in-flight counter is at most the cap and at most the number of
    batches in flight, and the cluster-id counter is not negative. *)
Definition countersInBounds (s : State) : Prop :=
  (activeClusterRequestsRef (streaming s) <= MAX_ACTIVE_CLUSTER_REQUESTS)%Z
  /\ (activeClusterRequestsRef (streaming s)
      <= Z.of_nat (List.length (pending (world s))))%Z
  /\ (0 <= nextClusterIdCounterRef (streaming s))%Z.

(** [child.userData.isDynamicallyGenerated] read as a condition. *)
Definition isDynamic (c : LineSegments) : bool :=
  flag (isDynamicallyGenerated (userData c)).

(** Every child flagged as dynamically generated has its id in the
    dynamic-id set. *)
Definition dynamicRegistered (group : list LineSegments) (dyn : gset string)
  : Prop :=
  forall c, c ∈ group -> isDynamic c = true -> ud_id (userData c) ∈ dyn.

(** [c] shows the building [b] as a regeneration leaves it: placed and
    shaped by the data of [b], in the city colour, opaque and not flagged
    as dynamically generated. *)
Definition shows (b : CityElementData) (c : LineSegments) : Prop :=
  ud_id (userData c) = el_id b
  /\ seg_position c = placementOf b
  /\ geomShape (geometry c) = edgesShapeOf b
  /\ color (material c) = globalCityColor
  /\ opacity (material c) = 1
  /\ transparent (material c) = false
  /\ isDynamic c = false
  /\ ud_height (userData c) = orElse (height (dimensions b)) 0
  /\ forall r, orientationY b = Some r -> rotation_y c = r.

(** In the state [s] every child flagged as dynamically generated is
    registered in the dynamic-id set. *)
Definition registered (s : State) : Prop :=
  dynamicRegistered (childrenOf s)
    (dynamicallyGeneratedBuildingsRef (streaming s)).

(** [c'] is the object [c] with its geometry, placement and [userData],
    and with the material object and the colour [c] has. *)
Definition sameObject (c c' : LineSegments) : Prop :=
  uuid c' = uuid c
  /\ geometry c' = geometry c
  /\ seg_position c' = seg_position c
  /\ rotation_y c' = rotation_y c
  /\ userData c' = userData c
  /\ matId (material c') = matId (material c)
  /\ color (material c') = color (material c).

(** The render passes a capture makes, by where its render phase stops. *)
Definition passesMade (o : CaptureOutcome) : nat :=
  match throwsAt o with
  | None => 2
  | Some WhiteRendererCreation | Some WhiteRender => 1
  | Some GreenRendererCreation | Some GreenRender => 0
  end.

(** The setup effect runs. *)
Definition isMount (e : Event) : bool :=
  match e with Mount _ _ _ => true | _ => false end.

(** The geometry objects of the children of a group, in order. *)
Definition geometryIds (group : list LineSegments) : list nat :=
  map (fun c => geomId (geometry c)) group.

(** Objects in use are live: the ids in use are pairwise different,
    allocated already and not in the disposal log, and the log only holds
    allocated ids. *)
Definition live (ids : list nat) (next : nat) (log : list nat) : Prop :=
  NoDup ids
  /\ (forall i, i ∈ ids -> (i < next)%nat /\ i ∉ log)
  /\ forall i, i ∈ log -> (i < next)%nat.

(** The children of a group hold live geometries and live materials. *)
Definition liveObjects (group : list LineSegments) (w : World) : Prop :=
  live (geometryIds group) (nextId w) (disposedGeometries w)
  /\ live (childMaterials group) (nextId w) (disposedMaterials w).

(** A value a [Uint8ClampedArray] stores unchanged. *)
Definition isByte (v : Z) : Prop := (0 <= v <= 255)%Z.

(** The pixel of colour [c], opaque. *)
Definition opaquePixel (c : RGB) : Pixel :=
  mkPixel (rgb_r c) (rgb_g c) (rgb_b c) 255.

(** How many elements the entry of one sub-cluster adds to the group. *)
Definition streamedBy (entry : Vector3 * PromiseSettledResult) : nat :=
  match entry.2 with
  | fulfilled (Some newClusterBuildings) => List.length newClusterBuildings
  | _ => 0%nat
  end.


(** The frames [ts] come in the order of their timestamps, none before
    [t]. *)
Fixpoint inTimeOrder (t : Q) (ts : list Q) : Prop :=
  match ts with
  | [] => True
  | t' :: rest => t <= t' /\ inTimeOrder t' rest
  end.

(** The loader while its flash timeout is pending, seen at time [u]: the
    animation runs, or it has stopped at full progress. *)
Definition loaderAt (target : Z) (start duration u : Q) (l : Loader) : Prop :=
  targetPopulationNumberRef l = target
  /\ flashTimeoutPending l = true
  /\ currentPopulationDisplay l
     = loaderCountAt target (loaderProgressAt start duration u)
  /\ ((loaderStartTimeRef l = Some start /\ animationFrameRequested l = true
       /\ loaderProgressAt start duration u < 100)
      \/ (loaderStartTimeRef l = None /\ animationFrameRequested l = false
          /\ loaderProgressAt start duration u == 100)).

(** ** Concrete values for the runs of the model *)

(** The library functions at the arguments the concrete runs use. Every
    frame of those runs is at azimuth 0 or, after two turns to the right,
    at azimuth [Math_PI / 2]: the sine there is 0 and 1, the cosine 1 and
    0. The square root is exact on a fraction of two perfect squares, and
    [trim] removes leading and trailing blanks. *)
Fixpoint trimLeft (s : string) : string :=
  match s with
  | String c rest =>
      if Ascii.eqb c " "%char || Ascii.eqb c "009"%char
         || Ascii.eqb c "010"%char || Ascii.eqb c "013"%char
      then trimLeft rest else s
  | EmptyString => EmptyString
  end.

Definition trimBlanks (s : string) : string :=
  String.rev (trimLeft (String.rev (trimLeft s))).

Definition quarterTurn : Q := (355 # 113) / 4 + (355 # 113) / 4.

Definition rightAngles : JSLib := {|
  Math_sin := fun a => if Qeq_bool a quarterTurn then 1 else 0;
  Math_cos := fun a => if Qeq_bool a quarterTurn then 0 else 1;
  Math_sqrt := fun x =>
    inject_Z (Z.sqrt (Qnum x)) / inject_Z (Z.sqrt (Zpos (Qden x)));
  Math_PI := 355 # 113;
  String_trim := trimBlanks;
|}.

Definition sampleBuildingJSON (i : string) : JSON :=
  JObject [("id", JString i); ("type", JString "building");
           ("shape", JString "box");
           ("position",
            JObject [("x", JNumber 5); ("y", JNumber 0); ("z", JNumber (-7))]);
           ("dimensions",
            JObject [("width", JNumber 10); ("height", JNumber 20);
                     ("depth", JNumber 10)])].

Definition sampleLandscapeJSON : JSON :=
  JObject [("sky", JObject [("topColor", JString "#2c003e");
                            ("horizonColor", JString "#ff00cc")]);
           ("buildings", JArray (repeat (sampleBuildingJSON "bld_1") 25))].

Definition sampleClusterJSON : JSON :=
  JArray (repeat (sampleBuildingJSON "bld_part_001") 5).

Definition emptyAppState : AppState := mkAppState None true None.

(** A box of 10 x 20 x 10 standing at [(x, 0, z)]. *)
Definition sampleBox (i : string) (x z : Q) : CityElementData :=
  mkCityElementData i box (mkVector3 x 0 z)
    (mkDimensions 20 (Some 10) (Some 10) None) None.

Definition sampleLandscape : LandscapeData :=
  mkLandscapeData (mkSkySettings "#2c003e" "#ff00cc")
    [sampleBox "bld_1" 0 0; sampleBox "bld_2" 40 (-30)].

(** The scene right after [Mount 16 9 0]. *)
Definition mountedScene : Scene :=
  mkScene (mkCamera (mkVector3 0.0 300.0 99.4) 60 (16 # 9)) true [].

Definition sixBoxes : list CityElementData :=
  [sampleBox "dyn_c0_a" (-30) (-20); sampleBox "dyn_c0_b" (-10) 15;
   sampleBox "dyn_c0_c" 0 0; sampleBox "dyn_c0_d" 12 (-40);
   sampleBox "dyn_c0_e" 25 30; sampleBox "dyn_c0_f" 50 5].

(** A box as it is right after being streamed in at clock reading 1. *)
Definition streamedBox : LineSegments :=
  mkLineSegments 3 (mkGeometry 1 (BoxEdges 10 20 10))
    (mkMaterial 2 globalCityColor 0.01 true)
    (mkVector3 0 10 (-500.6)) 0
    (mkUserData "dyn_c0_a" 20 (Some true) (Some true) (Some 1)).

(** The scene after [Mount 16 9 0] once its batch has settled, at clock
    reading 1, with one box. *)
Definition streamedScene : Scene :=
  mkScene (mkCamera (mkVector3 0.0 300.0 99.4) 60 (16 # 9)) true
    [mkLineSegments 3 (mkGeometry 1 (BoxEdges 10 20 10))
       (mkMaterial 2 globalCityColor 0.01 true)
       (mkVector3 (0 # 20) (20 # 2) (-10012 # 20)) 0
       (mkUserData "dyn_c0_a" 20 (Some true) (Some true) (Some 1))].

(** A state in which the next frame issues a batch: the first batch has
    settled and the view was turned by a right angle. *)
Definition turnedState : State :=
  @run rightAngles [Mount 16 9 0; Settle 0 [fulfilled None] 1;
                    TurnView dir_right; TurnView dir_right].

(** The batch that frame issues when [Math.random()] yields 1/2. *)
Definition turnedBatch : Batch :=
  mkBatch [mkVector3 (120120 # 200) (60000 # 200) (-25120 # 200);
           mkVector3 (120120 # 200) (60000 # 200) (19880 # 200);
           mkVector3 (120120 # 200) (60000 # 200) (64880 # 200)]
          ["dyn_c1_"; "dyn_c2_"; "dyn_c3_"].

(** A batch of three sub-clusters, the second one centred at
    (100, 0, 200). *)
Definition threeCenters : Batch :=
  mkBatch [mkVector3 (-125) 0 200; mkVector3 100 0 200; mkVector3 325 0 200]
          ["dyn_c0_"; "dyn_c1_"; "dyn_c2_"].



(** * Properties *)

(** ** Reachable states *)

Section Reachable.
Context `{JSLib}.

Lemma run_invariant (P : State -> Prop) :
  P initialState ->
  (forall s e, P s -> P (step s e)) ->
  forall events, P (run events).
Proof.
  intros Hinit Hstep events. unfold run.
  generalize dependent initialState.
  induction events as [|e events IH]; intros s Hs; simpl; auto.
Qed.

(** What [animate] leaves of the input refs. *)
Lemma animate_input t r s :
  input (animate t r s) = input s
  \/ exists a, input (animate t r s) = withAzimuth (input s) a.
Proof.
  unfold animate.
  destruct (scene s) as [sc|]; [|now left].
  destruct (isCapturingRef s); [now left|].
  match goal with
  | |- context [if ?c then _ else _] => destruct c
  end.
  - destruct (subClusters _ _ _ _ _ _) as [[cs ps] k]. right. eauto.
  - right. eauto.
Qed.

Lemma settle_input i results now s : input (settle i results now s) = input s.
Proof.
  unfold settle. destruct (pending (world s) !! i); [|easy].
  destruct (Nat.eqb _ _); [|easy].
  unfold settleBatch. simpl. destruct (scene s); simpl; [|easy].
  now destruct (foldl _ _ _) as [[g d] w].
Qed.

Lemma landscapeEffect_input l s : input (landscapeEffect l s) = input s.
Proof.
  unfold landscapeEffect. destruct (scene s); [|easy].
  destruct (clearDynamic _ _ _) as [[sc1 r1] w1].
  now destruct (reconcileGroup _ _ _ _).
Qed.

Lemma capture_input o now s :
  input (handleCanvasClickAndCapture o now s) = input s.
Proof.
  unfold handleCanvasClickAndCapture. destruct (scene s); [|easy].
  destruct (isCapturingRef s); [easy|].
  now destruct (renderPhase _ _ _ _) as [[sc1 w1] c].
Qed.
End Reachable.

(** ** Field of view *)

Lemma clampFov_range v : fovInRange (clampFov v).
Proof.
  unfold fovInRange, clampFov. split.
  - apply Q.le_max_l.
  - apply Q.max_lub; [unfold MIN_FOV, MAX_FOV; lra | apply Q.le_min_l].
Qed.

Lemma clampFov_inside v : fovInRange v -> clampFov v == v.
Proof.
  intros [Hlo Hhi]. unfold clampFov.
  rewrite (Q.min_r MAX_FOV v) by exact Hhi.
  now apply Q.max_r.
Qed.

Lemma Math_sign_pos d : 0 < d -> Math_sign d = 1.
Proof.
  destruct d as [n p]. unfold Qlt, Math_sign. simpl.
  destruct n; intros; try lia; reflexivity.
Qed.

Lemma Math_sign_neg d : d < 0 -> Math_sign d = -1.
Proof.
  destruct d as [n p]. unfold Qlt, Math_sign. simpl.
  destruct n; intros; try lia; reflexivity.
Qed.

Lemma Math_sign_zero d : d == 0 -> Math_sign d = 0.
Proof.
  destruct d as [n p]. unfold Qeq, Math_sign. simpl.
  destruct n; intros; try lia; reflexivity.
Qed.

Section Fov.
Context `{JSLib}.

Ltac keep_fov :=
  repeat match goal with
         | |- context [match ?x with _ => _ end] => destruct x; simpl
         end;
  auto using clampFov_range.

Lemma step_fovInRange s e :
  fovInRange (cameraFovRef (input s)) ->
  fovInRange (cameraFovRef (input (step s e))).
Proof.
  intros Hs. destruct e; simpl.
  - (* Mount *)
    unfold mount.
    destruct (animate_input 0 random
                (withInput (withScene s (Some (mkScene
                   (mkCamera (mkVector3 0 HIGH_ANGLE_INITIAL_CAMERA_Y
                      HIGH_ANGLE_INITIAL_CAMERA_Z) (cameraFovRef (input s))
                      (clientWidth / Qmax 1 clientHeight)) true [])))
                   (withAzimuth (input s) 0))) as [E|[a E]];
      rewrite E; exact Hs.
  - unfold unmount. destruct (scene s); exact Hs.
  - unfold turnViewDirection. destruct direction; exact Hs.
  - unfold zoomCameraByFactor. keep_fov.
  - unfold handleMouseWheel. keep_fov.
  - unfold mouseMoveHandler, updateNormalizedPointerX. keep_fov.
  - exact Hs.
  - unfold touchStartHandler, updateNormalizedPointerX. simpl. keep_fov.
  - unfold touchMoveHandler, updateNormalizedPointerX. keep_fov.
  - unfold touchEndHandler, updateNormalizedPointerX. simpl. keep_fov.
  - unfold handleKeyDown. destruct key; exact Hs.
  - unfold handleKeyUp. destruct key; exact Hs.
  - unfold handleResize. destruct (scene s); exact Hs.
  - destruct (animate_input elapsedTimeTotal random s) as [E|[a E]];
      rewrite E; exact Hs.
  - rewrite settle_input. exact Hs.
  - rewrite landscapeEffect_input. exact Hs.
  - rewrite capture_input. exact Hs.
Qed.

Lemma reachable_fovInRange events :
  fovInRange (cameraFovRef (input (run events))).
Proof.
  apply (run_invariant (fun s => fovInRange (cameraFovRef (input s)))).
  - unfold fovInRange, MIN_FOV, MAX_FOV. simpl. unfold DEFAULT_FOV. lra.
  - intros s e. apply step_fovInRange.
Qed.
End Fov.

(** C6. Whatever the history of events of the component (mouse-wheel
    events of any delta, pinch gestures of any touch positions,
    [zoomCameraByFactor] commands of any factor, 100 and -100 included, and
    every other event), the target field of view [cameraFovRef] lies in
    [[30, 90]] after every one of them. *)
Theorem fov_always_clamped `{JSLib} (events : list Event) :
  30 <= cameraFovRef (input (run events))
  /\ cameraFovRef (input (run events)) <= 90.
Proof.
  change (fovInRange (cameraFovRef (input (run events)))).
  apply (run_invariant (fun s => fovInRange (cameraFovRef (input s)))).
  - unfold fovInRange, MIN_FOV, MAX_FOV, initialState, DEFAULT_FOV. simpl. lra.
  - intros s e. apply step_fovInRange.
Qed.

(** C10. While the component is mounted, a mouse-wheel event moves the
    target field of view by the fixed step of 2 degrees in the direction of
    the sign of [deltaY], whatever its magnitude, and the result is clamped
    to [[30, 90]]; where the step stays inside the range the change is
    exactly 2, and an event with [deltaY] equal to 0 changes nothing. *)
Theorem wheel_moves_fov_by_fixed_step `{JSLib} (events : list Event)
    (deltaY : Q) :
  is_Some (scene (run events)) ->
  let before := cameraFovRef (input (run events)) in
  let after := cameraFovRef (input (handleMouseWheel deltaY (run events))) in
  (0 < deltaY -> after == clampFov (before + 2))
  /\ (deltaY < 0 -> after == clampFov (before - 2))
  /\ (0 < deltaY -> before + 2 <= 90 -> after == before + 2)
  /\ (deltaY < 0 -> 30 <= before - 2 -> after == before - 2)
  /\ (deltaY == 0 -> after == before).
Proof.
  intros [sc Hsc] before after.
  assert (Hafter : after
                   = clampFov (before + Math_sign deltaY * FOV_STEP)).
  { unfold after, handleMouseWheel. now rewrite Hsc. }
  destruct (reachable_fovInRange events) as [Hlo Hhi].
  fold before in Hlo, Hhi. unfold MIN_FOV, MAX_FOV in Hlo, Hhi.
  assert (Hin : forall v, 30 <= v -> v <= 90 -> clampFov v == v).
  { intros v ? ?. apply clampFov_inside. now split. }
  repeat split; intros Hd; rewrite Hafter.
  - rewrite (Math_sign_pos _ Hd). unfold FOV_STEP, clampFov.
    now rewrite Qmult_1_l.
  - rewrite (Math_sign_neg _ Hd). unfold FOV_STEP, clampFov.
    assert (E : before + -1 * 2 == before - 2) by ring. now rewrite E.
  - intros Hfit. rewrite (Math_sign_pos _ Hd). unfold FOV_STEP.
    rewrite Hin; lra.
  - intros Hfit. rewrite (Math_sign_neg _ Hd). unfold FOV_STEP.
    rewrite Hin; lra.
  - rewrite (Math_sign_zero _ Hd). unfold FOV_STEP.
    rewrite Hin; lra.
Qed.

Lemma wheel_moves_fov_by_fixed_step_witness :
  is_Some (scene (@run rightAngles [Mount 16 9 0]))
  /\ cameraFovRef
       (input (handleMouseWheel 120 (@run rightAngles [Mount 16 9 0])))
     == 60 + 2.
Proof.
  assert (Hm : is_Some (scene (@run rightAngles [Mount 16 9 0]))).
  { vm_compute. eauto. }
  split; [exact Hm|].
  destruct (@wheel_moves_fov_by_fixed_step rightAngles [Mount 16 9 0] 120 Hm)
    as (_ & _ & Hup & _).
  apply Hup; vm_compute; congruence.
Defined.

(** ** Trigger points *)

Lemma withInput_same s : withInput s (input s) = s.
Proof. now destruct s. Qed.

(** The events of the InputController change the input refs only. *)
Lemma input_event_only_input `{JSLib} s e :
  inputEvent e = true -> exists i, step s e = withInput s i.
Proof.
  destruct e; try discriminate; intros _; simpl;
    unfold turnViewDirection, zoomCameraByFactor, handleMouseWheel,
      mouseMoveHandler, mouseLeaveHandler, touchStartHandler,
      touchMoveHandler, touchEndHandler, updateNormalizedPointerX,
      handleKeyDown, handleKeyUp; simpl;
    repeat match goal with
           | |- context [match ?x with _ => _ end] => destruct x; simpl
           end;
    try (exists (input s); now rewrite withInput_same);
    eexists; reflexivity.
Qed.

Lemma distanceToSquared_sym p q :
  distanceToSquared p q == distanceToSquared q p.
Proof. unfold distanceToSquared. simpl. ring. Qed.

Lemma Qltb_false a b : Qltb a b = false -> b <= a.
Proof.
  unfold Qltb. intros E. apply Qle_bool_iff.
  now destruct (Qle_bool b a).
Qed.

Lemma farEnoughFromAllExisting_sound center points :
  farEnoughFromAllExisting center points = true ->
  forall e, In e points ->
    MIN_DISTANCE_BETWEEN_TRIGGER_POINTS * MIN_DISTANCE_BETWEEN_TRIGGER_POINTS
    <= distanceToSquared center e.
Proof.
  induction points as [|p points IH]; simpl; intros Hfar e Hin; [easy|].
  destruct (Qltb _ _) eqn:E; [discriminate|].
  destruct Hin as [->|Hin]; [now apply Qltb_false | now apply IH].
Qed.

Lemma triggerCondition_sound cameraPosition center points :
  triggerCondition cameraPosition center points = true ->
  forall e, In e points ->
    MIN_DISTANCE_BETWEEN_TRIGGER_POINTS * MIN_DISTANCE_BETWEEN_TRIGGER_POINTS
    <= distanceToSquared center e.
Proof.
  destruct points as [|p points]; [easy|].
  apply farEnoughFromAllExisting_sound.
Qed.

Lemma spaced_nil : spaced [].
Proof. intros i j p q _ Hi. now rewrite lookup_nil in Hi. Qed.

Lemma spaced_snoc points center :
  spaced points ->
  (forall e, In e points ->
     MIN_DISTANCE_BETWEEN_TRIGGER_POINTS * MIN_DISTANCE_BETWEEN_TRIGGER_POINTS
     <= distanceToSquared center e) ->
  spaced (points ++ [center]).
Proof.
  intros Hsp Hfar i j p q Hij Hi Hj.
  apply lookup_snoc_Some in Hi as [[Hil Hi]|[Hil <-]];
    apply lookup_snoc_Some in Hj as [[Hjl Hj]|[Hjl <-]].
  - exact (Hsp i j p q Hij Hi Hj).
  - rewrite distanceToSquared_sym. apply Hfar.
    apply list_elem_of_In. eapply list_elem_of_lookup_2. exact Hi.
  - apply Hfar. apply list_elem_of_In. eapply list_elem_of_lookup_2. exact Hj.
  - congruence.
Qed.

Section Triggers.
Context `{JSLib}.

(** What one frame does to the streaming refs and to the batches in
    flight: nothing, or one trigger point, one batch and one unit of the
    counter more, which needs the trigger condition and a counter below
    the cap. *)
Lemma animate_streaming t r s :
  (streaming (animate t r s) = streaming s
   /\ pending (world (animate t r s)) = pending (world s))
  \/ exists cameraPosition center batch counter,
       triggerCondition cameraPosition center
         (generationTriggerPointsRef (streaming s)) = true
       /\ (activeClusterRequestsRef (streaming s)
           < MAX_ACTIVE_CLUSTER_REQUESTS)%Z
       /\ streaming (animate t r s)
          = mkStreamingRefs
              (dynamicallyGeneratedBuildingsRef (streaming s))
              (generationTriggerPointsRef (streaming s) ++ [center])
              (activeClusterRequestsRef (streaming s) + 1)%Z counter
       /\ pending (world (animate t r s)) = pending (world s) ++ [batch].
Proof.
  unfold animate.
  destruct (scene s) as [sc|]; [|now left].
  destruct (isCapturingRef s); [now left|].
  match goal with
  | |- context [if ?c then _ else _] => destruct c eqn:Hc
  end.
  - apply andb_true_iff in Hc as [Htrig Hlt]. apply Z.ltb_lt in Hlt.
    destruct (subClusters _ _ _ _ _ _) as [[cs ps] k] eqn:Hsub.
    right. simpl. eexists _, _, _, _. repeat split; eauto.
  - left. simpl. now destruct (streaming s).
Qed.

Lemma landscapeEffect_streaming l s :
  streaming (landscapeEffect l s) = streaming s
  \/ streaming (landscapeEffect l s) = mkStreamingRefs ∅ [] 0%Z 0%Z.
Proof.
  unfold landscapeEffect. destruct (scene s) as [sc|]; [|now left].
  unfold clearDynamic. destruct (Nat.ltb _ _).
  - destruct (removeWhere _ _ _) as [g w].
    destruct (reconcileGroup _ _ _ _). now right.
  - destruct (reconcileGroup _ _ _ _). now left.
Qed.

Lemma settle_triggers i results now s :
  generationTriggerPointsRef (streaming (settle i results now s))
  = generationTriggerPointsRef (streaming s).
Proof.
  unfold settle. destruct (pending (world s) !! i); [|easy].
  destruct (Nat.eqb _ _); [|easy].
  unfold settleBatch. simpl. destruct (scene s); simpl; [|easy].
  now destruct (foldl _ _ _) as [[g d] w].
Qed.

Lemma capture_streaming o now s :
  streaming (handleCanvasClickAndCapture o now s) = streaming s.
Proof.
  unfold handleCanvasClickAndCapture. destruct (scene s); [|easy].
  destruct (isCapturingRef s); [easy|].
  now destruct (renderPhase _ _ _ _) as [[sc1 w1] c].
Qed.

Lemma animate_spaced t r s :
  spaced (generationTriggerPointsRef (streaming s)) ->
  spaced (generationTriggerPointsRef (streaming (animate t r s))).
Proof.
  intros Hs.
  destruct (animate_streaming t r s)
    as [[E _]|(cam & c & b & k & Htrig & _ & E & _)]; rewrite E; [easy|].
  simpl. apply spaced_snoc; [exact Hs|].
  eapply triggerCondition_sound, Htrig.
Qed.

Lemma step_spaced s e :
  spaced (generationTriggerPointsRef (streaming s)) ->
  spaced (generationTriggerPointsRef (streaming (step s e))).
Proof.
  intros Hs. destruct (inputEvent e) eqn:Ei.
  { destruct (input_event_only_input s e Ei) as [i' ->]. exact Hs. }
  destruct e as [w h r| | | | | | | | | | | |w h|t r|i results now|l|o now];
    try discriminate; simpl.
  - unfold mount. now apply animate_spaced.
  - unfold unmount. destruct (scene s); exact Hs.
  - unfold handleResize. destruct (scene s); exact Hs.
  - now apply animate_spaced.
  - now rewrite settle_triggers.
  - destruct (landscapeEffect_streaming l s) as [->| ->];
      [exact Hs | apply spaced_nil].
  - now rewrite capture_streaming.
Qed.
End Triggers.

(** C4. In every reachable state of the component, any two trigger points
    recorded at different positions of the list are at least 300 world
    units apart: the square of their distance is at least 300 * 300. The
    list is only ever extended by the per-frame trigger decision, and
    emptied by a regeneration. *)
Theorem trigger_points_keep_their_distance `{JSLib} (events : list Event)
    (i j : nat) (p q : Vector3) :
  i <> j ->
  generationTriggerPointsRef (streaming (run events)) !! i = Some p ->
  generationTriggerPointsRef (streaming (run events)) !! j = Some q ->
  300 * 300 <= distanceToSquared p q.
Proof.
  revert i j p q.
  change (spaced (generationTriggerPointsRef (streaming (run events)))).
  apply (run_invariant
           (fun s => spaced (generationTriggerPointsRef (streaming s)))).
  - apply spaced_nil.
  - intros s e. apply step_spaced.
Qed.

Lemma trigger_points_keep_their_distance_witness :
  let events := [Mount 16 9 0; Settle 0 [fulfilled None] 1;
                 TurnView dir_right; TurnView dir_right; Frame 2 0] in
  let p := mkVector3 0.0 300.0 (-500.6) in
  let q := mkVector3 600.60 300.00 99.40 in
  0%nat <> 1%nat
  /\ generationTriggerPointsRef (streaming (@run rightAngles events)) !! 0%nat
     = Some p
  /\ generationTriggerPointsRef (streaming (@run rightAngles events)) !! 1%nat
     = Some q
  /\ 300 * 300 <= distanceToSquared p q.
Proof.
  intros events p q.
  assert (Hne : 0%nat <> 1%nat) by lia.
  assert (Hp : generationTriggerPointsRef
                 (streaming (@run rightAngles events)) !! 0%nat = Some p)
    by (vm_compute; reflexivity).
  assert (Hq : generationTriggerPointsRef
                 (streaming (@run rightAngles events)) !! 1%nat = Some q)
    by (vm_compute; reflexivity).
  repeat split; try assumption.
  exact (@trigger_points_keep_their_distance rightAngles events 0%nat 1%nat
           p q Hne Hp Hq).
Defined.

(** ** Validation of generated content *)

Lemma typeof_string v :
  JSType_eqb (typeof v) t_string = true -> exists s, v = Some (JString s).
Proof.
  destruct v as [[| | | s | |]|]; simpl; try discriminate. eauto.
Qed.

Section AppProperties.
Context `{JSLib}.

Lemma landscapeCondition_true parsedData :
  landscapeCondition parsedData = true ->
  exists skyValue top horizon bs,
    get (Some parsedData) "sky" = Some skyValue
    /\ get (Some skyValue) "topColor" = Some (JString top)
    /\ get (Some skyValue) "horizonColor" = Some (JString horizon)
    /\ get (Some parsedData) "buildings" = Some (JArray bs)
    /\ (25 <= List.length bs <= 50)%nat
    /\ Forall (fun b => isValidBuildingElement b = true) bs.
Proof.
  unfold landscapeCondition. intros Hc.
  assert (Hc' :
    truthyJ (get (Some parsedData) "sky")
    && JSType_eqb (typeof (get (get (Some parsedData) "sky") "topColor"))
         t_string
    && JSType_eqb (typeof (get (get (Some parsedData) "sky") "horizonColor"))
         t_string
    && match get (Some parsedData) "buildings" with
       | Some (JArray bs) =>
           Nat.leb minBuildings (List.length bs)
           && Nat.leb (List.length bs) maxBuildings
           && forallb isValidBuildingElement bs
       | _ => false
       end = true) by (destruct parsedData; congruence).
  clear Hc.
  apply andb_true_iff in Hc' as [Hc' Hb].
  apply andb_true_iff in Hc' as [Hc' Hh].
  apply andb_true_iff in Hc' as [Hsky Ht].
  destruct (get (Some parsedData) "sky") as [skyValue|] eqn:Esky;
    [|discriminate].
  apply typeof_string in Ht as [top Ht].
  apply typeof_string in Hh as [horizon Hh].
  destruct (get (Some parsedData) "buildings") as [[| | | | bs |]|] eqn:Eb;
    try discriminate.
  apply andb_true_iff in Hb as [Hb Hall].
  apply andb_true_iff in Hb as [Hmin Hmax].
  apply Nat.leb_le in Hmin, Hmax. unfold minBuildings, maxBuildings in *.
  exists skyValue, top, horizon, bs. repeat split; auto.
  apply Forall_forall. intros b Hb. apply list_elem_of_In in Hb.
  rewrite forallb_forall in Hall. auto.
Qed.
End AppProperties.

Lemma notPositiveNumber_false v :
  notPositiveNumber v = false -> exists n, v = Some (JNumber n) /\ 0 < n.
Proof.
  destruct v as [[| |n| | |]|]; simpl; try discriminate.
  intros E. exists n. split; [reflexivity|].
  apply Qnot_le_lt. intros Hle. apply Qle_bool_iff in Hle. congruence.
Qed.

Lemma typeof_number v :
  JSType_eqb (typeof v) t_number = true -> exists n, v = Some (JNumber n).
Proof. destruct v as [[| |n| | |]|]; simpl; try discriminate. eauto. Qed.

Lemma isStringLit_true v lit : isStringLit v lit = true -> v = Some (JString lit).
Proof.
  destruct v as [[| | |s| |]|]; simpl; try discriminate.
  intros E. apply String.eqb_eq in E. now subst.
Qed.

(** One guard of [isValidBuildingElement] that did not reject. *)
Ltac pass_check E :=
  match goal with
  | |- (if ?c then false else _) = true -> _ =>
      destruct c eqn:E; [discriminate|]
  end.

(** What the validation guarantees of an element, in the typed view: a
    non-blank id, a ground position, a positive height and the positive
    dimensions its shape asks for. *)
Lemma isValidBuildingElement_asCityElementData `{JSLib} el :
  isValidBuildingElement el = true ->
  exists d,
    asCityElementData el = Some d
    /\ String_trim (el_id d) <> ""%string
    /\ vy (position d) == 0
    /\ 0 < height (dimensions d)
    /\ match shape d with
       | box => exists w dp, width (dimensions d) = Some w
                             /\ depth (dimensions d) = Some dp
                             /\ 0 < w /\ 0 < dp
       | cylinder => exists r, radius (dimensions d) = Some r /\ 0 < r
       end.
Proof.
  unfold isValidBuildingElement. cbv zeta.
  pass_check Eobj. pass_check Eid. pass_check Etype. pass_check Eshape. pass_check Epos. pass_check Exyz.
  pass_check Ey. pass_check Edims. pass_check Eh. pass_check Ewdr. pass_check Eor. intros _.
  apply orb_false_iff in Eid as [Eid Etrim].
  apply negb_false_iff, typeof_string in Eid as [i Hi].
  rewrite Hi in Etrim.
  apply orb_false_iff in Exyz as [Exy Ez].
  apply orb_false_iff in Exy as [Ex Ey'].
  apply negb_false_iff, typeof_number in Ex as [x Hx].
  apply negb_false_iff, typeof_number in Ey' as [y Hy].
  apply negb_false_iff, typeof_number in Ez as [z Hz].
  rewrite Hy in Ey. apply negb_false_iff, Qeq_bool_iff in Ey.
  apply notPositiveNumber_false in Eh as (h & Hh & Hpos).
  unfold asCityElementData. rewrite Hi, Hx, Hy, Hz, Hh. cbn [asNumber].
  eexists. split; [reflexivity|]. cbn [el_id position dimensions shape vy
    height width depth radius].
  split; [now apply String.eqb_neq|]. split; [exact Ey|].
  split; [exact Hpos|].
  destruct (isStringLit (get (Some el) "shape") "box") eqn:Ebox.
  - apply orb_false_iff in Ewdr as [Ew Ed].
    apply notPositiveNumber_false in Ew as (w & -> & Hw).
    apply notPositiveNumber_false in Ed as (dp & -> & Hd).
    exists w, dp. repeat split; auto.
  - cbn [negb andb] in Eshape. apply negb_false_iff in Eshape.
    rewrite Eshape in Ewdr.
    apply notPositiveNumber_false in Ewdr as (r & -> & Hr).
    exists r. split; [reflexivity | exact Hr].
Qed.

(** C7. A result of the landscape request is accepted, that is stored as
    [landscapeData], only if the text parsed as JSON, has a [sky] with two
    strings [topColor] and [horizonColor], and a [buildings] array of 25 to
    50 elements that all pass [isValidBuildingElement]; what is stored is
    then the parsed value as a whole, with no error. Every other outcome
    stores [null] and an error message. A result of the cluster request is
    accepted only if it parsed as an array of 5 to 8 elements that all pass
    the validation, and the value returned is that whole array with the id
    prefix applied; every other outcome returns [null]. *)
Theorem generated_content_is_accepted_whole_or_rejected `{JSLib}
    (apiKey : bool) (r : ApiResponse) (s : AppState) (prefix : string) :
  (forall parsedData,
      landscapeData (generateNewLandscape apiKey r s) = Some parsedData ->
      exists jsonStr skyValue top horizon bs,
        r = ApiText jsonStr (Some parsedData)
        /\ get (Some parsedData) "sky" = Some skyValue
        /\ get (Some skyValue) "topColor" = Some (JString top)
        /\ get (Some skyValue) "horizonColor" = Some (JString horizon)
        /\ get (Some parsedData) "buildings" = Some (JArray bs)
        /\ (25 <= List.length bs <= 50)%nat
        /\ Forall (fun b => isValidBuildingElement b = true) bs
        /\ error (generateNewLandscape apiKey r s) = None)
  /\ (landscapeData (generateNewLandscape apiKey r s) = None ->
      exists message, error (generateNewLandscape apiKey r s) = Some message)
  /\ (forall cluster,
      generateBuildingCluster apiKey prefix r = Some cluster ->
      exists jsonStr bs,
        r = ApiText jsonStr (Some (JArray bs))
        /\ (5 <= List.length bs <= 8)%nat
        /\ Forall (fun b => isValidBuildingElement b = true) bs
        /\ cluster = map (prefixId prefix) bs).
Proof.
  repeat split.
  - intros parsedData. unfold generateNewLandscape.
    destruct apiKey; simpl; [|discriminate].
    destruct r as [m|jsonStr [parsed|]]; simpl; try discriminate.
    destruct (landscapeCondition parsed) eqn:Hc; simpl; [|discriminate].
    intros [= <-].
    destruct (landscapeCondition_true _ Hc)
      as (skyValue & top & horizon & bs & ? & ? & ? & ? & ? & ?).
    exists jsonStr, skyValue, top, horizon, bs. repeat split; auto; lia.
  - unfold generateNewLandscape.
    destruct apiKey; simpl; [|eauto].
    destruct r as [m|jsonStr [parsed|]]; simpl; eauto.
    destruct (landscapeCondition parsed); simpl; [discriminate|eauto].
  - intros cluster. unfold generateBuildingCluster, negb.
    destruct apiKey; [|discriminate].
    destruct r as [m|jsonStr [[| | | | bs |]|]]; try discriminate.
    destruct (Nat.leb 5 (List.length bs) && Nat.leb (List.length bs) 8
              && forallb isValidBuildingElement bs) eqn:Hc;
      [|discriminate].
    intros [= <-].
    apply andb_true_iff in Hc as [Hc Hall].
    apply andb_true_iff in Hc as [Hmin Hmax].
    apply Nat.leb_le in Hmin, Hmax.
    exists jsonStr, bs. repeat split; auto.
    apply Forall_forall. intros b Hb. apply list_elem_of_In in Hb.
    rewrite forallb_forall in Hall. auto.
Qed.

Lemma generated_content_is_accepted_whole_or_rejected_witness :
  landscapeData
    (@generateNewLandscape rightAngles true
       (ApiText "{}" (Some sampleLandscapeJSON)) emptyAppState)
  = Some sampleLandscapeJSON
  /\ error
       (@generateNewLandscape rightAngles true
          (ApiText "{}" (Some sampleLandscapeJSON)) emptyAppState)
     = None
  /\ @generateBuildingCluster rightAngles true "dyn_c0_"
       (ApiText "[]" (Some sampleClusterJSON))
     = Some (map (prefixId "dyn_c0_")
               (repeat (sampleBuildingJSON "bld_part_001") 5)).
Proof.
  destruct (@generated_content_is_accepted_whole_or_rejected rightAngles true
              (ApiText "{}" (Some sampleLandscapeJSON)) emptyAppState
              "dyn_c0_") as (Haccepted & _ & _).
  destruct (@generated_content_is_accepted_whole_or_rejected rightAngles true
              (ApiText "[]" (Some sampleClusterJSON)) emptyAppState
              "dyn_c0_") as (_ & _ & Hcluster).
  assert (Hl : landscapeData
                 (@generateNewLandscape rightAngles true
                    (ApiText "{}" (Some sampleLandscapeJSON)) emptyAppState)
               = Some sampleLandscapeJSON) by (vm_compute; reflexivity).
  split; [exact Hl|]. split.
  - destruct (Haccepted _ Hl) as (? & ? & ? & ? & ? & _ & _ & _ & _ & _ & _ & _ & He).
    exact He.
  - assert (Hc : @generateBuildingCluster rightAngles true "dyn_c0_"
                   (ApiText "[]" (Some sampleClusterJSON))
                 = Some (map (prefixId "dyn_c0_")
                           (repeat (sampleBuildingJSON "bld_part_001") 5)))
      by (vm_compute; reflexivity).
    destruct (Hcluster _ Hc) as (? & bs & Hr & _ & _ & Hm).
    injection Hr as _ <-. exact Hc.
Defined.

(** ** Snapshot capture *)

Section Capture.
Context `{JSLib}.

Lemma animate_capturing t r s :
  isCapturingRef (animate t r s) = isCapturingRef s.
Proof.
  unfold animate. destruct (scene s); [|easy].
  destruct (isCapturingRef s) eqn:E; [easy|].
  match goal with
  | |- context [if ?c then _ else _] => destruct c
  end; [|easy].
  now destruct (subClusters _ _ _ _ _ _) as [[cs ps] k].
Qed.

Lemma settle_capturing i results now s :
  isCapturingRef (settle i results now s) = isCapturingRef s.
Proof.
  unfold settle. destruct (pending (world s) !! i); [|easy].
  destruct (Nat.eqb _ _); [|easy].
  unfold settleBatch. simpl. destruct (scene s); simpl; [|easy].
  now destruct (foldl _ _ _) as [[g d] w].
Qed.

Lemma landscapeEffect_capturing l s :
  isCapturingRef (landscapeEffect l s) = isCapturingRef s.
Proof.
  unfold landscapeEffect. destruct (scene s); [|easy].
  destruct (clearDynamic _ _ _) as [[sc1 r1] w1].
  now destruct (reconcileGroup _ _ _ _).
Qed.

Lemma capture_clears_flag o now s :
  isCapturingRef s = false ->
  isCapturingRef (handleCanvasClickAndCapture o now s) = false.
Proof.
  intros Hs. unfold handleCanvasClickAndCapture.
  destruct (scene s); [|exact Hs]. rewrite Hs.
  now destruct (renderPhase _ _ _ _) as [[sc1 w1] c].
Qed.

Lemma step_capturing s e :
  isCapturingRef s = false -> isCapturingRef (step s e) = false.
Proof.
  intros Hs. destruct (inputEvent e) eqn:Ei.
  { destruct (input_event_only_input s e Ei) as [i' ->]. exact Hs. }
  destruct e as [w h r| | | | | | | | | | | |w h|t r|i results now|l|o now];
    try discriminate; simpl.
  - unfold mount. now rewrite animate_capturing.
  - unfold unmount. destruct (scene s); exact Hs.
  - unfold handleResize. destruct (scene s); exact Hs.
  - now rewrite animate_capturing.
  - now rewrite settle_capturing.
  - now rewrite landscapeEffect_capturing.
  - now apply capture_clears_flag.
Qed.
End Capture.

(** C8. A capture invoked while the capture-in-progress flag is set is a
    no-op: the state it returns is the state it was given, so no collaborator
    is notified and no render pass is made. A capture invoked with the flag
    clear notifies once, makes at most two render passes, and returns with
    the flag clear wherever the render phase throws, if it does. The flag is
    therefore clear in every reachable state. *)
Theorem capture_is_guarded_and_never_stuck `{JSLib} (o : CaptureOutcome)
    (now : Q) (s : State) (events : list Event) :
  (isCapturingRef s = true -> handleCanvasClickAndCapture o now s = s)
  /\ (isCapturingRef s = false ->
      isCapturingRef (handleCanvasClickAndCapture o now s) = false
      /\ (is_Some (scene s) ->
          screenshotsInitiated (world (handleCanvasClickAndCapture o now s))
          = S (screenshotsInitiated (world s))
          /\ (renderPasses (world (handleCanvasClickAndCapture o now s))
              <= renderPasses (world s) + 2)%nat))
  /\ isCapturingRef (run events) = false.
Proof.
  split; [|split].
  - intros Hs. unfold handleCanvasClickAndCapture.
    destruct (scene s); [|easy]. now rewrite Hs.
  - intros Hs. split; [now apply capture_clears_flag|].
    intros [sc Hsc]. unfold handleCanvasClickAndCapture. rewrite Hsc, Hs.
    unfold renderPhase.
    repeat match goal with
           | |- context [if ?c then _ else _] => destruct c
           end; simpl; split; auto; lia.
  - apply (run_invariant (fun s => isCapturingRef s = false)); [easy|].
    intros s' e. apply step_capturing.
Qed.

Lemma capture_is_guarded_and_never_stuck_witness :
  let busy := withCapturing (@run rightAngles [Mount 16 9 0]) true in
  let idle := @run rightAngles [Mount 16 9 0] in
  let throwing := mkCaptureOutcome (Some WhiteRender) true true in
  isCapturingRef busy = true
  /\ handleCanvasClickAndCapture throwing 1 busy = busy
  /\ isCapturingRef idle = false
  /\ isCapturingRef (handleCanvasClickAndCapture throwing 1 idle) = false.
Proof.
  intros busy idle throwing.
  assert (Hb : isCapturingRef busy = true) by reflexivity.
  assert (Hi : isCapturingRef idle = false) by (vm_compute; reflexivity).
  destruct (@capture_is_guarded_and_never_stuck rightAngles throwing 1 busy [])
    as (Hguard & _ & _).
  destruct (@capture_is_guarded_and_never_stuck rightAngles throwing 1 idle [])
    as (_ & Hclear & _).
  split; [exact Hb|]. split; [exact (Hguard Hb)|].
  split; [exact Hi|]. exact (proj1 (Hclear Hi)).
Defined.

(** ** Merging a cluster *)

Lemma foldl_addClusterBuilding now center bs :
  forall group dyn w,
  exists news w',
    foldl (addClusterBuilding now center) (group, dyn, w) bs
    = (group ++ news, list_to_set (map el_id bs) ∪ dyn, w')
    /\ Forall2 (streamedFrom now center) bs news
    /\ Forall (fun e => (nextId w <= uuid e)%nat) news
    /\ (nextId w <= nextId w')%nat.
Proof.
  induction bs as [|b bs IH]; intros group dyn w.
  - exists [], w. simpl. rewrite app_nil_r.
    repeat split; auto. f_equal. f_equal. symmetry. apply (left_id_L ∅ (∪)).
  - simpl.
    destruct (IH (group ++ [(createOrUpdateLineSegments
                               (mkCityElementData (el_id b) (shape b)
                                  (mkVector3 (vx (position b) + vx center)
                                     (vy (position b))
                                     (vz (position b) + vz center))
                                  (dimensions b) (orientationY b))
                               None true (Some now) w).1])
                 ({[ el_id b ]} ∪ dyn)
                 (createOrUpdateLineSegments
                    (mkCityElementData (el_id b) (shape b)
                       (mkVector3 (vx (position b) + vx center)
                          (vy (position b))
                          (vz (position b) + vz center))
                       (dimensions b) (orientationY b))
                    None true (Some now) w).2)
      as (news & w' & Hfold & Hnews & Hfresh & Hnext).
    eexists (_ :: news), w'. split; [|split; [|split]].
    + unfold createOrUpdateLineSegments, buildEdges in *. simpl in *.
      rewrite Hfold. rewrite <- app_assoc. simpl.
      f_equal. f_equal.
      rewrite (assoc_L (∪)). f_equal. apply (comm_L (∪)).
    + constructor; [|exact Hnews].
      unfold streamedFrom, createOrUpdateLineSegments, buildEdges,
        placementOf. simpl. repeat split; reflexivity.
    + constructor.
      * unfold createOrUpdateLineSegments, buildEdges. simpl. lia.
      * eapply Forall_impl; [exact Hfresh|].
        unfold createOrUpdateLineSegments, buildEdges. simpl.
        intros e He. lia.
    + unfold createOrUpdateLineSegments, buildEdges in Hnext. simpl in Hnext.
      lia.
Qed.

(** What the continuation appends for a list of results: as many
    elements as the fulfilled requests returned. *)
Lemma foldl_applyResult_appends now entries : forall group dyn w,
  exists news dyn' w',
    foldl (applyResult now) (group, dyn, w) entries = (group ++ news, dyn', w')
    /\ List.length news = sum_list (map streamedBy entries)
    /\ dyn ⊆ dyn'
    /\ (nextId w <= nextId w')%nat.
Proof.
  induction entries as [|[center result] entries IH]; intros group dyn w.
  - exists [], dyn, w. cbn [foldl]. rewrite app_nil_r.
    repeat split; [reflexivity | lia].
  - cbn [foldl map sum_list].
    assert (Hone : exists news dyn' w',
               applyResult now (group, dyn, w) (center, result)
               = (group ++ news, dyn', w')
               /\ List.length news = streamedBy (center, result)
               /\ dyn ⊆ dyn' /\ (nextId w <= nextId w')%nat).
    { destruct result as [[bs|]|]; cbn [applyResult streamedBy snd].
      - destruct (foldl_addClusterBuilding now center bs group dyn w)
          as (news & w' & -> & Hnews & _ & Hnext).
        exists news, (list_to_set (map el_id bs) ∪ dyn), w'.
        repeat split; [| apply union_subseteq_r | exact Hnext].
        symmetry. exact (Forall2_length _ _ _ Hnews).
      - exists [], dyn, w. rewrite app_nil_r. repeat split; [reflexivity | lia].
      - exists [], dyn, w. rewrite app_nil_r. repeat split; [reflexivity | lia]. }
    destruct Hone as (n1 & d1 & w1 & -> & Hl1 & Hd1 & Hw1).
    destruct (IH (group ++ n1) d1 w1) as (n2 & d2 & w2 & -> & Hl2 & Hd2 & Hw2).
    exists (n1 ++ n2), d2, w2. rewrite <- app_assoc.
    repeat split.
    + rewrite length_app, Hl1, Hl2. reflexivity.
    + set_solver.
    + lia.
Qed.

(** C9. When the continuation of a batch runs on a mounted scene and the
    request of one of its sub-clusters, the one whose target centre is
    (100, 0, 200), resolved with 6 elements, exactly 6 new WorldElements
    are appended to the city group for it, in order, after those of the
    sub-clusters before it and before those of the sub-clusters after it,
    whatever the number and the outcomes of the other requests. Each of
    the 6 is a fresh object carrying the id of its element, is tagged
    dynamic and appearing with the clock reading as creation time and
    starts at opacity 0.01; its id is in the dynamic-id set; and it stands
    where the element would stand in cluster-local coordinates, moved by
    (100, 0, 200), the centre at the index of its own request. *)
Theorem cluster_at_100_0_200_streams_six_elements (s : State) (sc : Scene)
    (batch : Batch) (results : list PromiseSettledResult) (index : nat)
    (bs : list CityElementData) (now : Q) :
  scene s = Some sc ->
  targetCenters batch !! index = Some (mkVector3 100 0 200) ->
  results !! index = Some (fulfilled (Some bs)) ->
  List.length bs = 6%nat ->
  let s' := settleBatch batch results now s in
  let entries := zip (targetCenters batch) results in
  exists before news after,
    option_map children (scene s')
    = Some (children sc ++ before ++ news ++ after)
    /\ List.length before = sum_list (map streamedBy (take index entries))
    /\ List.length after = sum_list (map streamedBy (drop (S index) entries))
    /\ List.length news = 6%nat
    /\ forall k b, bs !! k = Some b ->
         exists e,
           news !! k = Some e
           /\ (nextId (world s) <= uuid e)%nat
           /\ ud_id (userData e) = el_id b
           /\ isDynamicallyGenerated (userData e) = Some true
           /\ isAppearing (userData e) = Some true
           /\ creationTime (userData e) = Some now
           /\ opacity (material e) = 0.01
           /\ el_id b ∈ dynamicallyGeneratedBuildingsRef (streaming s')
           /\ vx (seg_position e) = vx (placementOf b) + 100
           /\ vy (seg_position e) = vy (placementOf b)
           /\ vz (seg_position e) = vz (placementOf b) + 200.
Proof.
  intros Hsc Hcenter Hresult Hlen s' entries.
  assert (Hentry : entries !! index
                   = Some (mkVector3 100 0 200, fulfilled (Some bs))).
  { unfold entries. rewrite lookup_zip_with, Hcenter. simpl.
    rewrite Hresult. reflexivity. }
  assert (Hsplit : entries
                   = take index entries
                     ++ [(mkVector3 100 0 200, fulfilled (Some bs))]
                     ++ drop (S index) entries).
  { symmetry. apply take_drop_middle. exact Hentry. }
  destruct (foldl_applyResult_appends now (take index entries) (children sc)
              (dynamicallyGeneratedBuildingsRef (streaming s)) (world s))
    as (before & d1 & w1 & Hfold1 & Hl1 & _ & Hw1).
  destruct (foldl_addClusterBuilding now (mkVector3 100 0 200) bs
              (children sc ++ before) d1 w1)
    as (news & w2 & Hfold2 & Hnews & Hfresh & _).
  destruct (foldl_applyResult_appends now (drop (S index) entries)
              ((children sc ++ before) ++ news)
              (list_to_set (map el_id bs) ∪ d1) w2)
    as (after & d3 & w3 & Hfold3 & Hl3 & Hd3 & _).
  assert (Hfold : foldl (applyResult now)
                    (children sc,
                     dynamicallyGeneratedBuildingsRef (streaming s), world s)
                    entries
                  = (children sc ++ before ++ news ++ after, d3, w3)).
  { rewrite Hsplit, !foldl_app, Hfold1. cbn [foldl applyResult].
    rewrite Hfold2, Hfold3, <- !app_assoc. reflexivity. }
  assert (Hs' : s' = mkState
                       (Some (mkScene (camera sc) (skyVisible sc)
                                (children sc ++ before ++ news ++ after)))
                       (isCapturingRef s) (input s)
                       (mkStreamingRefs d3
                          (generationTriggerPointsRef (streaming s))
                          (activeClusterRequestsRef (streaming s) - 1)%Z
                          (nextClusterIdCounterRef (streaming s)))
                       w3).
  { unfold s', settleBatch. rewrite Hsc. fold entries. rewrite Hfold.
    reflexivity. }
  exists before, news, after. rewrite Hs'. simpl.
  split; [reflexivity|]. split; [exact Hl1|]. split; [exact Hl3|]. split.
  - rewrite <- (Forall2_length _ _ _ Hnews). exact Hlen.
  - intros k b Hk.
    destruct (Forall2_lookup_l _ _ _ _ _ Hnews Hk) as (e & He & Hrel).
    destruct Hrel as (Hid & Hdyn & Happ & Hct & Hop & _ & Hx & Hy & Hz).
    exists e. repeat split; auto.
    + rewrite Forall_forall in Hfresh.
      pose proof (Hfresh e (list_elem_of_lookup_2 _ _ _ He)). lia.
    + apply Hd3, elem_of_union_l, elem_of_list_to_set, list_elem_of_fmap.
      exists b. split; [reflexivity|]. eapply list_elem_of_lookup_2. exact Hk.
Qed.

Lemma cluster_at_100_0_200_streams_six_elements_witness :
  let s := @run rightAngles [Mount 16 9 0] in
  let results := [fulfilled (Some [sampleBox "dyn_c0_a" 0 0]);
                  fulfilled (Some sixBoxes); rejected] in
  scene s = Some mountedScene
  /\ targetCenters threeCenters !! 1%nat = Some (mkVector3 100 0 200)
  /\ results !! 1%nat = Some (fulfilled (Some sixBoxes))
  /\ List.length sixBoxes = 6%nat
  /\ exists before news after,
       option_map children (scene (settleBatch threeCenters results 1 s))
       = Some (children mountedScene ++ before ++ news ++ after)
       /\ List.length before = 1%nat
       /\ List.length after = 0%nat
       /\ List.length news = 6%nat.
Proof.
  intros s results.
  assert (Hsc : scene s = Some mountedScene) by (vm_compute; reflexivity).
  assert (Hc : targetCenters threeCenters !! 1%nat
               = Some (mkVector3 100 0 200)) by reflexivity.
  assert (Hr : results !! 1%nat = Some (fulfilled (Some sixBoxes)))
    by reflexivity.
  assert (Hlen : List.length sixBoxes = 6%nat) by reflexivity.
  split; [exact Hsc|]. split; [exact Hc|]. split; [exact Hr|].
  split; [exact Hlen|].
  destruct (cluster_at_100_0_200_streams_six_elements s mountedScene
              threeCenters results 1 sixBoxes 1 Hsc Hc Hr Hlen)
    as (before & news & after & Hg & Hb & Ha & Hn & _).
  exists before, news, after.
  split; [exact Hg|]. split; [exact Hb|]. split; [exact Ha | exact Hn].
Defined.

(** ** Fade-in *)

Lemma fadeIn_appearing T e created :
  flag (isDynamicallyGenerated (userData e)) = true ->
  flag (isAppearing (userData e)) = true ->
  creationTime (userData e) = Some created ->
  fadeIn T e
  = let newOpacity := Qmin 1 ((T - created) / FADE_IN_DURATION) in
    let e1 := withMaterial e
                (withOpacity (material e) newOpacity
                   (transparent (material e))) in
    if Qle_bool 1 newOpacity
    then withUserData e1
           (mkUserData (ud_id (userData e)) (ud_height (userData e))
              (isDynamicallyGenerated (userData e)) (Some false)
              (creationTime (userData e)))
    else e1.
Proof. intros Hd Ha Hc. unfold fadeIn. now rewrite Hd, Ha, Hc. Qed.

Lemma fadeIn_settled T e :
  flag (isAppearing (userData e)) = false -> fadeIn T e = e.
Proof.
  intros Ha. unfold fadeIn. rewrite Ha. now rewrite andb_false_r.
Qed.

Lemma ramp_monotone created T1 T2 :
  T1 <= T2 ->
  Qmin 1 ((T1 - created) / FADE_IN_DURATION)
  <= Qmin 1 ((T2 - created) / FADE_IN_DURATION).
Proof.
  intros Hle. apply Q.min_le_compat_l.
  unfold Qdiv. apply Qmult_le_compat_r; [lra|].
  unfold FADE_IN_DURATION. apply Qlt_le_weak. reflexivity.
Qed.

Lemma fadeIn_opacity T e created :
  flag (isDynamicallyGenerated (userData e)) = true ->
  flag (isAppearing (userData e)) = true ->
  creationTime (userData e) = Some created ->
  opacity (material (fadeIn T e)) = Qmin 1 ((T - created) / FADE_IN_DURATION).
Proof.
  intros Hd Ha Hc. rewrite (fadeIn_appearing T e created Hd Ha Hc). simpl.
  now destruct (Qle_bool _ _).
Qed.

Lemma fadeIn_reaches_one T e created :
  flag (isDynamicallyGenerated (userData e)) = true ->
  flag (isAppearing (userData e)) = true ->
  creationTime (userData e) = Some created ->
  1 <= Qmin 1 ((T - created) / FADE_IN_DURATION) ->
  isAppearing (userData (fadeIn T e)) = Some false.
Proof.
  intros Hd Ha Hc Hge. rewrite (fadeIn_appearing T e created Hd Ha Hc). simpl.
  apply Qle_bool_iff in Hge. now rewrite Hge.
Qed.

Lemma fadeIn_below_one T e created :
  flag (isDynamicallyGenerated (userData e)) = true ->
  flag (isAppearing (userData e)) = true ->
  creationTime (userData e) = Some created ->
  Qmin 1 ((T - created) / FADE_IN_DURATION) < 1 ->
  userData (fadeIn T e) = userData e.
Proof.
  intros Hd Ha Hc Hlt. rewrite (fadeIn_appearing T e created Hd Ha Hc). simpl.
  destruct (Qle_bool _ _) eqn:E; [|reflexivity].
  apply Qle_bool_iff in E. lra.
Qed.

Lemma animate_children `{JSLib} t r s sc :
  scene s = Some sc ->
  isCapturingRef s = false ->
  childrenOf (animate t r s) = map (fadeIn t) (children sc).
Proof.
  intros Hsc Hcap. unfold childrenOf, animate. rewrite Hsc, Hcap.
  match goal with
  | |- context [if ?c then _ else _] => destruct c
  end; [|reflexivity].
  now destruct (subClusters _ _ _ _ _ _) as [[cs ps] k].
Qed.

(** C5, as the code has it. Each frame ages every child of the group with
    [fadeIn]. For a child flagged dynamic and appearing, the pass at clock
    reading [T1] sets the opacity to [min(1, (T1 - created) / 0.35)]; a later
    pass at [T2 >= T1] never lowers it and never takes it above 1; the
    appearing flag is cleared by the pass that reaches 1 and stays set
    before; and a child whose flag is clear is returned unchanged by every
    later pass, so it never appears again. *)
Theorem fade_in_ramp_of_aging_passes `{JSLib} (e : LineSegments)
    (created T1 T2 : Q) :
  flag (isDynamicallyGenerated (userData e)) = true ->
  flag (isAppearing (userData e)) = true ->
  creationTime (userData e) = Some created ->
  T1 <= T2 ->
  (forall s sc t r,
      scene s = Some sc -> isCapturingRef s = false ->
      childrenOf (animate t r s) = map (fadeIn t) (children sc))
  /\ opacity (material (fadeIn T1 e))
     = Qmin 1 ((T1 - created) / FADE_IN_DURATION)
  /\ opacity (material (fadeIn T1 e))
     <= opacity (material (fadeIn T2 (fadeIn T1 e)))
  /\ opacity (material (fadeIn T2 (fadeIn T1 e))) <= 1
  /\ (1 <= opacity (material (fadeIn T1 e)) ->
      isAppearing (userData (fadeIn T1 e)) = Some false)
  /\ (opacity (material (fadeIn T1 e)) < 1 ->
      isAppearing (userData (fadeIn T1 e)) = isAppearing (userData e))
  /\ (forall e' T,
      flag (isAppearing (userData e')) = false -> fadeIn T e' = e').
Proof.
  intros Hd Ha Hc Hle.
  pose proof (fadeIn_opacity T1 e created Hd Ha Hc) as Ho1.
  split; [intros; now apply animate_children|].
  split; [exact Ho1|]. rewrite Ho1.
  destruct (Qlt_le_dec (Qmin 1 ((T1 - created) / FADE_IN_DURATION)) 1)
    as [Hlt|Hge].
  - (* still appearing after the pass at T1 *)
    pose proof (fadeIn_below_one T1 e created Hd Ha Hc Hlt) as Hu.
    rewrite (fadeIn_opacity T2 (fadeIn T1 e) created)
      by (rewrite Hu; assumption).
    repeat split; auto using fadeIn_settled.
    + now apply ramp_monotone.
    + apply Q.le_min_l.
    + intros Hge. lra.
    + intros _. now rewrite Hu.
  - (* the pass at T1 reaches 1 *)
    pose proof (fadeIn_reaches_one T1 e created Hd Ha Hc Hge) as Hf.
    rewrite (fadeIn_settled T2 (fadeIn T1 e)) by (now rewrite Hf).
    rewrite Ho1.
    repeat split; auto using fadeIn_settled.
    + apply Qle_refl.
    + apply Q.le_min_l.
    + intros Hlt. lra.
Qed.

Lemma fade_in_ramp_of_aging_passes_witness :
  flag (isDynamicallyGenerated (userData streamedBox)) = true
  /\ flag (isAppearing (userData streamedBox)) = true
  /\ creationTime (userData streamedBox) = Some 1
  /\ 1.1 <= 1.2
  /\ opacity (material (fadeIn 1.1 streamedBox))
     <= opacity (material (fadeIn 1.2 (fadeIn 1.1 streamedBox))).
Proof.
  assert (Hd : flag (isDynamicallyGenerated (userData streamedBox)) = true)
    by reflexivity.
  assert (Ha : flag (isAppearing (userData streamedBox)) = true)
    by reflexivity.
  assert (Hc : creationTime (userData streamedBox) = Some 1) by reflexivity.
  assert (Hle : 1.1 <= 1.2) by (vm_compute; discriminate).
  repeat (split; [assumption|]).
  exact (proj1 (proj2 (proj2
           (@fade_in_ramp_of_aging_passes rightAngles streamedBox 1 1.1 1.2
              Hd Ha Hc Hle)))).
Defined.

(** C5 as stated fails between the creation of an element and its first
    aging pass. A box streamed in at clock reading 1 is flagged appearing
    and has opacity 0.01, which is not [min(1, 0 / 0.35)]; the frame at
    clock reading 1.001 lowers its opacity to [0.001 / 0.35]. *)
Lemma fade_in_opacity_drops_after_creation :
  let s := @run rightAngles
             [Mount 16 9 0;
              Settle 0 [fulfilled (Some [sampleBox "dyn_c0_a" 0 0])] 1] in
  let s' := @step rightAngles s (Frame 1.001 0) in
  match childrenOf s !! 0%nat, childrenOf s' !! 0%nat with
  | Some e, Some e' =>
      uuid e' = uuid e
      /\ flag (isDynamicallyGenerated (userData e)) = true
      /\ flag (isAppearing (userData e)) = true
      /\ creationTime (userData e) = Some 1
      /\ ~ opacity (material e) == Qmin 1 ((1 - 1) / FADE_IN_DURATION)
      /\ opacity (material e') < opacity (material e)
  | _, _ => False
  end.
Proof.
  vm_compute. repeat split; try reflexivity. intros E. discriminate E.
Qed.

(** ** Regeneration: what the effect disposes, keeps and creates *)

Lemma grows_refl w : grows w w.
Proof. repeat split; reflexivity. Qed.

Lemma grows_trans w1 w2 w3 : grows w1 w2 -> grows w2 w3 -> grows w1 w3.
Proof.
  intros (Hg & Hm & Hn) (Hg' & Hm' & Hn'). repeat split.
  - now transitivity (disposedGeometries w2).
  - now transitivity (disposedMaterials w2).
  - lia.
Qed.

Lemma grows_disposeChild w c : grows w (disposeChild w c).
Proof.
  unfold grows, disposeChild. simpl. repeat split; auto.
  - now apply prefix_app_r.
  - now apply prefix_app_r.
Qed.

Lemma grows_foldl_disposeChild cs : forall w, grows w (foldl disposeChild w cs).
Proof.
  induction cs as [|c cs IH]; intros w; simpl; [apply grows_refl|].
  eapply grows_trans; [apply grows_disposeChild | apply IH].
Qed.

Lemma disposed_foldl_disposeChild cs : forall w c,
  c ∈ cs ->
  geomId (geometry c) ∈ disposedGeometries (foldl disposeChild w cs)
  /\ matId (material c) ∈ disposedMaterials (foldl disposeChild w cs).
Proof.
  induction cs as [|c' cs IH]; intros w c Hc; [now apply elem_of_nil in Hc|].
  apply elem_of_cons in Hc as [->|Hc]; simpl; [|now apply IH].
  destruct (grows_foldl_disposeChild cs (disposeChild w c')) as (Hg & Hm & _).
  split.
  - eapply elem_of_prefix; [|exact Hg]. simpl.
    apply elem_of_app. right. now apply list_elem_of_singleton.
  - eapply elem_of_prefix; [|exact Hm]. simpl.
    apply elem_of_app. right. now apply list_elem_of_singleton.
Qed.

Lemma grows_removeWhere p group w : grows w (removeWhere p group w).2.
Proof. apply grows_foldl_disposeChild. Qed.

(** The refresh of a found child, field by field. *)
Lemma updateElement_spec b c w :
  let c' := (updateElement b c w).1 in
  let w' := (updateElement b c w).2 in
  uuid c' = uuid c
  /\ ud_id (userData c') = ud_id (userData c)
  /\ matId (material c') = matId (material c)
  /\ isDynamicallyGenerated (userData c') = Some false
  /\ isAppearing (userData c') = Some false
  /\ geomId (geometry c') = S (nextId w)
  /\ nextId w' = (nextId w + 2)%nat
  /\ disposedGeometries w'
     = disposedGeometries w ++ [nextId w; geomId (geometry c)]
  /\ disposedMaterials w' = disposedMaterials w.
Proof.
  unfold updateElement, createOrUpdateLineSegments, buildEdges. simpl.
  repeat split; auto. now rewrite <- app_assoc.
Qed.

Lemma grows_updateElement b c w : grows w (updateElement b c w).2.
Proof.
  destruct (updateElement_spec b c w) as (_ & _ & _ & _ & _ & _ & Hn & Hg & Hm).
  unfold grows. rewrite Hn, Hg, Hm. repeat split; auto.
  - now apply prefix_app_r.
  - lia.
Qed.

(** A building with no child yet: the new child, field by field. *)
Lemma createElement_spec b w :
  let c' := (createOrUpdateLineSegments b None false None w).1 in
  let w' := (createOrUpdateLineSegments b None false None w).2 in
  uuid c' = (nextId w + 3)%nat
  /\ ud_id (userData c') = el_id b
  /\ isDynamicallyGenerated (userData c') = None
  /\ nextId w' = (nextId w + 4)%nat
  /\ disposedGeometries w' = disposedGeometries w ++ [nextId w]
  /\ disposedMaterials w' = disposedMaterials w.
Proof.
  unfold createOrUpdateLineSegments, buildEdges. simpl.
  repeat split; auto; lia.
Qed.

Lemma grows_createElement b w :
  grows w (createOrUpdateLineSegments b None false None w).2.
Proof.
  destruct (createElement_spec b w) as (_ & _ & _ & Hn & Hg & Hm).
  unfold grows. rewrite Hn, Hg, Hm. repeat split; auto.
  - now apply prefix_app_r.
  - lia.
Qed.

Lemma updateFirst_None b group w :
  updateFirst b group w = None <->
  Forall (fun c => idIs (el_id b) c = false) group.
Proof.
  induction group as [|c group IH]; simpl.
  - split; [constructor | reflexivity].
  - unfold idIs at 1.
    destruct (String.eqb (ud_id (userData c)) (el_id b)) eqn:E.
    + destruct (updateElement b c w). split; [discriminate|].
      intros Hall. apply Forall_cons in Hall as [Hc _].
      unfold idIs in Hc. congruence.
    + destruct (updateFirst b group w) as [[g' w']|].
      * split; [discriminate|]. intros Hall.
        apply Forall_cons in Hall as [_ Hall]. now apply IH in Hall.
      * split; [|reflexivity]. intros _. constructor; [exact E|].
        now apply IH.
Qed.

(** When a child carries the id of [b_data], the first such child is
    refreshed where it is, and nothing else changes. *)
Lemma updateFirst_Some b group w group' w' :
  updateFirst b group w = Some (group', w') ->
  exists before c after,
    group = before ++ c :: after
    /\ Forall (fun x => idIs (el_id b) x = false) before
    /\ idIs (el_id b) c = true
    /\ group' = before ++ (updateElement b c w).1 :: after
    /\ w' = (updateElement b c w).2.
Proof.
  revert group' w'.
  induction group as [|c group IH]; simpl; intros group' w'; [discriminate|].
  destruct (String.eqb (ud_id (userData c)) (el_id b)) eqn:E.
  - destruct (updateElement b c w) as [c' w1] eqn:Eu. intros [= <- <-].
    exists [], c, group. repeat split; auto.
  - destruct (updateFirst b group w) as [[g1 w1]|]; [|discriminate].
    intros [= <- <-].
    destruct (IH g1 w1 eq_refl) as (before & x & after & -> & Hb & Hx & -> & ->).
    exists (c :: before), x, after. repeat split; auto.
Qed.

Lemma filter_idIs_app i (l1 l2 : list LineSegments) :
  List.filter (idIs i) (l1 ++ l2)
  = List.filter (idIs i) l1 ++ List.filter (idIs i) l2.
Proof. apply List.filter_app. Qed.

Lemma filter_idIs_none i (l : list LineSegments) :
  Forall (fun x => idIs i x = false) l -> List.filter (idIs i) l = [].
Proof.
  induction 1 as [|x l Hx _ IH]; simpl; [reflexivity|]. now rewrite Hx.
Qed.

Section Reconcile.
Variable dyn : gset string.

(** One building of the new Landscape: the group keeps its objects in their
    order, with at most one more at the end. *)
Lemma reconcileBuilding_spec b group w :
  let group' := (reconcileBuilding dyn (group, w) b).1 in
  let w' := (reconcileBuilding dyn (group, w) b).2 in
  grows w w'
  /\ disposedMaterials w' = disposedMaterials w
  /\ (forall c', c' ∈ group' ->
        (uuid c' ∈ map uuid group \/ (nextId w <= uuid c')%nat)
        /\ (c' ∈ group \/ ud_id (userData c') = el_id b))
  /\ (forall i, i <> el_id b ->
        List.filter (idIs i) group' = List.filter (idIs i) group).
Proof.
  unfold reconcileBuilding. cbv zeta.
  destruct (bool_decide (el_id b ∈ dyn)); cbn [fst snd].
  { split; [apply grows_refl|]. split; [reflexivity|]. split; [|reflexivity].
    intros c' Hc'. split; left; [now apply list_elem_of_fmap_2 | exact Hc']. }
  destruct (updateFirst b group w) as [[g1 w1]|] eqn:Eu.
  - apply updateFirst_Some in Eu
      as (before & c & after & -> & Hb & Hc & -> & ->).
    destruct (updateElement_spec b c w)
      as (Hu & Hi & _ & _ & _ & _ & _ & _ & Hm).
    unfold idIs in Hc. apply String.eqb_eq in Hc.
    cbn [fst snd]. split; [apply grows_updateElement|]. split; [exact Hm|].
    split.
    + assert (Hin : forall x, x ∈ before \/ x = c \/ x ∈ after ->
                      x ∈ before ++ c :: after).
      { intros x Hx. apply elem_of_app. rewrite elem_of_cons. tauto. }
      intros c' Hc'. apply elem_of_app in Hc' as [Hc'|Hc'].
      { split; left; [apply list_elem_of_fmap_2|]; apply Hin; tauto. }
      apply elem_of_cons in Hc' as [->|Hc'].
      { split; [left|right].
        - rewrite Hu. apply list_elem_of_fmap_2, Hin. tauto.
        - now rewrite Hi. }
      split; left; [apply list_elem_of_fmap_2|]; apply Hin; tauto.
    + intros i Hi'. rewrite !filter_idIs_app. f_equal.
      assert (Hnew : idIs i (updateElement b c w).1 = false).
      { unfold idIs. rewrite Hi, Hc. apply String.eqb_neq. congruence. }
      assert (Hold : idIs i c = false).
      { unfold idIs. rewrite Hc. apply String.eqb_neq. congruence. }
      cbn [List.filter]. now rewrite Hnew, Hold.
  - destruct (createElement_spec b w) as (Hu & Hi & _ & _ & _ & Hm).
    pose proof (grows_createElement b w) as Hg.
    destruct (createOrUpdateLineSegments b None false None w) as [e w1] eqn:Ec.
    cbn [fst snd] in *. split; [exact Hg|]. split; [exact Hm|]. split.
    + intros c' Hc'. apply elem_of_app in Hc' as [Hc'|Hc'].
      { split; left; [now apply list_elem_of_fmap_2 | exact Hc']. }
      apply list_elem_of_singleton in Hc' as ->.
      split; right; [lia | exact Hi].
    + intros i Hi'. rewrite filter_idIs_app.
      assert (Hnew : idIs i e = false).
      { unfold idIs. rewrite Hi. apply String.eqb_neq. congruence. }
      cbn [List.filter]. rewrite Hnew. apply app_nil_r.
Qed.
End Reconcile.

Lemma foldl_reconcileBuilding_spec dyn bs : forall group w,
  let group' := (foldl (reconcileBuilding dyn) (group, w) bs).1 in
  let w' := (foldl (reconcileBuilding dyn) (group, w) bs).2 in
  grows w w'
  /\ disposedMaterials w' = disposedMaterials w
  /\ (forall c', c' ∈ group' ->
        (uuid c' ∈ map uuid group \/ (nextId w <= uuid c')%nat)
        /\ (c' ∈ group \/ ud_id (userData c') ∈ map el_id bs))
  /\ (forall i, i ∉ map el_id bs ->
        List.filter (idIs i) group' = List.filter (idIs i) group).
Proof.
  induction bs as [|b bs IH]; intros group w; cbv zeta.
  - cbn [foldl fst snd]. split; [apply grows_refl|]. split; [reflexivity|].
    split; [|reflexivity].
    intros c' Hc'. split; left; [now apply list_elem_of_fmap_2 | exact Hc'].
  - cbn [foldl].
    destruct (reconcileBuilding_spec dyn b group w) as (Hg1 & Hm1 & Hp1 & Hf1).
    destruct (reconcileBuilding dyn (group, w) b) as [g1 w1].
    cbn [fst snd] in Hg1, Hm1, Hp1, Hf1.
    destruct (IH g1 w1) as (Hg & Hm & Hp & Hf).
    split; [eapply grows_trans; eassumption|].
    split; [now rewrite Hm|]. split.
    + intros c' Hc'. destruct (Hp c' Hc') as [Hu Hi]. split.
      * destruct Hu as [Hu|Hu].
        -- apply list_elem_of_fmap in Hu as (c1 & -> & Hc1).
           apply (Hp1 c1 Hc1).
        -- right. destruct Hg1 as (_ & _ & Hn). lia.
      * destruct Hi as [Hi|Hi].
        -- destruct (Hp1 c' Hi) as [_ [Hin|Hid]]; [now left|].
           right. rewrite Hid. simpl. apply elem_of_cons. now left.
        -- right. simpl. apply elem_of_cons. now right.
    + intros i Hi. simpl in Hi. apply not_elem_of_cons in Hi as [Hne Hi].
      rewrite (Hf i Hi). now apply Hf1.
Qed.

Lemma uuid_not_kept p (group : list LineSegments) c :
  NoDup (map uuid group) ->
  c ∈ group -> p c = true ->
  uuid c ∉ map uuid (List.filter (fun x => negb (p x)) group).
Proof.
  induction group as [|x group IH]; intros Hnd Hc Hp;
    [now apply elem_of_nil in Hc|].
  simpl in Hnd. apply NoDup_cons in Hnd as [Hx Hnd].
  apply elem_of_cons in Hc as [->|Hc]; simpl.
  - rewrite Hp. simpl. intros Hin. apply Hx.
    apply list_elem_of_fmap in Hin as (y & Hy & Hin).
    apply list_elem_of_In, List.filter_In in Hin as [Hin _].
    rewrite Hy. apply list_elem_of_fmap_2. now apply list_elem_of_In.
  - destruct (p x); simpl; [now apply IH|].
    intros Hin. apply elem_of_cons in Hin as [Heq|Hin]; [|now apply IH in Hin].
    apply Hx. rewrite <- Heq. now apply list_elem_of_fmap_2.
Qed.

(** Every child that steps 2 and 3 leave in the group was in the group
    before or was created by them. *)
Lemma reconcileGroup_spec l dyn group w :
  let group' := (reconcileGroup l dyn group w).1 in
  let w' := (reconcileGroup l dyn group w).2 in
  grows w w'
  /\ forall c', c' ∈ group' ->
       uuid c' ∈ map uuid group \/ (nextId w <= uuid c')%nat.
Proof.
  assert (Hall : grows w (removeWhere (fun _ => true) group w).2
                 /\ forall c', c' ∈ (removeWhere (fun _ => true) group w).1 ->
                      uuid c' ∈ map uuid group \/ (nextId w <= uuid c')%nat).
  { split; [apply grows_removeWhere|]. unfold removeWhere. cbn [fst].
    intros c' Hc'. apply list_elem_of_In, List.filter_In in Hc' as [_ Hc'].
    discriminate. }
  unfold reconcileGroup. cbv zeta.
  destruct l as [l|]; [|exact Hall].
  destruct (buildings l) as [|b bs] eqn:Eb; [exact Hall|].
  destruct (foldl_reconcileBuilding_spec dyn (b :: bs) group w)
    as (Hg & _ & Hp & _).
  destruct (foldl (reconcileBuilding dyn) (group, w) (b :: bs)) as [g1 w1].
  cbn [fst snd] in Hg, Hp. split.
  - eapply grows_trans; [exact Hg | apply grows_removeWhere].
  - unfold removeWhere. cbn [fst]. intros c' Hc'.
    apply list_elem_of_In, List.filter_In in Hc' as [Hc' _].
    apply list_elem_of_In in Hc'. apply (Hp c' Hc').
Qed.

Lemma size_positive_iff (X : gset string) :
  Nat.ltb 0 (size X) = true <-> X <> ∅.
Proof.
  rewrite Nat.ltb_lt. split.
  - intros Hpos ->. rewrite size_empty in Hpos. lia.
  - intros Hne. destruct (size X) eqn:E; [|lia].
    apply size_empty_iff in E. apply leibniz_equiv in E. contradiction.
Qed.

(** The effect on a mounted scene, in its two cases. *)
Lemma landscapeEffect_dynamic l s sc :
  scene s = Some sc ->
  dynamicallyGeneratedBuildingsRef (streaming s) <> ∅ ->
  let isDyn := fun child : LineSegments =>
    bool_decide (ud_id (userData child)
                 ∈ dynamicallyGeneratedBuildingsRef (streaming s)) in
  let r := reconcileGroup l ∅
             (List.filter (fun c => negb (isDyn c)) (children sc))
             (foldl disposeChild (world s)
                (List.filter isDyn (children sc))) in
  landscapeEffect l s
  = mkState (Some (mkScene (camera sc) (skyVisible sc) r.1))
      (isCapturingRef s) (input s) (mkStreamingRefs ∅ [] 0%Z 0%Z) r.2.
Proof.
  intros Hsc Hne. apply size_positive_iff in Hne.
  unfold landscapeEffect, clearDynamic, removeWhere. rewrite Hsc, Hne.
  cbn [dynamicallyGeneratedBuildingsRef children camera skyVisible].
  cbv zeta. now destruct (reconcileGroup _ _ _ _).
Qed.

Lemma landscapeEffect_static l s sc :
  scene s = Some sc ->
  dynamicallyGeneratedBuildingsRef (streaming s) = ∅ ->
  let r := reconcileGroup l ∅ (children sc) (world s) in
  landscapeEffect l s
  = mkState (Some (mkScene (camera sc) (skyVisible sc) r.1))
      (isCapturingRef s) (input s) (streaming s) r.2.
Proof.
  intros Hsc Hempty.
  assert (Hz : Nat.ltb 0 (size (dynamicallyGeneratedBuildingsRef
                                  (streaming s))) = false).
  { rewrite Hempty, size_empty. reflexivity. }
  unfold landscapeEffect, clearDynamic. rewrite Hsc, Hz, Hempty.
  cbv zeta. now destruct (reconcileGroup _ _ _ _).
Qed.

(** C3, as the code has it. When a new Landscape arrives on a mounted scene
    and the dynamic-id set is not empty, the streaming refs are reset (the
    dynamic-id set and the TriggerPoint list are empty, the in-flight counter
    and the cluster-id counter are zero) and every child of the group whose
    id is in the dynamic-id set has its geometry and its material disposed
    and is no longer in the group. When the dynamic-id set is empty the
    streaming refs are left as they are. *)
Theorem regeneration_resets_streaming_when_dynamic_ids_exist
    (l : option LandscapeData) (s : State) (sc : Scene) :
  scene s = Some sc ->
  uuidsWellFormed (children sc) (world s) ->
  (dynamicallyGeneratedBuildingsRef (streaming s) <> ∅ ->
   streaming (landscapeEffect l s) = mkStreamingRefs ∅ [] 0%Z 0%Z
   /\ forall c,
        c ∈ children sc ->
        ud_id (userData c) ∈ dynamicallyGeneratedBuildingsRef (streaming s) ->
        (uuid c ∉ map uuid (childrenOf (landscapeEffect l s)))
        /\ (geomId (geometry c)
            ∈ disposedGeometries (world (landscapeEffect l s)))
        /\ (matId (material c)
            ∈ disposedMaterials (world (landscapeEffect l s))))
  /\ (dynamicallyGeneratedBuildingsRef (streaming s) = ∅ ->
      streaming (landscapeEffect l s) = streaming s).
Proof.
  intros Hsc [Hnd Hold]. split.
  - intros Hne. rewrite (landscapeEffect_dynamic l s sc Hsc Hne).
    set (isDyn := fun child : LineSegments =>
           bool_decide (ud_id (userData child)
                        ∈ dynamicallyGeneratedBuildingsRef (streaming s))).
    cbv zeta. unfold childrenOf. cbn [scene streaming world children].
    destruct (reconcileGroup_spec l ∅
                (List.filter (fun c => negb (isDyn c)) (children sc))
                (foldl disposeChild (world s) (List.filter isDyn (children sc))))
      as (Hg & Hp).
    split; [reflexivity|].
    intros c Hc Hid.
    assert (Hdyn : isDyn c = true) by (now apply bool_decide_eq_true).
    assert (Hin : c ∈ List.filter isDyn (children sc)).
    { apply list_elem_of_In, List.filter_In. split; [|exact Hdyn].
      now apply list_elem_of_In. }
    destruct (disposed_foldl_disposeChild _ (world s) c Hin) as [Hgeo Hmat].
    destruct Hg as (Hgs & Hms & Hn).
    split; [|split].
    + intros Hu. apply list_elem_of_fmap in Hu as (c' & Hu & Hc').
      destruct (Hp c' Hc') as [Hkept|Hfresh].
      * rewrite <- Hu in Hkept. revert Hkept.
        now apply uuid_not_kept.
      * rewrite Forall_forall in Hold.
        specialize (Hold (uuid c) (list_elem_of_fmap_2 uuid _ _ Hc)).
        destruct (grows_foldl_disposeChild
                    (List.filter isDyn (children sc)) (world s))
          as (_ & _ & Hn0).
        lia.
    + eapply elem_of_prefix; eassumption.
    + eapply elem_of_prefix; eassumption.
  - intros Hempty. now rewrite (landscapeEffect_static l s sc Hsc Hempty).
Qed.

Lemma regeneration_resets_streaming_when_dynamic_ids_exist_witness :
  let s := @run rightAngles
             [Mount 16 9 0;
              Settle 0 [fulfilled (Some [sampleBox "dyn_c0_a" 0 0])] 1] in
  scene s = Some streamedScene
  /\ uuidsWellFormed (children streamedScene) (world s)
  /\ dynamicallyGeneratedBuildingsRef (streaming s) <> ∅
  /\ streaming (landscapeEffect (Some sampleLandscape) s)
     = mkStreamingRefs ∅ [] 0%Z 0%Z.
Proof.
  intros s.
  assert (Hsc : scene s = Some streamedScene) by (vm_compute; reflexivity).
  assert (Hwf : uuidsWellFormed (children streamedScene) (world s)).
  { split.
    - simpl. apply NoDup_singleton.
    - repeat constructor. }
  assert (Hne : dynamicallyGeneratedBuildingsRef (streaming s) <> ∅).
  { intros E. assert (Hin : "dyn_c0_a" ∈ (∅ : gset string)).
    { rewrite <- E. vm_compute. reflexivity. }
    now apply not_elem_of_empty in Hin. }
  repeat (split; [assumption|]).
  exact (proj1 (proj1 (regeneration_resets_streaming_when_dynamic_ids_exist
                         (Some sampleLandscape) s streamedScene Hsc Hwf)
                  Hne)).
Defined.

(** C3 as stated fails for a prior state whose dynamic-id set is empty.
    Right after mounting, the first batch is in flight: one TriggerPoint is
    recorded, the in-flight counter is 1 and the cluster-id counter is 1,
    and no dynamic id is recorded yet. A Landscape that arrives then leaves
    all three as they are. *)
Lemma regeneration_without_dynamic_ids_resets_nothing :
  let s := @run rightAngles [Mount 16 9 0] in
  let s' := @step rightAngles s (Landscape (Some sampleLandscape)) in
  scene s = Some mountedScene
  /\ generationTriggerPointsRef (streaming s')
     = [mkVector3 0.0 300.0 (-500.6)]
  /\ activeClusterRequestsRef (streaming s') = 1%Z
  /\ nextClusterIdCounterRef (streaming s') = 1%Z.
Proof. vm_compute. repeat split; reflexivity. Qed.

(** ** Merging the same Landscape again *)

Lemma childIds_elem i group :
  i ∈ childIds group <-> Exists (fun c => idIs i c = true) group.
Proof.
  unfold childIds, idIs. rewrite list_elem_of_fmap, Exists_exists. split.
  - intros (c & -> & Hc). exists c. split; [exact Hc|]. apply String.eqb_refl.
  - intros (c & Hc & Hi). apply String.eqb_eq in Hi. eauto.
Qed.

Lemma updateFirst_found b group w :
  el_id b ∈ childIds group -> updateFirst b group w <> None.
Proof.
  intros Hin Hnone. apply updateFirst_None in Hnone.
  apply childIds_elem, Exists_exists in Hin as (c & Hc & Hi).
  rewrite Forall_forall in Hnone. specialize (Hnone c Hc). congruence.
Qed.

(** A building whose id a child carries: that child, the first with the
    id, is refreshed where it is. Its object and its material stay, its
    geometry is disposed and a new one attached. *)
Lemma reconcileBuilding_found b group w :
  el_id b ∈ childIds group ->
  let group' := (reconcileBuilding ∅ (group, w) b).1 in
  let w' := (reconcileBuilding ∅ (group, w) b).2 in
  map uuid group' = map uuid group
  /\ childIds group' = childIds group
  /\ childMaterials group' = childMaterials group
  /\ List.length (disposedGeometries w')
     = (List.length (disposedGeometries w) + 2)%nat
  /\ exists c,
       head (List.filter (idIs (el_id b)) group) = Some c
       /\ geomId (geometry c) ∈ disposedGeometries w'.
Proof.
  intros Hin. unfold reconcileBuilding. cbv zeta.
  rewrite bool_decide_eq_false_2 by apply not_elem_of_empty.
  destruct (updateFirst b group w) as [[g1 w1]|] eqn:Eu;
    [|now apply updateFirst_found in Eu].
  apply updateFirst_Some in Eu as (before & c & after & -> & Hb & Hc & -> & ->).
  destruct (updateElement_spec b c w)
    as (Hu & Hi & Hmat & _ & _ & _ & _ & Hg & _).
  cbn [fst snd]. unfold childIds, childMaterials.
  rewrite !map_app. cbn [map]. rewrite Hu, Hi, Hmat, Hg.
  repeat split; auto.
  - rewrite length_app. simpl. lia.
  - exists c. split.
    + rewrite filter_idIs_app, (filter_idIs_none _ _ Hb). simpl.
      now rewrite Hc.
    + apply elem_of_app. right. apply elem_of_cons. right.
      now apply list_elem_of_singleton.
Qed.

(** After a building was reconciled, a child carries its id, and the ids
    the children carried before are still carried, in their order. *)
Lemma reconcileBuilding_present b group w :
  let group' := (reconcileBuilding ∅ (group, w) b).1 in
  el_id b ∈ childIds group'
  /\ exists extra, childIds group' = childIds group ++ extra.
Proof.
  cbv zeta.
  destruct (decide (el_id b ∈ childIds group)) as [Hin|Hnot].
  - destruct (reconcileBuilding_found b group w Hin) as (_ & Hids & _).
    rewrite Hids. split; [exact Hin|]. exists []. now rewrite app_nil_r.
  - unfold reconcileBuilding.
    rewrite bool_decide_eq_false_2 by apply not_elem_of_empty.
    destruct (updateFirst b group w) as [[g1 w1]|] eqn:Eu.
    + exfalso. apply Hnot.
      apply updateFirst_Some in Eu as (before & c & after & -> & _ & Hc & _).
      apply childIds_elem, Exists_exists. exists c. split; [|exact Hc].
      apply elem_of_app. right. apply elem_of_cons. now left.
    + destruct (createElement_spec b w) as (_ & Hi & _).
      destruct (createOrUpdateLineSegments b None false None w) as [e w1].
      cbn [fst snd] in *. unfold childIds. rewrite map_app. simpl.
      rewrite Hi. split; [|eauto].
      apply elem_of_app. right. now apply list_elem_of_singleton.
Qed.

Lemma foldl_reconcileBuilding_present bs : forall group w,
  let group' := (foldl (reconcileBuilding ∅) (group, w) bs).1 in
  (forall b, b ∈ bs -> el_id b ∈ childIds group')
  /\ exists extra, childIds group' = childIds group ++ extra.
Proof.
  induction bs as [|b0 bs IH]; intros group w; cbv zeta; cbn [foldl].
  - split; [intros b Hb; now apply elem_of_nil in Hb|].
    exists []. now rewrite app_nil_r.
  - destruct (reconcileBuilding_present b0 group w) as (Hb0 & extra0 & He0).
    destruct (reconcileBuilding ∅ (group, w) b0) as [g1 w1].
    cbn [fst] in Hb0, He0.
    destruct (IH g1 w1) as (Hrest & extra & He). split.
    + intros b Hb. apply elem_of_cons in Hb as [->|Hb]; [|now apply Hrest].
      rewrite He. apply elem_of_app. now left.
    + exists (extra0 ++ extra). now rewrite He, He0, app_assoc.
Qed.

(** A Landscape all of whose buildings have a child already: every child
    stays where it is with its object and material, two geometries are
    disposed for each building, and among them the geometry the first child
    with the id of the building had. *)
Lemma foldl_reconcileBuilding_found bs : forall group w,
  (forall b, b ∈ bs -> el_id b ∈ childIds group) ->
  let group' := (foldl (reconcileBuilding ∅) (group, w) bs).1 in
  let w' := (foldl (reconcileBuilding ∅) (group, w) bs).2 in
  map uuid group' = map uuid group
  /\ childIds group' = childIds group
  /\ childMaterials group' = childMaterials group
  /\ List.length (disposedGeometries w')
     = (List.length (disposedGeometries w) + 2 * List.length bs)%nat
  /\ forall b, b ∈ bs ->
       exists c,
         head (List.filter (idIs (el_id b)) group) = Some c
         /\ geomId (geometry c) ∈ disposedGeometries w'.
Proof.
  induction bs as [|b0 bs IH]; intros group w Hall; cbv zeta; cbn [foldl].
  - cbn [fst snd]. repeat split; auto. intros b Hb.
    now apply elem_of_nil in Hb.
  - assert (Hb0 : el_id b0 ∈ childIds group)
      by (apply Hall, elem_of_cons; now left).
    destruct (reconcileBuilding_found b0 group w Hb0)
      as (Hu0 & Hi0 & Hm0 & Hl0 & c0 & Hc0 & Hd0).
    destruct (reconcileBuilding_spec ∅ b0 group w) as (_ & _ & _ & Hf0).
    destruct (reconcileBuilding ∅ (group, w) b0) as [g1 w1].
    cbn [fst snd] in Hu0, Hi0, Hm0, Hl0, Hd0, Hf0.
    assert (Hall1 : forall b, b ∈ bs -> el_id b ∈ childIds g1).
    { intros b Hb. rewrite Hi0. apply Hall, elem_of_cons. now right. }
    destruct (IH g1 w1 Hall1) as (Hu & Hi & Hm & Hl & Hd).
    destruct (foldl_reconcileBuilding_spec ∅ bs g1 w1) as ((Hg & _) & _).
    rewrite Hu, Hi, Hm, Hl, Hu0, Hi0, Hm0, Hl0.
    repeat split; auto; [simpl; lia|].
    intros b Hb.
    destruct (decide (el_id b = el_id b0)) as [E|E].
    + exists c0. rewrite E. split; [exact Hc0|].
      eapply elem_of_prefix; eassumption.
    + apply elem_of_cons in Hb as [->|Hb]; [congruence|].
      destruct (Hd b Hb) as (c & Hc & Hdc).
      exists c. split; [|exact Hdc]. now rewrite <- (Hf0 _ E).
Qed.

Lemma removeWhere_none p (group : list LineSegments) w :
  (forall c, c ∈ group -> p c = false) -> removeWhere p group w = (group, w).
Proof.
  intros Hp. unfold removeWhere.
  assert (Hkeep : List.filter (fun c => negb (p c)) group = group).
  { induction group as [|c group IH]; [reflexivity|]. simpl.
    rewrite (Hp c) by (apply elem_of_cons; now left). simpl. f_equal.
    apply IH. intros x Hx. apply Hp, elem_of_cons. now right. }
  assert (Hdrop : List.filter p group = []).
  { induction group as [|c group IH]; [reflexivity|]. simpl.
    rewrite (Hp c) by (apply elem_of_cons; now left).
    apply IH.
    - intros x Hx. apply Hp, elem_of_cons. now right.
    - simpl in Hkeep. rewrite (Hp c) in Hkeep
        by (apply elem_of_cons; now left).
      simpl in Hkeep. now injection Hkeep. }
  now rewrite Hkeep, Hdrop.
Qed.

Lemma removeWhere_all (group : list LineSegments) w :
  (removeWhere (fun _ => true) group w).1 = [].
Proof.
  unfold removeWhere. cbn [fst].
  induction group as [|c group IH]; [reflexivity | exact IH].
Qed.

(** What steps 2 and 3 leave in the group: a child for every building of
    the Landscape, and besides only children flagged dynamic; nothing when
    the Landscape has no building. *)
Lemma reconcileGroup_first l group w :
  let group' := (reconcileGroup l ∅ group w).1 in
  (forall b, b ∈ buildingsOf l -> el_id b ∈ childIds group')
  /\ (forall c, c ∈ group' ->
        flag (isDynamicallyGenerated (userData c)) = true
        \/ ud_id (userData c) ∈ map el_id (buildingsOf l))
  /\ (buildingsOf l = [] -> group' = []).
Proof.
  cbv zeta. unfold reconcileGroup.
  assert (Hnone : buildingsOf l = [] ->
    (forall b, b ∈ buildingsOf l ->
       el_id b ∈ childIds (removeWhere (fun _ => true) group w).1)
    /\ (forall c, c ∈ (removeWhere (fun _ => true) group w).1 ->
          flag (isDynamicallyGenerated (userData c)) = true
          \/ ud_id (userData c) ∈ map el_id (buildingsOf l))
    /\ (buildingsOf l = [] -> (removeWhere (fun _ => true) group w).1 = [])).
  { intros E. rewrite E, removeWhere_all. repeat split; auto;
      intros x Hx; now apply elem_of_nil in Hx. }
  destruct l as [l|]; [|now apply Hnone].
  destruct (buildings l) as [|b0 bs] eqn:Eb; [now apply Hnone|].
  clear Hnone. unfold buildingsOf. rewrite Eb.
  destruct (foldl_reconcileBuilding_present (b0 :: bs) group w) as (Hp & _).
  destruct (foldl (reconcileBuilding ∅) (group, w) (b0 :: bs)) as [g1 w1].
  cbn [fst] in Hp. unfold removeWhere. cbn [fst].
  split; [|split; [|discriminate]].
  - intros b Hb. specialize (Hp b Hb).
    apply childIds_elem, Exists_exists in Hp as (c & Hc & Hi).
    apply childIds_elem, Exists_exists. exists c. split; [|exact Hi].
    apply list_elem_of_In, List.filter_In. split; [now apply list_elem_of_In|].
    unfold idIs in Hi. apply String.eqb_eq in Hi.
    rewrite (bool_decide_eq_true_2 (ud_id (userData c) ∈ _)).
    + now rewrite andb_false_r.
    + rewrite Hi. apply elem_of_list_to_set. now apply list_elem_of_fmap_2.
  - intros c Hc. apply list_elem_of_In, List.filter_In in Hc as [_ Hc].
    apply negb_true_iff, andb_false_iff in Hc as [Hc|Hc].
    + left. now apply negb_false_iff in Hc.
    + right. apply negb_false_iff, bool_decide_eq_true in Hc.
      now apply elem_of_list_to_set in Hc.
Qed.

(** Steps 2 and 3 on a group that the same Landscape was merged into
    before. *)
Lemma reconcileGroup_again l group w :
  (forall b, b ∈ buildingsOf l -> el_id b ∈ childIds group) ->
  (forall c, c ∈ group ->
     flag (isDynamicallyGenerated (userData c)) = true
     \/ ud_id (userData c) ∈ map el_id (buildingsOf l)) ->
  (buildingsOf l = [] -> group = []) ->
  let group' := (reconcileGroup l ∅ group w).1 in
  let w' := (reconcileGroup l ∅ group w).2 in
  map uuid group' = map uuid group
  /\ childMaterials group' = childMaterials group
  /\ disposedMaterials w' = disposedMaterials w
  /\ List.length (disposedGeometries w')
     = (List.length (disposedGeometries w)
        + 2 * List.length (buildingsOf l))%nat
  /\ forall b, b ∈ buildingsOf l ->
       exists c,
         c ∈ group
         /\ ud_id (userData c) = el_id b
         /\ geomId (geometry c) ∈ disposedGeometries w'.
Proof.
  intros Hfound Hkeep Hempty. cbv zeta. unfold reconcileGroup.
  assert (Hnone : buildingsOf l = [] ->
    let r := removeWhere (fun _ => true) group w in
    map uuid r.1 = map uuid group
    /\ childMaterials r.1 = childMaterials group
    /\ disposedMaterials r.2 = disposedMaterials w
    /\ List.length (disposedGeometries r.2)
       = (List.length (disposedGeometries w)
          + 2 * List.length (buildingsOf l))%nat
    /\ forall b, b ∈ buildingsOf l ->
         exists c, c ∈ group /\ ud_id (userData c) = el_id b
                   /\ geomId (geometry c) ∈ disposedGeometries r.2).
  { intros E. rewrite (Hempty E), E. cbn. repeat split; auto.
    intros b Hb. now apply elem_of_nil in Hb. }
  destruct l as [l|]; [|now apply Hnone].
  destruct (buildings l) as [|b0 bs] eqn:Eb; [now apply Hnone|].
  clear Hnone Hempty. unfold buildingsOf in *. rewrite Eb in *.
  destruct (foldl_reconcileBuilding_found (b0 :: bs) group w Hfound)
    as (Hu & Hi & Hm & Hl & Hd).
  destruct (foldl_reconcileBuilding_spec ∅ (b0 :: bs) group w)
    as (_ & Hmat & Hp & _).
  destruct (foldl (reconcileBuilding ∅) (group, w) (b0 :: bs)) as [g1 w1].
  cbn [fst snd] in *.
  rewrite removeWhere_none.
  - cbn [fst snd]. repeat split; auto.
    intros b Hb. destruct (Hd b Hb) as (c & Hc & Hdc).
    exists c.
    assert (Hin : c ∈ List.filter (idIs (el_id b)) group).
    { destruct (List.filter (idIs (el_id b)) group); [discriminate|].
      injection Hc as ->. apply elem_of_cons. now left. }
    apply list_elem_of_In, List.filter_In in Hin as [Hin Hid].
    unfold idIs in Hid. apply String.eqb_eq in Hid.
    repeat split; auto. now apply list_elem_of_In.
  - intros c Hc. apply andb_false_iff.
    destruct (Hp c Hc) as [_ [Hold|Hnew]].
    + destruct (Hkeep c Hold) as [Hf|Hid].
      * left. now rewrite Hf.
      * right. apply negb_false_iff, bool_decide_eq_true.
        now apply elem_of_list_to_set.
    + right. apply negb_false_iff, bool_decide_eq_true.
      now apply elem_of_list_to_set.
Qed.

(** C2, as the code has it. Merge a Landscape into a mounted scene, then
    merge the same Landscape again. The second merge keeps every child of
    the group where it is: the same objects in the same order, each with the
    material it had, and no material is disposed. It does dispose and
    rebuild geometry: two geometries are disposed for each building of the
    Landscape (the solid one built on the way and the edges a child held),
    and for every building a child that carried its id after the first merge
    has had the geometry it held then disposed. *)
Theorem merging_again_keeps_objects_and_rebuilds_geometry
    (l : option LandscapeData) (s0 : State) (sc0 : Scene) :
  scene s0 = Some sc0 ->
  let s1 := landscapeEffect l s0 in
  let s2 := landscapeEffect l s1 in
  map uuid (childrenOf s2) = map uuid (childrenOf s1)
  /\ childMaterials (childrenOf s2) = childMaterials (childrenOf s1)
  /\ disposedMaterials (world s2) = disposedMaterials (world s1)
  /\ List.length (disposedGeometries (world s2))
     = (List.length (disposedGeometries (world s1))
        + 2 * List.length (buildingsOf l))%nat
  /\ forall b, b ∈ buildingsOf l ->
       exists c,
         c ∈ childrenOf s1
         /\ ud_id (userData c) = el_id b
         /\ geomId (geometry c) ∈ disposedGeometries (world s2).
Proof.
  intros Hsc0 s1 s2.
  (* the first merge *)
  assert (H1 : exists sc1,
             scene s1 = Some sc1
             /\ dynamicallyGeneratedBuildingsRef (streaming s1) = ∅
             /\ exists group w, children sc1 = (reconcileGroup l ∅ group w).1).
  { unfold s1.
    destruct (decide (dynamicallyGeneratedBuildingsRef (streaming s0) = ∅))
      as [E|E].
    - rewrite (landscapeEffect_static l s0 sc0 Hsc0 E). cbv zeta.
      eexists. split; [reflexivity|]. split; [exact E|]. cbn [children].
      eauto.
    - rewrite (landscapeEffect_dynamic l s0 sc0 Hsc0 E). cbv zeta.
      eexists. split; [reflexivity|]. split; [reflexivity|]. cbn [children].
      eauto. }
  destruct H1 as (sc1 & Hsc1 & Hdyn1 & group & w & Hg1).
  destruct (reconcileGroup_first l group w) as (Hfound & Hkeep & Hempty).
  rewrite <- Hg1 in Hfound, Hkeep, Hempty.
  (* the second merge *)
  assert (Hc1 : childrenOf s1 = children sc1)
    by (unfold childrenOf; now rewrite Hsc1).
  assert (Hc2 : childrenOf s2
                = (reconcileGroup l ∅ (children sc1) (world s1)).1).
  { unfold s2. now rewrite (landscapeEffect_static l s1 sc1 Hsc1 Hdyn1). }
  assert (Hw2 : world s2
                = (reconcileGroup l ∅ (children sc1) (world s1)).2).
  { unfold s2. now rewrite (landscapeEffect_static l s1 sc1 Hsc1 Hdyn1). }
  rewrite Hc1, Hc2, Hw2.
  exact (reconcileGroup_again l (children sc1) (world s1) Hfound Hkeep Hempty).
Qed.

Lemma merging_again_keeps_objects_and_rebuilds_geometry_witness :
  let s0 := @run rightAngles [Mount 16 9 0] in
  scene s0 = Some mountedScene
  /\ map uuid (childrenOf
                 (landscapeEffect (Some sampleLandscape)
                    (landscapeEffect (Some sampleLandscape) s0)))
     = map uuid (childrenOf (landscapeEffect (Some sampleLandscape) s0)).
Proof.
  intros s0.
  assert (Hsc : scene s0 = Some mountedScene) by (vm_compute; reflexivity).
  split; [exact Hsc|].
  exact (proj1 (merging_again_keeps_objects_and_rebuilds_geometry
                  (Some sampleLandscape) s0 mountedScene Hsc)).
Defined.

(** C2 as stated fails: the second merge of an identical Landscape does
    discard and rebuild the geometry of an unchanged element. After the
    first merge the child for building [bld_1] is object 3 with geometry 1;
    after the second merge the same object 3 holds geometry 9, geometry 1 is
    in the disposal log, and four more geometries were disposed than
    before. *)
Lemma merging_again_disposes_unchanged_geometry :
  let s0 := @run rightAngles [Mount 16 9 0] in
  let s1 := landscapeEffect (Some sampleLandscape) s0 in
  let s2 := landscapeEffect (Some sampleLandscape) s1 in
  (fun c => (uuid c, ud_id (userData c), geomId (geometry c)))
    <$> childrenOf s1 !! 0%nat = Some (3%nat, "bld_1", 1%nat)
  /\ (fun c => (uuid c, ud_id (userData c), geomId (geometry c)))
       <$> childrenOf s2 !! 0%nat = Some (3%nat, "bld_1", 9%nat)
  /\ disposedGeometries (world s1) = [0%nat; 4%nat]
  /\ disposedGeometries (world s2) = [0%nat; 4%nat; 8%nat; 1%nat; 10%nat; 5%nat].
Proof. vm_compute. repeat split; reflexivity. Qed.

(** ** Batches in flight *)

Lemma pending_foldl_disposeChild cs : forall w,
  pending (foldl disposeChild w cs) = pending w.
Proof.
  induction cs as [|c cs IH]; intros w; simpl; [reflexivity|]. now rewrite IH.
Qed.

Lemma pending_foldl_addClusterBuilding now center bs : forall group dyn w,
  pending (foldl (addClusterBuilding now center) (group, dyn, w) bs).2
  = pending w.
Proof.
  induction bs as [|b bs IH]; intros group dyn w; simpl; [reflexivity|].
  unfold createOrUpdateLineSegments, buildEdges. simpl. now rewrite IH.
Qed.

Lemma pending_foldl_applyResult now entries : forall group dyn w,
  pending (foldl (applyResult now) (group, dyn, w) entries).2 = pending w.
Proof.
  induction entries as [|[center result] entries IH]; intros group dyn w;
    cbn [foldl]; [reflexivity|].
  destruct result as [[bs|]|]; cbn [applyResult]; try apply IH.
  pose proof (pending_foldl_addClusterBuilding now center bs group dyn w) as E.
  destruct (foldl (addClusterBuilding now center) (group, dyn, w) bs)
    as [[g1 d1] w1].
  rewrite IH. exact E.
Qed.

Lemma pending_foldl_reconcileBuilding dyn bs : forall group w,
  pending (foldl (reconcileBuilding dyn) (group, w) bs).2 = pending w.
Proof.
  induction bs as [|b bs IH]; intros group w; cbn [foldl]; [reflexivity|].
  assert (E : pending (reconcileBuilding dyn (group, w) b).2 = pending w).
  { unfold reconcileBuilding.
    destruct (bool_decide _); [reflexivity|].
    destruct (updateFirst b group w) as [[g1 w1]|] eqn:Eu.
    - apply updateFirst_Some in Eu as (? & c & ? & _ & _ & _ & _ & ->).
      reflexivity.
    - reflexivity. }
  destruct (reconcileBuilding dyn (group, w) b) as [g1 w1].
  rewrite IH. exact E.
Qed.

Lemma pending_reconcileGroup l dyn group w :
  pending (reconcileGroup l dyn group w).2 = pending w.
Proof.
  unfold reconcileGroup, removeWhere.
  destruct l as [l|]; [|apply pending_foldl_disposeChild].
  destruct (buildings l) as [|b bs]; [apply pending_foldl_disposeChild|].
  pose proof (pending_foldl_reconcileBuilding dyn (b :: bs) group w) as E.
  destruct (foldl (reconcileBuilding dyn) (group, w) (b :: bs)) as [g1 w1].
  cbn [snd] in *. now rewrite pending_foldl_disposeChild.
Qed.

Lemma pending_landscapeEffect l s :
  pending (world (landscapeEffect l s)) = pending (world s).
Proof.
  unfold landscapeEffect. destruct (scene s) as [sc|]; [|reflexivity].
  unfold clearDynamic, removeWhere. destruct (Nat.ltb _ _).
  - pose proof (pending_reconcileGroup l ∅
                  (List.filter
                     (fun c => negb (bool_decide
                        (ud_id (userData c)
                         ∈ dynamicallyGeneratedBuildingsRef (streaming s))))
                     (children sc))
                  (foldl disposeChild (world s)
                     (List.filter
                        (fun child => bool_decide
                           (ud_id (userData child)
                            ∈ dynamicallyGeneratedBuildingsRef (streaming s)))
                        (children sc)))) as E.
    cbn [dynamicallyGeneratedBuildingsRef children camera skyVisible].
    destruct (reconcileGroup _ _ _ _) as [g w2]. cbn [world snd] in *.
    now rewrite E, pending_foldl_disposeChild.
  - pose proof (pending_reconcileGroup l
                  (dynamicallyGeneratedBuildingsRef (streaming s))
                  (children sc) (world s)) as E.
    destruct (reconcileGroup _ _ _ _) as [g w2]. exact E.
Qed.

(** What the settling of a batch does to the counter and to the batches in
    flight: nothing when there is no such batch, else the batch leaves and
    the counter goes down by one. *)
Lemma settle_counter i results now s :
  settle i results now s = s
  \/ (i < List.length (pending (world s)))%nat
     /\ activeClusterRequestsRef (streaming (settle i results now s))
        = (activeClusterRequestsRef (streaming s) - 1)%Z
     /\ pending (world (settle i results now s))
        = delete i (pending (world s)).
Proof.
  unfold settle. destruct (pending (world s) !! i) as [batch|] eqn:Eb;
    [|now left].
  destruct (Nat.eqb _ _); [|now left]. right.
  split; [eapply lookup_lt_Some; eassumption|].
  unfold settleBatch. cbn [scene withWorld].
  destruct (scene s) as [sc|]; [|split; reflexivity].
  cbn [world withWorld streaming].
  pose proof (pending_foldl_applyResult now (zip (targetCenters batch) results)
                (children sc) (dynamicallyGeneratedBuildingsRef (streaming s))
                (withPending (world s) (delete i (pending (world s))))) as E.
  destruct (foldl (applyResult now) _ _) as [[g d] w]. cbn [snd] in E.
  split; [reflexivity | exact E].
Qed.

Lemma pending_capture o now s :
  pending (world (handleCanvasClickAndCapture o now s)) = pending (world s).
Proof.
  unfold handleCanvasClickAndCapture. destruct (scene s); [|reflexivity].
  destruct (isCapturingRef s); [reflexivity|].
  unfold renderPhase.
  repeat match goal with
         | |- context [if ?c then _ else _] => destruct c
         end; reflexivity.
Qed.

Section InFlight.
Context `{JSLib}.

Lemma animate_counter t r s :
  counterMatchesBatches s -> counterMatchesBatches (animate t r s).
Proof.
  intros [Hc Hb]. unfold counterMatchesBatches.
  destruct (animate_streaming t r s)
    as [[Es Ep]|(cam & c & b & k & _ & Hlt & Es & Ep)]; rewrite Es, Ep.
  - now split.
  - cbn [activeClusterRequestsRef]. rewrite length_app. simpl.
    unfold MAX_ACTIVE_CLUSTER_REQUESTS in Hlt. split; lia.
Qed.

Lemma landscapeEffect_counter l s :
  scene s = None
  \/ dynamicallyGeneratedBuildingsRef (streaming s) = ∅
  \/ pending (world s) = [] ->
  counterMatchesBatches s -> counterMatchesBatches (landscapeEffect l s).
Proof.
  intros Hcase [Hc Hb]. unfold counterMatchesBatches.
  rewrite pending_landscapeEffect.
  destruct Hcase as [Hnone | [Hempty | Hidle]].
  - unfold landscapeEffect. rewrite Hnone. now split.
  - destruct (scene s) as [sc|] eqn:Hsc.
    + rewrite (landscapeEffect_static l s sc Hsc Hempty). now split.
    + unfold landscapeEffect. rewrite Hsc. now split.
  - destruct (landscapeEffect_streaming l s) as [->| ->]; [now split|].
    rewrite Hidle in *. simpl. split; [reflexivity | lia].
Qed.

Lemma step_counter s e :
  match e with
  | Landscape _ =>
      scene s = None
      \/ dynamicallyGeneratedBuildingsRef (streaming s) = ∅
      \/ pending (world s) = []
  | _ => True
  end ->
  counterMatchesBatches s -> counterMatchesBatches (step s e).
Proof.
  intros Hidle Hs. destruct (inputEvent e) eqn:Ei.
  { destruct (input_event_only_input s e Ei) as [i' ->]. exact Hs. }
  destruct e as [w h r| | | | | | | | | | | |w h|t r|i results now|l|o now];
    try discriminate; simpl.
  - unfold mount. now apply animate_counter.
  - unfold unmount, counterMatchesBatches. destruct (scene s); [|exact Hs].
    cbn [world streaming withWorld withScene].
    now rewrite pending_foldl_disposeChild.
  - unfold handleResize. destruct (scene s); exact Hs.
  - now apply animate_counter.
  - destruct Hs as [Hc Hb]. unfold counterMatchesBatches.
    destruct (settle_counter i results now s) as [->|(Hi & Ec & Ep)];
      [now split|].
    rewrite Ec, Ep, length_delete by (now apply lookup_lt_is_Some_2).
    split; lia.
  - now apply landscapeEffect_counter.
  - unfold counterMatchesBatches.
    now rewrite capture_streaming, pending_capture.
Qed.

(** X1. As long as no change of the Landscape resets the counter of a
    batch in flight (each finds the scene unmounted, no streamed element
    registered, or no batch in flight; the Landscape an instance is given
    when it is mounted finds no streamed element), the in-flight counter is
    the number of batches in flight and at most one batch is in flight: the
    counter goes up by one when a batch is issued, which needs it to be
    below 1, and down by one when the batch settles. *)
Theorem counter_counts_the_batches_a_regeneration_does_not_lose
    (events : list Event) :
  regenerationsLoseNoBatch initialState events ->
  counterMatchesBatches (run events).
Proof.
  unfold run.
  assert (Hinit : counterMatchesBatches initialState)
    by (split; [reflexivity | simpl; lia]).
  revert Hinit. generalize initialState.
  induction events as [|e events IH]; intros s Hs Hidle; [exact Hs|].
  destruct Hidle as [He Hrest]. cbn [foldl].
  apply IH; [|exact Hrest]. now apply step_counter.
Qed.

(** The dynamic-id set is empty when the setup effect has run on the
    initial refs. *)
Lemma mount_no_dynamic_ids w h r :
  dynamicallyGeneratedBuildingsRef (streaming (mount w h r initialState)) = ∅.
Proof.
  unfold mount.
  destruct (animate_streaming 0 r
              (withInput
                 (withScene initialState
                    (Some (mkScene
                             (mkCamera
                                (mkVector3 0 HIGH_ANGLE_INITIAL_CAMERA_Y
                                   HIGH_ANGLE_INITIAL_CAMERA_Z)
                                (cameraFovRef (input initialState))
                                (w / Qmax 1 h)) true [])))
                 (withAzimuth (input initialState) 0)))
    as [[-> _]|(? & ? & ? & ? & _ & _ & -> & _)]; reflexivity.
Qed.

(** The histories of an instance in the program are of this kind: it is
    mounted, given its Landscape in the same commit, and given no other
    one. *)
Lemma mounted_once_loses_no_batch w h r l (rest : list Event) :
  Forall (fun e => match e with Landscape _ => False | _ => True end) rest ->
  regenerationsLoseNoBatch initialState (Mount w h r :: Landscape l :: rest).
Proof.
  intros Hrest. cbn [regenerationsLoseNoBatch step].
  split; [exact I|]. split; [right; left; apply mount_no_dynamic_ids|].
  generalize (landscapeEffect l (mount w h r initialState)).
  induction Hrest as [|e rest He _ IH]; intros s; [exact I|].
  cbn [regenerationsLoseNoBatch]. split; [|apply IH].
  destruct e; try exact I. contradiction.
Qed.
End InFlight.

(** What a change of the Landscape would do to a mounted instance that
    has streamed elements and a batch in flight (the program makes no such
    change, see the program below). The history: the scene is mounted and
    the first frame issues batch A; A settles with one building; the view
    is turned right twice; the next frame issues batch B, 600 units to the
    right; a new Landscape arrives while B is in flight and resets the
    counter to 0; the next frame issues batch C. B and C are then in
    flight together, with the counter at 1, and once both have settled the
    counter is -1. *)
Theorem two_batches_in_flight_after_regeneration :
  let history :=
    [Mount 16 9 0;
     Settle 0 [fulfilled (Some [sampleBox "dyn_c0_a" 0 0])] 1;
     TurnView dir_right; TurnView dir_right;
     Frame 2 0;
     Landscape (Some sampleLandscape);
     Frame 3 0] in
  List.length (pending (world (@run rightAngles (take 5 history)))) = 1%nat
  /\ activeClusterRequestsRef (streaming (@run rightAngles (take 5 history)))
     = 1%Z
  /\ activeClusterRequestsRef (streaming (@run rightAngles (take 6 history)))
     = 0%Z
  /\ List.length (pending (world (@run rightAngles history))) = 2%nat
  /\ activeClusterRequestsRef (streaming (@run rightAngles history)) = 1%Z
  /\ activeClusterRequestsRef
       (streaming (@run rightAngles
          (history ++ [Settle 0 [fulfilled None] 4;
                       Settle 0 [fulfilled None] 5])))
     = (-1)%Z.
Proof. vm_compute. repeat split; reflexivity. Qed.

(** ** Batches in flight in the program *)

Section ProgramInFlight.
Context `{JSLib}.


Variable String_toLowerCase : string -> string.






End ProgramInFlight.


(** The Landscape the cityscape of the program is given *)

Section Typed.
Context `{JSLib}.

(** A value that [generateNewLandscape] accepts is read whole by the
    cityscape: every building has its typed view. *)
Lemma asLandscapeData_accepted parsedData :
  landscapeCondition parsedData = true ->
  exists l,
    asLandscapeData parsedData = Some l
    /\ (25 <= List.length (buildings l) <= 50)%nat.
Proof.
  intros Hc.
  destruct (landscapeCondition_true parsedData Hc)
    as (skyValue & top & horizon & bs & Hsky & Ht & Hh & Hb & Hlen & Hvalid).
  unfold asLandscapeData. rewrite Hsky, Ht, Hh, Hb.
  assert (Hall : is_Some (mapM asCityElementData bs)).
  { apply mapM_is_Some. eapply Forall_impl; [exact Hvalid|].
    intros b Hv. simpl.
    destruct (isValidBuildingElement_asCityElementData b Hv) as (d & -> & _).
    now exists d. }
  destruct Hall as [ds Hds]. rewrite Hds. cbn [option_map].
  eexists. split; [reflexivity|]. cbn [buildings].
  apply length_mapM in Hds. lia.
Qed.

Variable String_toLowerCase : string -> string.

Lemma generateNewLandscape_accepted apiKey r a parsedData :
  landscapeData (generateNewLandscape apiKey r a) = Some parsedData ->
  landscapeCondition parsedData = true.
Proof.
  unfold generateNewLandscape. destruct (negb apiKey); [discriminate|].
  destruct r as [m|jsonStr parsed]; [discriminate|].
  unfold parseLandscape. destruct parsed as [j|]; [|discriminate].
  destruct (landscapeCondition j) eqn:Hj; [|discriminate].
  now intros [= <-].
Qed.

Lemma commit_app env a' changed p :
  app (commit String_toLowerCase env a' changed p) = a'.
Proof.
  unfold commit. now destruct (cityscape p), (cityscapeRendered _ a').
Qed.

(** The cityscape of a run is given a Landscape it reads whole, or
    none. *)
Lemma runProgram_landscape_accepted apiKey env events parsedData :
  landscapeData (app (runProgram String_toLowerCase apiKey env events))
  = Some parsedData ->
  is_Some (asLandscapeData parsedData).
Proof.
  intros Hl.
  assert (Hacc : landscapeCondition parsedData = true).
  { revert Hl. unfold runProgram.
    assert (Hinit : forall j,
               landscapeData (app (initialProgram String_toLowerCase apiKey env))
               = Some j -> landscapeCondition j = true).
    { intros j. unfold initialProgram, startGeneration.
      destruct (negb apiKey); rewrite commit_app; discriminate. }
    revert Hinit. generalize (initialProgram String_toLowerCase apiKey env).
    induction events as [|e events IH]; intros p Hp; [apply Hp|].
    cbn [foldl]. apply IH. intros j.
    destruct e as [env'|r env'|b|e|k i results now]; cbn [programStep].
    - destruct (actionCalled _); [|apply Hp].
      unfold startGeneration.
      destruct (negb apiKey); rewrite commit_app; [discriminate | apply Hp].
    - destruct (isLoading (app p) && apiKey); [|apply Hp].
      unfold finishGeneration. rewrite commit_app.
      apply generateNewLandscape_accepted.
    - apply Hp.
    - destruct (browserEvent e); apply Hp.
    - apply Hp. }
  destruct (asLandscapeData_accepted parsedData Hacc) as (l & -> & _).
  now exists l.
Qed.
End Typed.

(** ** Object identities in reachable states *)

Lemma wf_nil w : uuidsWellFormed [] w.
Proof. split; constructor. Qed.

Lemma wf_same_uuids group group' w w' :
  map uuid group' = map uuid group ->
  (nextId w <= nextId w')%nat ->
  uuidsWellFormed group w -> uuidsWellFormed group' w'.
Proof.
  intros E Hn [Hnd Hlt]. unfold uuidsWellFormed. rewrite E.
  split; [exact Hnd|]. eapply Forall_impl; [exact Hlt|].
  intros u Hu. simpl in Hu. lia.
Qed.

Lemma wf_snoc group e w w' :
  uuidsWellFormed group w ->
  (nextId w <= uuid e)%nat -> (uuid e < nextId w')%nat ->
  uuidsWellFormed (group ++ [e]) w'.
Proof.
  intros [Hnd Hlt] Hlo Hhi. unfold uuidsWellFormed. rewrite map_app. simpl.
  split.
  - apply NoDup_app. split; [exact Hnd|]. split; [|apply NoDup_singleton].
    intros u Hu Hin. apply list_elem_of_singleton in Hin as ->.
    rewrite Forall_forall in Hlt. specialize (Hlt _ Hu). simpl in Hlt. lia.
  - apply Forall_app. split.
    + eapply Forall_impl; [exact Hlt|]. intros u Hu. simpl in Hu. lia.
    + now constructor.
Qed.

Lemma wf_filter p group w :
  uuidsWellFormed group w -> uuidsWellFormed (List.filter p group) w.
Proof.
  intros [Hnd Hlt]. unfold uuidsWellFormed.
  induction group as [|c group IH]; simpl; [split; constructor|].
  simpl in Hnd, Hlt. apply NoDup_cons in Hnd as [Hc Hnd].
  apply Forall_cons in Hlt as [Hc' Hlt].
  destruct (IH Hnd Hlt) as [IHnd IHlt].
  destruct (p c); simpl; [|now split]. split.
  - apply NoDup_cons. split; [|exact IHnd]. intros Hin. apply Hc.
    apply list_elem_of_fmap in Hin as (y & -> & Hy).
    apply list_elem_of_In, List.filter_In in Hy as [Hy _].
    apply list_elem_of_fmap_2. now apply list_elem_of_In.
  - now constructor.
Qed.

Lemma wf_grows group w w' :
  grows w w' -> uuidsWellFormed group w -> uuidsWellFormed group w'.
Proof. intros (_ & _ & Hn). now apply wf_same_uuids. Qed.

Lemma wf_foldl_addClusterBuilding now center bs : forall group dyn w,
  uuidsWellFormed group w ->
  uuidsWellFormed
    (foldl (addClusterBuilding now center) (group, dyn, w) bs).1.1
    (foldl (addClusterBuilding now center) (group, dyn, w) bs).2.
Proof.
  induction bs as [|b bs IH]; intros group dyn w Hwf; [exact Hwf|].
  cbn [foldl]. unfold addClusterBuilding at 2.
  unfold createOrUpdateLineSegments, buildEdges. cbn [fst snd].
  apply IH. eapply wf_snoc; [exact Hwf| |]; simpl; lia.
Qed.

Lemma wf_foldl_applyResult now entries : forall group dyn w,
  uuidsWellFormed group w ->
  uuidsWellFormed (foldl (applyResult now) (group, dyn, w) entries).1.1
    (foldl (applyResult now) (group, dyn, w) entries).2.
Proof.
  induction entries as [|[center result] entries IH]; intros group dyn w Hwf;
    cbn [foldl]; [exact Hwf|].
  destruct result as [[bs|]|]; cbn [applyResult]; try now apply IH.
  pose proof (wf_foldl_addClusterBuilding now center bs group dyn w Hwf) as E.
  destruct (foldl (addClusterBuilding now center) (group, dyn, w) bs)
    as [[g1 d1] w1].
  now apply IH.
Qed.

Lemma wf_reconcileBuilding dyn b group w :
  uuidsWellFormed group w ->
  uuidsWellFormed (reconcileBuilding dyn (group, w) b).1
    (reconcileBuilding dyn (group, w) b).2.
Proof.
  intros Hwf. unfold reconcileBuilding.
  destruct (bool_decide _); [exact Hwf|].
  destruct (updateFirst b group w) as [[g1 w1]|] eqn:Eu.
  - apply updateFirst_Some in Eu as (before & c & after & -> & _ & _ & -> & ->).
    destruct (updateElement_spec b c w) as (Hu & _ & _ & _ & _ & _ & Hn & _).
    cbn [fst snd]. eapply wf_same_uuids; [| |exact Hwf].
    + rewrite !map_app. cbn [map]. now rewrite Hu.
    + lia.
  - destruct (createElement_spec b w) as (Hu & _ & _ & Hn & _).
    destruct (createOrUpdateLineSegments b None false None w) as [e w1].
    cbn [fst snd] in *. eapply wf_snoc; [exact Hwf| |]; lia.
Qed.

Lemma wf_foldl_reconcileBuilding dyn bs : forall group w,
  uuidsWellFormed group w ->
  uuidsWellFormed (foldl (reconcileBuilding dyn) (group, w) bs).1
    (foldl (reconcileBuilding dyn) (group, w) bs).2.
Proof.
  induction bs as [|b bs IH]; intros group w Hwf; cbn [foldl]; [exact Hwf|].
  pose proof (wf_reconcileBuilding dyn b group w Hwf) as E.
  destruct (reconcileBuilding dyn (group, w) b) as [g1 w1]. now apply IH.
Qed.

Lemma wf_removeWhere p group w :
  uuidsWellFormed group w ->
  uuidsWellFormed (removeWhere p group w).1 (removeWhere p group w).2.
Proof.
  intros Hwf. eapply wf_grows; [apply grows_removeWhere|].
  unfold removeWhere. cbn [fst]. now apply wf_filter.
Qed.

Lemma wf_reconcileGroup l dyn group w :
  uuidsWellFormed group w ->
  uuidsWellFormed (reconcileGroup l dyn group w).1
    (reconcileGroup l dyn group w).2.
Proof.
  intros Hwf. unfold reconcileGroup.
  destruct l as [l|]; [|now apply wf_removeWhere].
  destruct (buildings l) as [|b bs]; [now apply wf_removeWhere|].
  pose proof (wf_foldl_reconcileBuilding dyn (b :: bs) group w Hwf) as E.
  destruct (foldl (reconcileBuilding dyn) (group, w) (b :: bs)) as [g1 w1].
  now apply wf_removeWhere.
Qed.

Lemma wf_landscapeEffect l s :
  uuidsWellFormed (childrenOf s) (world s) ->
  uuidsWellFormed (childrenOf (landscapeEffect l s))
    (world (landscapeEffect l s)).
Proof.
  unfold landscapeEffect, childrenOf.
  destruct (scene s) as [sc|] eqn:Hsc; [|now rewrite Hsc].
  intros Hwf. unfold clearDynamic. destruct (Nat.ltb _ _).
  - pose proof (wf_removeWhere
                  (fun child => bool_decide
                     (ud_id (userData child)
                      ∈ dynamicallyGeneratedBuildingsRef (streaming s)))
                  (children sc) (world s) Hwf) as E.
    destruct (removeWhere _ (children sc) (world s)) as [g1 w1].
    cbn [fst snd children dynamicallyGeneratedBuildingsRef] in *.
    pose proof (wf_reconcileGroup l ∅ g1 w1 E) as E2.
    now destruct (reconcileGroup l ∅ g1 w1).
  - pose proof (wf_reconcileGroup l
                  (dynamicallyGeneratedBuildingsRef (streaming s))
                  (children sc) (world s) Hwf) as E2.
    now destruct (reconcileGroup _ _ _ _).
Qed.

Lemma wf_settle i results now s :
  uuidsWellFormed (childrenOf s) (world s) ->
  uuidsWellFormed (childrenOf (settle i results now s))
    (world (settle i results now s)).
Proof.
  intros Hwf. unfold settle.
  destruct (pending (world s) !! i) as [batch|]; [|exact Hwf].
  destruct (Nat.eqb _ _); [|exact Hwf].
  unfold settleBatch, childrenOf in *. cbn [scene withWorld].
  destruct (scene s) as [sc|] eqn:Hsc.
  - cbn [world withWorld streaming].
    pose proof (wf_foldl_applyResult now (zip (targetCenters batch) results)
                  (children sc)
                  (dynamicallyGeneratedBuildingsRef (streaming s))
                  (withPending (world s) (delete i (pending (world s)))))
      as E.
    destruct (foldl (applyResult now) _ _) as [[g d] w]. apply E.
    eapply wf_same_uuids; [reflexivity| |exact Hwf]. reflexivity.
  - cbn [scene withStreaming withWorld]. rewrite Hsc. apply wf_nil.
Qed.

Lemma map_uuid_preserved (f : LineSegments -> LineSegments) group :
  (forall c, uuid (f c) = uuid c) -> map uuid (map f group) = map uuid group.
Proof.
  intros Hf. induction group as [|c group IH]; simpl; [reflexivity|].
  now rewrite Hf, IH.
Qed.

Lemma uuid_fadeIn t c : uuid (fadeIn t c) = uuid c.
Proof.
  unfold fadeIn. destruct (_ && _); [|reflexivity].
  destruct (creationTime (userData c)); [|reflexivity].
  now destruct (Qle_bool _ _).
Qed.

Lemma uuid_restoreElement colors now c : uuid (restoreElement colors now c) = uuid c.
Proof.
  unfold restoreElement, restoreColor. cbn [userData withMaterial].
  destruct (_ && _).
  - now destruct (creationTime (userData c)).
  - now destruct (_ && _).
Qed.

Lemma wf_capture o now s :
  uuidsWellFormed (childrenOf s) (world s) ->
  uuidsWellFormed (childrenOf (handleCanvasClickAndCapture o now s))
    (world (handleCanvasClickAndCapture o now s)).
Proof.
  intros Hwf. unfold handleCanvasClickAndCapture, childrenOf in *.
  destruct (scene s) as [sc|] eqn:Hsc; [|now rewrite Hsc].
  destruct (isCapturingRef s); [now rewrite Hsc|].
  unfold renderPhase, cleanupPhase.
  repeat match goal with
         | |- context [if ?c then _ else _] => destruct c
         end;
    cbn [scene world children withSkyVisible withChildren withAspect];
    (eapply wf_same_uuids; [| |exact Hwf]; [|reflexivity]);
    repeat (rewrite map_uuid_preserved;
            [|intros; try apply uuid_restoreElement; reflexivity]);
    reflexivity.
Qed.

Section Identities.
Context `{JSLib}.

Lemma wf_animate t r s :
  uuidsWellFormed (childrenOf s) (world s) ->
  uuidsWellFormed (childrenOf (animate t r s)) (world (animate t r s)).
Proof.
  intros Hwf. unfold animate, childrenOf in *.
  destruct (scene s) as [sc|] eqn:Hsc; [|now rewrite Hsc].
  destruct (isCapturingRef s); [now rewrite Hsc|].
  match goal with
  | |- context [if ?c then _ else _] => destruct c
  end.
  - destruct (subClusters _ _ _ _ _ _) as [[cs ps] k].
    cbn [scene world children].
    eapply wf_same_uuids; [| |exact Hwf]; [|reflexivity].
    apply map_uuid_preserved, uuid_fadeIn.
  - cbn [scene world children].
    eapply wf_same_uuids; [| |exact Hwf]; [|reflexivity].
    apply map_uuid_preserved, uuid_fadeIn.
Qed.

Lemma step_wf s e :
  uuidsWellFormed (childrenOf s) (world s) ->
  uuidsWellFormed (childrenOf (step s e)) (world (step s e)).
Proof.
  intros Hs. destruct (inputEvent e) eqn:Ei.
  { destruct (input_event_only_input s e Ei) as [i' ->]. exact Hs. }
  destruct e as [w h r| | | | | | | | | | | |w h|t r|i results now|l|o now];
    try discriminate; simpl.
  - unfold mount. apply wf_animate. apply wf_nil.
  - unfold unmount, childrenOf. destruct (scene s) eqn:Hsc; [apply wf_nil|].
    unfold childrenOf in Hs. now rewrite Hsc in *.
  - unfold handleResize. destruct (scene s) as [sc|] eqn:Hsc; [|exact Hs].
    unfold childrenOf in *. rewrite Hsc in Hs. exact Hs.
  - now apply wf_animate.
  - now apply wf_settle.
  - now apply wf_landscapeEffect.
  - now apply wf_capture.
Qed.

(** X2. In every reachable state the children of the group are different
    objects, all allocated before the next id. *)
Lemma reachable_uuidsWellFormed (events : list Event) :
  uuidsWellFormed (childrenOf (run events)) (world (run events)).
Proof.
  apply (run_invariant
           (fun s => uuidsWellFormed (childrenOf s) (world s))).
  - apply wf_nil.
  - intros s e. apply step_wf.
Qed.
End Identities.

(** * Further properties of the code *)

(** ** The acceptance criteria are exact *)

Lemma typeof_string_iff v :
  JSType_eqb (typeof v) t_string = true <-> exists s, v = Some (JString s).
Proof.
  split; [apply typeof_string|]. now intros [s ->].
Qed.

Section Acceptance.
Context `{JSLib}.

Lemma landscapeCondition_complete parsedData top horizon bs :
  get (get (Some parsedData) "sky") "topColor" = Some (JString top) ->
  get (get (Some parsedData) "sky") "horizonColor" = Some (JString horizon) ->
  get (Some parsedData) "buildings" = Some (JArray bs) ->
  (25 <= List.length bs <= 50)%nat ->
  Forall (fun b => isValidBuildingElement b = true) bs ->
  landscapeCondition parsedData = true.
Proof.
  intros Ht Hh Hb [Hmin Hmax] Hvalid.
  unfold landscapeCondition.
  destruct parsedData as [| | | | |fs]; try discriminate.
  rewrite Ht, Hh, Hb. cbn [typeof JSType_eqb].
  destruct (get (Some (JObject fs)) "sky") as [[| | | | |skyFields]|] eqn:Hsky;
    try discriminate.
  cbn [truthyJ andb]. unfold minBuildings, maxBuildings.
  rewrite (proj2 (Nat.leb_le _ _) Hmin), (proj2 (Nat.leb_le _ _) Hmax).
  cbn [andb]. apply forallb_forall. intros b Hin.
  rewrite Forall_forall in Hvalid. apply Hvalid. now apply list_elem_of_In.
Qed.

(** X3. With an API key, a parsed response is accepted as the Landscape
    exactly when its sky has string top and horizon colours and its
    buildings are an array of 25 to 50 elements that all pass
    [isValidBuildingElement]; the state is then the parsed value, not
    loading, no error. A parsed array is accepted as a cluster exactly when
    it has 5 to 8 elements that all pass the same validation. *)
Theorem acceptance_criteria_are_exact (jsonStr : string) (parsedData : JSON)
    (items : list JSON) (prefix : string) (s : AppState) :
  (generateNewLandscape true (ApiText jsonStr (Some parsedData)) s
   = mkAppState (Some parsedData) false None
   <-> exists top horizon bs,
         get (get (Some parsedData) "sky") "topColor" = Some (JString top)
         /\ get (get (Some parsedData) "sky") "horizonColor"
            = Some (JString horizon)
         /\ get (Some parsedData) "buildings" = Some (JArray bs)
         /\ (25 <= List.length bs <= 50)%nat
         /\ Forall (fun b => isValidBuildingElement b = true) bs)
  /\ (generateBuildingCluster true prefix (ApiText jsonStr (Some (JArray items)))
      = Some (map (prefixId prefix) items)
      <-> (5 <= List.length items <= 8)%nat
          /\ Forall (fun b => isValidBuildingElement b = true) items).
Proof.
  split; split.
  - unfold generateNewLandscape, parseLandscape. cbn [negb].
    destruct (landscapeCondition parsedData) eqn:Hc; [|discriminate].
    intros _.
    destruct (landscapeCondition_true _ Hc)
      as (skyValue & top & horizon & bs & Hsky & Ht & Hh & Hb & Hlen & Hv).
    exists top, horizon, bs. rewrite Hsky. auto.
  - intros (top & horizon & bs & Ht & Hh & Hb & Hlen & Hv).
    unfold generateNewLandscape, parseLandscape. cbn [negb].
    now rewrite (landscapeCondition_complete _ _ _ _ Ht Hh Hb Hlen Hv).
  - unfold generateBuildingCluster. cbn [negb].
    destruct (Nat.leb 5 (List.length items)) eqn:H5; [|discriminate].
    destruct (Nat.leb (List.length items) 8) eqn:H8; [|discriminate].
    destruct (forallb isValidBuildingElement items) eqn:Hv; [|discriminate].
    intros _. apply Nat.leb_le in H5, H8. split; [lia|].
    rewrite Forall_forall. intros b Hin.
    rewrite forallb_forall in Hv. apply Hv. now apply list_elem_of_In.
  - intros [[H5 H8] Hv].
    unfold generateBuildingCluster. cbn [negb].
    rewrite (proj2 (Nat.leb_le _ _) H5), (proj2 (Nat.leb_le _ _) H8).
    cbn [andb].
    replace (forallb isValidBuildingElement items) with true; [reflexivity|].
    symmetry. apply forallb_forall. intros b Hin.
    rewrite Forall_forall in Hv. apply Hv. now apply list_elem_of_In.
Qed.
End Acceptance.

(** ** The error message of a rejected response *)

Lemma length_substring_0 n : forall s,
  (n <= String.length s)%nat -> String.length (String.substring 0 n s) = n.
Proof.
  induction n as [|n IH]; intros [|c s] Hn; simpl in *; try lia; try reflexivity.
  rewrite IH; lia.
Qed.

Lemma length_append (a b : string) :
  String.length (String.append a b) = (String.length a + String.length b)%nat.
Proof. induction a as [|c a IH]; simpl; [reflexivity | now rewrite IH]. Qed.

Lemma substring_append_skip (a : string) : forall b k n,
  String.substring (String.length a + k) n (String.append a b)
  = String.substring k n b.
Proof. induction a as [|c a IH]; intros b k n; simpl; [reflexivity | apply IH]. Qed.

Lemma includes_append_r (a b sub : string) :
  sub <> ""%string -> includes b sub = true ->
  includes (String.append a b) sub = true.
Proof.
  intros Hsub. unfold includes.
  destruct (String.index 0 sub b) as [k|] eqn:Hb; [intros _|discriminate].
  destruct (String.index 0 sub (String.append a b)) as [m|] eqn:Hab;
    [reflexivity|].
  exfalso.
  pose proof (String.index_correct1 _ _ _ _ Hb) as Hk.
  destruct a as [|c a];
    [change (String.append EmptyString b) with b in Hab; congruence|].
  refine (String.index_correct3 0 (String.length (String c a) + k) sub _ Hab
            Hsub _ _).
  - simpl. lia.
  - now rewrite substring_append_skip.
Qed.


Lemma rawResponseLog_length jsonStr :
  (String.length (rawResponseLog jsonStr) <= 2000)%nat.
Proof.
  unfold rawResponseLog.
  destruct (Nat.ltb (String.length jsonStr) 2000) eqn:Hlt.
  - apply Nat.ltb_lt in Hlt. lia.
  - apply Nat.ltb_ge in Hlt.
    rewrite length_append, length_substring_0 by lia. simpl. lia.
Qed.

(** X4. When a response is rejected the state holds no Landscape, is not
    loading and shows an error of at most 2077 characters, whatever the
    length of the response: the response is echoed up to 2000 characters.
    When the response is shorter than 2000 characters and contains
    'API key not valid', the error shown is the invalid-key message. *)
Theorem rejected_response_is_echoed_in_a_bounded_message `{JSLib}
    (jsonStr : string) (parsed : option JSON) (s : AppState) :
  landscapeData (generateNewLandscape true (ApiText jsonStr parsed) s) = None ->
  exists shown,
    generateNewLandscape true (ApiText jsonStr parsed) s
    = mkAppState None false (Some shown)
    /\ (String.length shown <= 2077)%nat
    /\ ((String.length jsonStr < 2000)%nat ->
        includes jsonStr "API key not valid" = true ->
        shown = "API Key is not valid. Please check your configuration."%string).
Proof.
  unfold generateNewLandscape. cbn [negb].
  assert (Hm : parseLandscape jsonStr parsed
               = inr (String.append
                        "Failed to parse landscape data from API. Invalid JSON structure. Raw: "
                        (rawResponseLog jsonStr))
               \/ exists d, parseLandscape jsonStr parsed = inl d).
  { unfold parseLandscape. destruct parsed as [d|]; [|now left].
    destruct (landscapeCondition d); [right; eauto | now left]. }
  destruct Hm as [-> | [d ->]]; [intros _ | discriminate].
  eexists. split; [reflexivity|]. split.
  - unfold errorMessageOf.
    destruct (includes _ _); [vm_compute; lia|].
    rewrite !length_append.
    pose proof (rawResponseLog_length jsonStr). simpl. lia.
  - intros Hlen Hinc. unfold errorMessageOf.
    rewrite includes_append_r; [reflexivity | discriminate |].
    unfold rawResponseLog.
    now rewrite (proj2 (Nat.ltb_lt _ _) Hlen).
Qed.

Lemma rejected_response_is_echoed_in_a_bounded_message_witness :
  let r := ApiText "API key not valid" None in
  landscapeData (@generateNewLandscape rightAngles true r emptyAppState) = None
  /\ @generateNewLandscape rightAngles true r emptyAppState
     = mkAppState None false
         (Some "API Key is not valid. Please check your configuration.").
Proof.
  intros r.
  assert (Hnone : landscapeData
                    (@generateNewLandscape rightAngles true r emptyAppState)
                  = None) by reflexivity.
  split; [exact Hnone|].
  destruct (@rejected_response_is_echoed_in_a_bounded_message rightAngles
              "API key not valid" None emptyAppState Hnone)
    as (shown & Hshown & _ & Hkey).
  subst r. rewrite Hshown.
  rewrite Hkey; [reflexivity | simpl; lia | reflexivity].
Defined.

(** ** The ids of an accepted cluster *)

Lemma lookupField_setField_same k v fs :
  lookupField k (setField k v fs) = Some v.
Proof.
  induction fs as [|[k' v'] fs IH]; simpl.
  - now rewrite String.eqb_refl.
  - destruct (String.eqb k k') eqn:E; simpl; rewrite ?String.eqb_refl, ?E; auto.
Qed.

Lemma lookupField_setField_other k k0 v fs :
  String.eqb k k0 = false ->
  lookupField k (setField k0 v fs) = lookupField k fs.
Proof.
  intros Hk. induction fs as [|[k' v'] fs IH]; simpl.
  - now rewrite Hk.
  - destruct (String.eqb k0 k') eqn:E; simpl.
    + apply String.eqb_eq in E. subst k'. now rewrite Hk.
    + now rewrite IH.
Qed.

Lemma asCityElementData_prefixId `{JSLib} prefix el d :
  asCityElementData el = Some d ->
  asCityElementData (prefixId prefix el)
  = Some (withId d (String.append prefix (el_id d))).
Proof.
  unfold asCityElementData.
  destruct el as [| | | | |fs]; try discriminate.
  unfold prefixId. cbn [get].
  destruct (lookupField "id" fs) as [[| | |i| |]|] eqn:Hid; try discriminate.
  cbn [get].
  rewrite lookupField_setField_same.
  rewrite !(lookupField_setField_other _ "id") by reflexivity.
  destruct (asNumber (get (lookupField "position" fs) "x")) as [x|];
    [|discriminate].
  destruct (asNumber (get (lookupField "position" fs) "y")) as [y|];
    [|discriminate].
  destruct (asNumber (get (lookupField "position" fs) "z")) as [z|];
    [|discriminate].
  destruct (asNumber (get (lookupField "dimensions" fs) "height")) as [h|];
    [|discriminate].
  intros [= <-]. reflexivity.
Qed.

(** X5. The cluster [generateBuildingCluster] resolves to is the parsed
    array element by element: each element reads as the same building
    (shape, position, dimensions, orientation) with the cluster prefix put
    before its id; it stands on the ground and has a positive height. *)
Theorem accepted_cluster_differs_from_the_response_in_ids_only `{JSLib}
    (apiKey : bool) (prefix : string) (r : ApiResponse) (cluster : list JSON) :
  generateBuildingCluster apiKey prefix r = Some cluster ->
  exists jsonStr bs,
    r = ApiText jsonStr (Some (JArray bs))
    /\ Forall2
         (fun b c =>
            exists d,
              asCityElementData b = Some d
              /\ asCityElementData c
                 = Some (withId d (String.append prefix (el_id d)))
              /\ vy (position d) == 0
              /\ 0 < height (dimensions d))
         bs cluster.
Proof.
  unfold generateBuildingCluster.
  destruct apiKey; [cbn [negb]|discriminate].
  destruct r as [m|jsonStr [[| | | |bs|]|]]; try discriminate.
  destruct (Nat.leb 5 (List.length bs) && Nat.leb (List.length bs) 8) eqn:Hl;
    [|discriminate].
  destruct (forallb isValidBuildingElement bs) eqn:Hv; [|discriminate].
  cbn [andb]. intros [= <-]. exists jsonStr, bs. split; [reflexivity|].
  rewrite forallb_forall in Hv.
  clear Hl. induction bs as [|b bs IH]; [constructor|].
  cbn [map]. constructor.
  - destruct (isValidBuildingElement_asCityElementData b) as (d & Hd & _ & Hy & Hh & _).
    { apply Hv. now left. }
    exists d. repeat split; auto using asCityElementData_prefixId.
  - apply IH. intros x Hx. apply Hv. now right.
Qed.

Lemma accepted_cluster_differs_from_the_response_in_ids_only_witness :
  let r := ApiText "[]" (Some sampleClusterJSON) in
  let cluster :=
    map (prefixId "dyn_c0_") (repeat (sampleBuildingJSON "bld_part_001") 5) in
  @generateBuildingCluster rightAngles true "dyn_c0_" r = Some cluster
  /\ exists jsonStr bs,
       r = ApiText jsonStr (Some (JArray bs))
       /\ List.length bs = List.length cluster.
Proof.
  intros r cluster.
  assert (Hc : @generateBuildingCluster rightAngles true "dyn_c0_" r
               = Some cluster) by (vm_compute; reflexivity).
  split; [exact Hc|].
  destruct (@accepted_cluster_differs_from_the_response_in_ids_only
              rightAngles true "dyn_c0_" r cluster Hc)
    as (jsonStr & bs & Hr & Hall).
  exists jsonStr, bs. split; [exact Hr | exact (Forall2_length _ _ _ Hall)].
Defined.

(** ** Turning, zooming and pinching *)

Lemma clampFov_cases v :
  (v <= MIN_FOV /\ clampFov v == MIN_FOV)
  \/ (MIN_FOV <= v <= MAX_FOV /\ clampFov v == v)
  \/ (MAX_FOV <= v /\ clampFov v == MAX_FOV).
Proof.
  unfold clampFov.
  destruct (Qlt_le_dec v MIN_FOV) as [Hlo|Hlo].
  - left. split; [lra|].
    rewrite Q.max_l; [reflexivity|].
    apply Qle_trans with v; [apply Q.le_min_r | lra].
  - destruct (Qlt_le_dec MAX_FOV v) as [Hhi|Hhi].
    + right. right. split; [lra|].
      rewrite Q.min_l by lra. rewrite Q.max_r; [reflexivity|].
      unfold MIN_FOV, MAX_FOV. lra.
    + right. left. split; [lra|].
      rewrite Q.min_r by lra. now rewrite Q.max_r.
Qed.

Lemma withInput_withInput s i j : withInput (withInput s i) j = withInput s j.
Proof. reflexivity. Qed.

Lemma inject_Z_S n : inject_Z (Z.of_nat (S n)) == inject_Z (Z.of_nat n) + 1.
Proof. rewrite Nat2Z.inj_succ. unfold Z.succ. rewrite inject_Z_plus. reflexivity. Qed.

Section Turning.
Context `{JSLib}.

(** X6. Any sequence of [turnViewDirection] commands changes nothing but the
    azimuth, which moves by a quarter of pi for every turn to the right
    and back by as much for every turn to the left; a turn to the left
    undoes a turn to the right. *)
Theorem turns_of_the_view_add_up (ds : list Direction) (s : State) :
  exists a,
    foldl step s (map TurnView ds) = withInput s (withAzimuth (input s) a)
    /\ a == cameraAzimuthAngleRef (input s)
            + (turnsTo dir_right ds - turnsTo dir_left ds) * (Math_PI / 4).
Proof.
  revert s. induction ds as [|d ds IH]; intros s.
  - exists (cameraAzimuthAngleRef (input s)). split.
    + now destruct s as [sc c [] r w].
    + unfold turnsTo. simpl. ring.
  - cbn [map foldl step].
    destruct (IH (turnViewDirection d s)) as (a & -> & Ha).
    exists a. split; [now destruct d|].
    rewrite Ha. unfold turnsTo. destruct d; cbn [List.filter List.length];
      rewrite inject_Z_S; simpl; ring.
Qed.

(** X7. On a reachable mounted state, [zoomCameraByFactor] never lowers the
    target field of view for a factor that is not negative and never
    raises it for one that is not positive; a factor of 1 or more sets it
    to 90, a factor of -1 or less to 30, and a change that stays within
    [[30, 90]] is applied as it is (60 times the factor). *)
Theorem zoom_is_monotone_and_saturates (events : list Event) (factor : Q) :
  is_Some (scene (run events)) ->
  let before := cameraFovRef (input (run events)) in
  let after := cameraFovRef (input (zoomCameraByFactor factor (run events))) in
  (0 <= factor -> before <= after)
  /\ (factor <= 0 -> after <= before)
  /\ (1 <= factor -> after == 90)
  /\ (factor <= -1 -> after == 30)
  /\ (30 <= before + 60 * factor -> before + 60 * factor <= 90 ->
      after == before + 60 * factor).
Proof.
  intros [sc Hsc] before after.
  assert (Hafter : after = clampFov (before + DEFAULT_FOV * factor)).
  { unfold after, zoomCameraByFactor. now rewrite Hsc. }
  pose proof (reachable_fovInRange events) as [Hlo Hhi].
  fold before in Hlo, Hhi. rewrite Hafter. clear Hafter after.
  unfold MIN_FOV, MAX_FOV, DEFAULT_FOV in *.
  destruct (clampFov_cases (before + 60 * factor)) as [[Hv ->]|[[Hv ->]|[Hv ->]]];
    unfold MIN_FOV, MAX_FOV in *; repeat split; intros; lra.
Qed.
End Turning.

Section Pinch.
Context `{JSLib}.

Lemma touchMoveHandler_keeps rect touches s :
  scene (touchMoveHandler rect touches s) = scene s
  /\ initialPinchDistanceRef (input (touchMoveHandler rect touches s))
     = initialPinchDistanceRef (input s)
  /\ initialFovAtPinchStartRef (input (touchMoveHandler rect touches s))
     = initialFovAtPinchStartRef (input s).
Proof.
  unfold touchMoveHandler, updateNormalizedPointerX.
  destruct (scene s) as [sc|] eqn:Hsc; [|now rewrite Hsc].
  destruct touches as [|t0 [|t1 [|t2 ts]]];
    destruct (initialPinchDistanceRef (input s)) as [d|] eqn:Hd;
    destruct (initialFovAtPinchStartRef (input s)) as [f|] eqn:Hf;
    cbn; rewrite ?Hsc; cbn; try (destruct (Qeq_bool d 0)); cbn; auto.
Qed.

Lemma touchMoves_keeps moves : forall s,
  scene (touchMoves moves s) = scene s
  /\ initialPinchDistanceRef (input (touchMoves moves s))
     = initialPinchDistanceRef (input s)
  /\ initialFovAtPinchStartRef (input (touchMoves moves s))
     = initialFovAtPinchStartRef (input s).
Proof.
  unfold touchMoves.
  induction moves as [|m moves IH]; intros s; [easy|].
  cbn [foldl].
  destruct (IH (touchMoveHandler m.1 m.2 s)) as (-> & -> & ->).
  apply touchMoveHandler_keeps.
Qed.

Lemma touchMoveHandler_fov_without_pinch rect touches s :
  (initialPinchDistanceRef (input s) = None
   \/ exists d, initialPinchDistanceRef (input s) = Some d /\ d == 0) ->
  cameraFovRef (input (touchMoveHandler rect touches s))
  = cameraFovRef (input s).
Proof.
  intros Hp. unfold touchMoveHandler, updateNormalizedPointerX.
  destruct (scene s) as [sc|] eqn:Hsc; [|reflexivity].
  destruct Hp as [Hp|(d & Hp & Hd)]; rewrite Hp.
  - destruct touches as [|t0 [|t1 [|t2 ts]]]; cbn; rewrite ?Hsc; reflexivity.
  - apply Qeq_bool_iff in Hd.
    destruct touches as [|t0 [|t1 [|t2 ts]]];
      destruct (initialFovAtPinchStartRef (input s));
      cbn; rewrite ?Hsc, ?Hd; reflexivity.
Qed.

Lemma touchMoves_fov_without_pinch moves : forall s,
  (initialPinchDistanceRef (input s) = None
   \/ exists d, initialPinchDistanceRef (input s) = Some d /\ d == 0) ->
  cameraFovRef (input (touchMoves moves s)) = cameraFovRef (input s).
Proof.
  unfold touchMoves.
  induction moves as [|m moves IH]; intros s Hp; [reflexivity|].
  cbn [foldl]. rewrite IH.
  - now apply touchMoveHandler_fov_without_pinch.
  - now destruct (touchMoveHandler_keeps m.1 m.2 s) as (_ & -> & _).
Qed.

(** X8. A pinch zooms relative to its start: after a two-finger touch start
    and any touch moves, a two-finger move sets the target field of view
    to the value at the start times the ratio of the finger spreads,
    clamped; back at the starting spread the value at the start is
    restored. When the starting spread is zero no move of the gesture
    changes the field of view. *)
Theorem pinch_zoom_is_relative_to_its_start (events : list Event)
    (rect rect' : DOMRect) (t0 t1 u0 u1 : Touch)
    (moves : list (DOMRect * list Touch)) :
  is_Some (scene (run events)) ->
  let s := run events in
  let spread := calculateTouchDistance t0 t1 in
  let spread' := calculateTouchDistance u0 u1 in
  let final :=
    touchMoveHandler rect' [u0; u1]
      (touchMoves moves (touchStartHandler rect [t0; t1] s)) in
  (~ spread == 0 ->
   cameraFovRef (input final)
   = clampFov (cameraFovRef (input s) * (spread' / spread))
   /\ (spread' == spread ->
       cameraFovRef (input final) == cameraFovRef (input s)))
  /\ (spread == 0 -> cameraFovRef (input final) = cameraFovRef (input s)).
Proof.
  intros [sc Hsc] s spread spread' final.
  change (scene s = Some sc) in Hsc.
  pose (started := withInput s
                     (withMouseX (withPinch (input s) (Some spread)
                                    (Some (cameraFovRef (input s)))) 0)).
  assert (Hfinal : final = touchMoveHandler rect' [u0; u1]
                             (touchMoves moves started)).
  { unfold final, touchStartHandler. now rewrite Hsc. }
  destruct (touchMoves_keeps moves started) as (Hscene & Hd & Hf).
  cbn in Hscene, Hd, Hf. rewrite Hfinal. clear Hfinal final.
  split.
  - intros Hne.
    assert (Hfov : cameraFovRef
                     (input (touchMoveHandler rect' [u0; u1]
                               (touchMoves moves started)))
                   = clampFov (cameraFovRef (input s) * (spread' / spread))).
    { unfold touchMoveHandler. rewrite Hscene, Hsc, Hd, Hf.
      destruct (Qeq_bool spread 0) eqn:Hz;
        [apply Qeq_bool_iff in Hz; contradiction | reflexivity]. }
    split; [exact Hfov|].
    intros Hsame. rewrite Hfov.
    assert (Hone : cameraFovRef (input s) * (spread' / spread)
                   == cameraFovRef (input s)).
    { rewrite Hsame. field. exact Hne. }
    pose proof (reachable_fovInRange events) as Hr.
    change (fovInRange (cameraFovRef (input s))) in Hr.
    destruct (clampFov_cases (cameraFovRef (input s) * (spread' / spread)))
      as [[Hv ->]|[[Hv ->]|[Hv ->]]]; destruct Hr;
      unfold MIN_FOV, MAX_FOV in *; lra.
  - intros Hz.
    rewrite touchMoveHandler_fov_without_pinch,
      touchMoves_fov_without_pinch.
    + reflexivity.
    + right. exists spread. now split.
    + right. exists spread. rewrite Hd. now split.
Qed.
End Pinch.

Lemma pinch_zoom_is_relative_to_its_start_witness :
  let events := [Mount 16 9 0] in
  let rect := mkDOMRect 0 800 in
  let t0 := mkTouch 0 0 in
  let t1 := mkTouch 3 4 in
  let u1 := mkTouch 6 8 in
  is_Some (scene (@run rightAngles events))
  /\ ~ @calculateTouchDistance rightAngles t0 t1 == 0
  /\ cameraFovRef
       (input (@touchMoveHandler rightAngles rect [t0; u1]
                 (@touchMoves rightAngles []
                    (@touchStartHandler rightAngles rect [t0; t1]
                       (@run rightAngles events)))))
     = clampFov (cameraFovRef (input (@run rightAngles events)) * (10 / 5)).
Proof.
  intros events rect t0 t1 u1.
  assert (Hm : is_Some (scene (@run rightAngles events)))
    by (vm_compute; eexists; reflexivity).
  assert (Hne : ~ @calculateTouchDistance rightAngles t0 t1 == 0)
    by (vm_compute; discriminate).
  split; [exact Hm|]. split; [exact Hne|].
  exact (proj1 (proj1 (@pinch_zoom_is_relative_to_its_start rightAngles
                         events rect rect t0 t1 t0 u1 [] Hm) Hne)).
Defined.

(** ** One frame of flight *)

Lemma settle_cameraPosition i results now s :
  cameraPositionOf (settle i results now s) = cameraPositionOf s.
Proof.
  unfold settle. destruct (pending (world s) !! i); [|easy].
  destruct (Nat.eqb _ _); [|easy].
  unfold settleBatch, cameraPositionOf. cbn [scene withWorld].
  destruct (scene s) as [sc|] eqn:Hsc;
    [|cbn [scene withStreaming withWorld]; now rewrite Hsc].
  now destruct (foldl _ _ _) as [[g d] w].
Qed.

Lemma landscapeEffect_cameraPosition l s :
  cameraPositionOf (landscapeEffect l s) = cameraPositionOf s.
Proof.
  unfold landscapeEffect, cameraPositionOf.
  destruct (scene s) as [sc|] eqn:Hsc; [|now rewrite Hsc].
  unfold clearDynamic.
  destruct (Nat.ltb 0 _).
  - destruct (removeWhere _ _ _) as [g w]. cbn [children camera].
    now destruct (reconcileGroup _ _ _ _).
  - now destruct (reconcileGroup _ _ _ _).
Qed.

Lemma capture_cameraPosition o now s :
  cameraPositionOf (handleCanvasClickAndCapture o now s) = cameraPositionOf s.
Proof.
  unfold handleCanvasClickAndCapture, cameraPositionOf.
  destruct (scene s) as [sc|] eqn:Hsc; [|now rewrite Hsc].
  destruct (isCapturingRef s); [now rewrite Hsc|].
  unfold renderPhase.
  repeat match goal with
         | |- context [if throwsHere ?o ?p then _ else _] =>
             destruct (throwsHere o p)
         end; reflexivity.
Qed.

Section Flight.
Context `{JSLib}.

(** What a frame does to the camera and the azimuth when the scene is
    mounted and no capture is running. *)
Lemma animate_camera t r s sc :
  scene s = Some sc ->
  isCapturingRef s = false ->
  input (animate t r s) = withAzimuth (input s) (steeredAzimuth (input s))
  /\ option_map camera (scene (animate t r s))
     = Some (mkCamera
               (addScaledVector (cam_position (camera sc))
                  (forwardDirectionAt (steeredAzimuth (input s)))
                  HIGH_ANGLE_FORWARD_SPEED)
               (if Qltb 0.01 (Math_abs (fov (camera sc)
                                        - cameraFovRef (input s)))
                then cameraFovRef (input s) else fov (camera sc))
               (aspect (camera sc))).
Proof.
  intros Hsc Hcap. unfold animate. rewrite Hsc, Hcap.
  unfold steeredAzimuth, forwardDirectionAt.
  destruct (isRotatingLeftRef (input s)), (isRotatingRightRef (input s));
    match goal with
    | |- context [if ?c then _ else _] =>
        match c with
        | andb _ _ => destruct c
        end
    end;
    try destruct (subClusters _ _ _ _ _ _) as [[cs ps] k];
    split; reflexivity.
Qed.

Lemma forwardDirectionAt_level azimuth : vy (forwardDirectionAt azimuth) == 0.
Proof. unfold forwardDirectionAt, normalize, multiplyScalar. simpl. ring. Qed.

(** X9. A pointer inside a canvas of positive width is normalised to
    [[-1, 1]], and the frame after it, on a mounted scene that is not being
    captured, turns the azimuth by at most 0.035, whatever arrow keys are
    held. *)
Theorem steering_per_frame_is_bounded (s : State) (sc : Scene)
    (rect : DOMRect) (x t r : Q) :
  scene s = Some sc ->
  isCapturingRef s = false ->
  0 < rect_width rect ->
  rect_left rect <= x ->
  x <= rect_left rect + rect_width rect ->
  let s1 := mouseMoveHandler rect x s in
  -1 <= normalizedMouseXRef (input s1)
  /\ normalizedMouseXRef (input s1) <= 1
  /\ Qabs (cameraAzimuthAngleRef (input (animate t r s1))
           - cameraAzimuthAngleRef (input s1)) <= 0.035.
Proof.
  intros Hsc Hcap Hw Hl Hr s1.
  assert (Hs1 : s1 = withInput s
                       (withMouseX (input s)
                          ((x - rect_left rect) / rect_width rect * 2 - 1))).
  { unfold s1, mouseMoveHandler, updateNormalizedPointerX. now rewrite Hsc. }
  assert (Hq0 : 0 <= (x - rect_left rect) / rect_width rect).
  { apply Qle_shift_div_l; [exact Hw | lra]. }
  assert (Hq1 : (x - rect_left rect) / rect_width rect <= 1).
  { apply Qle_shift_div_r; [exact Hw | lra]. }
  assert (Hm : -1 <= normalizedMouseXRef (input s1)
               /\ normalizedMouseXRef (input s1) <= 1).
  { rewrite Hs1. cbn. split; lra. }
  destruct Hm as [Hm0 Hm1]. split; [exact Hm0|]. split; [exact Hm1|].
  destruct (animate_camera t r s1 sc) as [-> _].
  { now rewrite Hs1. }
  { now rewrite Hs1. }
  apply Qabs_Qle_condition.
  unfold steeredAzimuth. cbn [cameraAzimuthAngleRef withAzimuth].
  unfold KEYBOARD_ROTATION_SPEED, MOUSE_AZIMUTH_SENSITIVITY_PER_FRAME.
  destruct (isRotatingLeftRef (input s1)), (isRotatingRightRef (input s1));
    split; lra.
Qed.

(** X10. After a frame on a reachable mounted state the field of view of the
    camera is within 0.01 of the target: it is the target, or the value it
    had when that was within 0.01 already; so it lies in
    [[29.99, 90.01]]. *)
Theorem camera_fov_follows_the_target (events : list Event) (t r : Q)
    (sc : Scene) :
  scene (run events) = Some sc ->
  exists sc',
    scene (animate t r (run events)) = Some sc'
    /\ Qabs (fov (camera sc')
             - cameraFovRef (input (animate t r (run events)))) <= 0.01
    /\ (fov (camera sc') = fov (camera sc)
        \/ fov (camera sc') = cameraFovRef (input (run events)))
    /\ 29.99 <= fov (camera sc') /\ fov (camera sc') <= 90.01.
Proof.
  intros Hsc.
  assert (Hcap : isCapturingRef (run events) = false).
  { apply (run_invariant (fun s => isCapturingRef s = false));
      [reflexivity | intros s e; apply step_capturing]. }
  destruct (animate_camera t r _ sc Hsc Hcap) as [Hi Hc].
  destruct (scene (animate t r (run events))) as [sc'|]; [|discriminate].
  injection Hc as Hc. exists sc'. split; [reflexivity|].
  rewrite Hi, Hc. cbn [fov cameraFovRef withAzimuth].
  destruct (reachable_fovInRange events) as [Hlo Hhi].
  unfold MIN_FOV, MAX_FOV in Hlo, Hhi.
  destruct (Qltb 0.01 _) eqn:Hfar.
  - split; [apply Qabs_Qle_condition; split; lra|].
    split; [now right|]. split; lra.
  - apply Qltb_false in Hfar.
    change (Qabs (fov (camera sc) - cameraFovRef (input (run events)))
            <= 0.01) in Hfar.
    split; [exact Hfar|].
    pose proof (proj1 (Qabs_Qle_condition _ _) Hfar) as [Hd1 Hd2].
    split; [now left|]. split; lra.
Qed.

Lemma animate_height t r s :
  (forall p, cameraPositionOf s = Some p -> vy p == HIGH_ANGLE_INITIAL_CAMERA_Y) ->
  forall p, cameraPositionOf (animate t r s) = Some p ->
            vy p == HIGH_ANGLE_INITIAL_CAMERA_Y.
Proof.
  intros Hs p.
  destruct (scene s) as [sc|] eqn:Hsc.
  - destruct (isCapturingRef s) eqn:Hcap.
    + unfold animate. rewrite Hsc, Hcap. apply Hs.
    + destruct (animate_camera t r s sc Hsc Hcap) as [_ Hc].
      unfold cameraPositionOf.
      destruct (scene (animate t r s)) as [sc'|]; [|discriminate].
      injection Hc as Hc. cbn [option_map]. rewrite Hc. intros [= <-].
      cbn [cam_position addScaledVector vy].
      rewrite forwardDirectionAt_level.
      rewrite (Hs (cam_position (camera sc))).
      * ring.
      * unfold cameraPositionOf. now rewrite Hsc.
  - unfold animate. rewrite Hsc. apply Hs.
Qed.

Lemma step_height s e :
  (forall p, cameraPositionOf s = Some p ->
             vy p == HIGH_ANGLE_INITIAL_CAMERA_Y) ->
  forall p, cameraPositionOf (step s e) = Some p ->
            vy p == HIGH_ANGLE_INITIAL_CAMERA_Y.
Proof.
  intros Hs.
  destruct (inputEvent e) eqn:Ei.
  { destruct (input_event_only_input s e Ei) as [i' ->]. exact Hs. }
  destruct e as [w h r| | | | | | | | | | | |w h|t r|i results now|l|o now];
    try discriminate; cbn [step].
  - unfold mount. apply animate_height.
    unfold cameraPositionOf. cbn. intros p [= <-]. reflexivity.
  - unfold unmount, cameraPositionOf.
    destruct (scene s); [discriminate | exact Hs].
  - unfold handleResize, cameraPositionOf.
    destruct (scene s) as [sc|] eqn:Hsc; [|now rewrite Hsc].
    cbn. intros p [= <-]. apply Hs. unfold cameraPositionOf. now rewrite Hsc.
  - now apply animate_height.
  - now rewrite settle_cameraPosition.
  - now rewrite landscapeEffect_cameraPosition.
  - now rewrite capture_cameraPosition.
Qed.

(** X11. In every reachable state with a mounted scene the camera is at
    height 300: flying and turning move it in the horizontal plane only,
    and no other handler moves it. *)
Theorem camera_keeps_its_height (events : list Event) (p : Vector3) :
  cameraPositionOf (run events) = Some p ->
  vy p == 300.
Proof.
  revert p.
  apply (run_invariant
           (fun s => forall p, cameraPositionOf s = Some p ->
                               vy p == HIGH_ANGLE_INITIAL_CAMERA_Y)).
  - discriminate.
  - intros s e. apply step_height.
Qed.
End Flight.

Lemma camera_keeps_its_height_witness :
  let events := [Mount 16 9 0; TurnView dir_right; TurnView dir_right;
                 Frame 2 0] in
  let p := mkVector3 0.60 300.00 99.40 in
  cameraPositionOf (@run rightAngles events) = Some p
  /\ vy p == 300.
Proof.
  intros events p.
  assert (Hp : cameraPositionOf (@run rightAngles events) = Some p)
    by (vm_compute; reflexivity).
  split; [exact Hp|].
  exact (@camera_keeps_its_height rightAngles events p Hp).
Defined.

Lemma steering_per_frame_is_bounded_witness :
  let s := @run rightAngles [Mount 16 9 0] in
  let rect := mkDOMRect 0 800 in
  scene s = Some mountedScene
  /\ isCapturingRef s = false
  /\ 0 < rect_width rect
  /\ rect_left rect <= 600
  /\ 600 <= rect_left rect + rect_width rect
  /\ Qabs (cameraAzimuthAngleRef
             (input (@animate rightAngles 1 0 (mouseMoveHandler rect 600 s)))
           - cameraAzimuthAngleRef (input (mouseMoveHandler rect 600 s)))
     <= 0.035.
Proof.
  intros s rect.
  assert (Hsc : scene s = Some mountedScene) by (vm_compute; reflexivity).
  assert (Hcap : isCapturingRef s = false) by (vm_compute; reflexivity).
  assert (Hw : 0 < rect_width rect) by (vm_compute; reflexivity).
  assert (Hl : rect_left rect <= 600) by (vm_compute; discriminate).
  assert (Hr : 600 <= rect_left rect + rect_width rect)
    by (vm_compute; discriminate).
  repeat (split; [assumption|]).
  exact (proj2 (proj2 (@steering_per_frame_is_bounded rightAngles s
                         mountedScene rect 600 1 0 Hsc Hcap Hw Hl Hr))).
Defined.

Lemma camera_fov_follows_the_target_witness :
  let events := [Mount 16 9 0; Wheel 120] in
  scene (@run rightAngles events) = Some mountedScene
  /\ exists sc',
       scene (@animate rightAngles 1 0 (@run rightAngles events)) = Some sc'
       /\ Qabs (fov (camera sc')
                - cameraFovRef
                    (input (@animate rightAngles 1 0 (@run rightAngles events))))
          <= 0.01.
Proof.
  intros events.
  assert (Hsc : scene (@run rightAngles events) = Some mountedScene)
    by (vm_compute; reflexivity).
  split; [exact Hsc|].
  destruct (@camera_fov_follows_the_target rightAngles events 1 0 mountedScene
              Hsc) as (sc' & Hsc' & Hnear & _).
  exists sc'. split; [exact Hsc' | exact Hnear].
Defined.

Lemma zoom_is_monotone_and_saturates_witness :
  let events := [Mount 16 9 0] in
  is_Some (scene (@run rightAngles events))
  /\ 1 <= 3 # 2
  /\ cameraFovRef
       (input (zoomCameraByFactor (3 # 2) (@run rightAngles events))) == 90.
Proof.
  intros events.
  assert (Hm : is_Some (scene (@run rightAngles events)))
    by (vm_compute; eexists; reflexivity).
  assert (Hf : 1 <= 3 # 2) by (vm_compute; discriminate).
  split; [exact Hm|]. split; [exact Hf|].
  exact (proj1 (proj2 (proj2 (@zoom_is_monotone_and_saturates rightAngles
                                events (3 # 2) Hm))) Hf).
Defined.

(** ** The batch a frame issues *)

Lemma subClusters_spec base rd n : forall count i counter,
  exists cs ps,
    subClusters base rd n i count counter
    = (cs, ps, (counter + Z.of_nat count)%Z)
    /\ List.length cs = count
    /\ List.length ps = count
    /\ forall j, (j < count)%nat ->
         ps !! j = Some (clusterIdPrefixOf (counter + Z.of_nat j))
         /\ cs !! j
            = Some (addVectors base
                      (multiplyScalar rd
                         ((inject_Z (Z.of_nat (i + j)) - inject_Z (n - 1) / 2)
                          * INTER_CLUSTER_SPACING))).
Proof.
  induction count as [|count IH]; intros i counter.
  - exists [], []. cbn [subClusters]. rewrite Z.add_0_r.
    repeat split; auto; lia.
  - cbn [subClusters].
    destruct (IH (S i) (counter + 1)%Z) as (cs & ps & -> & Hcs & Hps & Hj).
    eexists _, _. split; [f_equal; lia|].
    cbn [List.length]. split; [now rewrite Hcs|]. split; [now rewrite Hps|].
    intros [|j] Hlt; rewrite !lookup_cons.
    + rewrite Z.add_0_r, Nat.add_0_r. auto.
    + destruct (Hj j) as [-> ->]; [lia|].
      replace (S i + j)%nat with (i + S j)%nat by lia.
      replace (counter + 1 + Z.of_nat j)%Z with (counter + Z.of_nat (S j))%Z
        by lia.
      auto.
Qed.

Lemma append_inj_r (t : string) : forall s s',
  String.append s t = String.append s' t -> s = s'.
Proof.
  induction s as [|c s IH]; intros [|c' s'] E.
  - reflexivity.
  - apply (f_equal String.length) in E.
    rewrite !length_append in E. simpl in E. lia.
  - apply (f_equal String.length) in E.
    rewrite !length_append in E. simpl in E. lia.
  - simpl in E. injection E as -> E. f_equal. now apply IH.
Qed.

Lemma clusterIdPrefixOf_inj k k' :
  clusterIdPrefixOf k = clusterIdPrefixOf k' -> k = k'.
Proof.
  unfold clusterIdPrefixOf. intros E.
  apply (inj (String.append "dyn_c")) in E.
  apply append_inj_r in E.
  now apply (inj pretty) in E.
Qed.

Lemma Math_floor_random random :
  0 <= random -> random < 1 ->
  (1 <= Math_floor (random * 5) + 1 <= 5)%Z.
Proof.
  intros H0 H1. unfold Math_floor.
  assert (Hlo : (Qfloor 0 <= Qfloor (random * 5))%Z)
    by (apply Qfloor_resp_le; lra).
  assert (Hhi : inject_Z (Qfloor (random * 5)) < 5).
  { apply Qle_lt_trans with (random * 5); [apply Qfloor_le | lra]. }
  change (inject_Z (Qfloor (random * 5)) < inject_Z 5) in Hhi.
  rewrite <- Zlt_Qlt in Hhi. change (Qfloor 0) with 0%Z in Hlo. lia.
Qed.

Lemma mirrored_centres (p rd : Vector3) (a b m : Q) :
  a + b == m -> vy rd == 0 ->
  let c := addVectors p
             (multiplyScalar rd ((a - m / 2) * INTER_CLUSTER_SPACING)) in
  let c' := addVectors p
              (multiplyScalar rd ((b - m / 2) * INTER_CLUSTER_SPACING)) in
  vx c + vx c' == 2 * vx p /\ vy c == vy p /\ vz c + vz c' == 2 * vz p.
Proof.
  intros Hsum Hy. cbn [addVectors multiplyScalar vx vy vz].
  assert (Hb : b == m - a) by lra.
  rewrite Hb, Hy. split; [field|]. split; field.
Qed.

Section Issue.
Context `{JSLib}.

(** What a frame does to the streaming refs and the batches in flight:
    nothing, or it issues one batch. *)
Lemma animate_issue t random s :
  (streaming (animate t random s) = streaming s
   /\ pending (world (animate t random s)) = pending (world s))
  \/ exists base rightDirection cs ps,
       let n := (Math_floor (random * 5) + 1)%Z in
       let r := streaming s in
       subClusters base rightDirection n 0 (Z.to_nat n)
         (nextClusterIdCounterRef r)
       = (cs, ps, (nextClusterIdCounterRef r + Z.of_nat (Z.to_nat n))%Z)
       /\ vy rightDirection == 0
       /\ (activeClusterRequestsRef r < MAX_ACTIVE_CLUSTER_REQUESTS)%Z
       /\ streaming (animate t random s)
          = mkStreamingRefs (dynamicallyGeneratedBuildingsRef r)
              (generationTriggerPointsRef r ++ [base])
              (activeClusterRequestsRef r + 1)%Z
              (nextClusterIdCounterRef r + Z.of_nat (Z.to_nat n))%Z
       /\ pending (world (animate t random s))
          = pending (world s) ++ [mkBatch cs ps].
Proof.
  unfold animate.
  destruct (scene s) as [sc|]; [|now left].
  destruct (isCapturingRef s); [now left|].
  cbv zeta.
  match goal with
  | |- context [if ?c then _ else _] =>
      match c with
      | andb _ _ => destruct c eqn:Hc
      end
  end; [|now left].
  apply andb_prop in Hc as [_ Hlt]. apply Z.ltb_lt in Hlt.
  match goal with
  | |- context [subClusters ?b ?rd ?n ?i ?c ?k] =>
      destruct (subClusters_spec b rd n c i k) as (cs & ps & E & _);
      rewrite E; right; exists b, rd, cs, ps
  end.
  cbv zeta. split; [exact E|]. split.
  { unfold normalize, crossVectors, multiplyScalar, cam_up. simpl. ring. }
  split; [exact Hlt|]. split; reflexivity.
Qed.

Lemma animate_issued t random s batch :
  pending (world (animate t random s)) = pending (world s) ++ [batch] ->
  exists base rightDirection,
    let n := (Math_floor (random * 5) + 1)%Z in
    let r := streaming s in
    subClusters base rightDirection n 0 (Z.to_nat n)
      (nextClusterIdCounterRef r)
    = (targetCenters batch, clusterIdPrefixes batch,
       (nextClusterIdCounterRef r + Z.of_nat (Z.to_nat n))%Z)
    /\ vy rightDirection == 0
    /\ streaming (animate t random s)
       = mkStreamingRefs (dynamicallyGeneratedBuildingsRef r)
           (generationTriggerPointsRef r ++ [base])
           (activeClusterRequestsRef r + 1)%Z
           (nextClusterIdCounterRef r + Z.of_nat (Z.to_nat n))%Z.
Proof.
  intros Hp.
  destruct (animate_issue t random s)
    as [[_ Hsame]|(base & rd & cs & ps & E & Hy & _ & Hr & Hq)].
  - rewrite Hsame in Hp. apply (f_equal List.length) in Hp.
    rewrite length_app in Hp. simpl in Hp. lia.
  - rewrite Hq in Hp. apply app_inv_head in Hp. injection Hp as <-.
    exists base, rd. cbv zeta. auto.
Qed.

(** X12. A frame that issues a batch, for a value of [Math.random()] in
    [[0, 1)], asks for floor(5 random) + 1 sub-clusters, between one and
    five, with as many id prefixes, numbered on from the cluster-id
    counter and so pairwise different; the counter advances by their
    number and the in-flight counter by one. *)
Theorem issued_batch_has_one_to_five_numbered_sub_clusters (t random : Q)
    (s : State) (batch : Batch) :
  0 <= random -> random < 1 ->
  pending (world (animate t random s)) = pending (world s) ++ [batch] ->
  let n := List.length (targetCenters batch) in
  let counter := nextClusterIdCounterRef (streaming s) in
  (1 <= n <= 5)%nat
  /\ Z.of_nat n = (Math_floor (random * 5) + 1)%Z
  /\ List.length (clusterIdPrefixes batch) = n
  /\ (forall j, (j < n)%nat ->
        clusterIdPrefixes batch !! j
        = Some (clusterIdPrefixOf (counter + Z.of_nat j)))
  /\ NoDup (clusterIdPrefixes batch)
  /\ nextClusterIdCounterRef (streaming (animate t random s))
     = (counter + Z.of_nat n)%Z
  /\ activeClusterRequestsRef (streaming (animate t random s))
     = (activeClusterRequestsRef (streaming s) + 1)%Z.
Proof.
  intros H0 H1 Hp n counter.
  set (m := List.length (targetCenters batch)) in n. subst n.
  set (k := nextClusterIdCounterRef (streaming s)) in counter. subst counter.
  destruct (animate_issued t random s batch Hp) as (base & rd & E & _ & Hr).
  cbv zeta in E, Hr.
  pose proof (Math_floor_random random H0 H1) as Hn.
  destruct (subClusters_spec base rd (Math_floor (random * 5) + 1)
              (Z.to_nat (Math_floor (random * 5) + 1)) 0
              (nextClusterIdCounterRef (streaming s)))
    as (cs & ps & E' & Hcs & Hps & Hj).
  rewrite E in E'. injection E' as <- <-.
  fold m in Hcs. fold k in Hj, Hr. clearbody m k.
  assert (Hprefix : forall j, (j < m)%nat ->
            clusterIdPrefixes batch !! j
            = Some (clusterIdPrefixOf (k + Z.of_nat j))).
  { intros j Hlt. apply Hj. lia. }
  split; [lia|]. split; [lia|]. split; [lia|]. split; [exact Hprefix|].
  split;
    [|rewrite Hr; cbn [nextClusterIdCounterRef activeClusterRequestsRef];
      split; lia].
  apply NoDup_alt. intros i j x Hi Hj'.
  pose proof (lookup_lt_Some _ _ _ Hi) as Hil.
  pose proof (lookup_lt_Some _ _ _ Hj') as Hjl.
  rewrite Hprefix in Hi by lia. rewrite Hprefix in Hj' by lia.
  assert (E2 : clusterIdPrefixOf (k + Z.of_nat i)
               = clusterIdPrefixOf (k + Z.of_nat j)) by congruence.
  apply clusterIdPrefixOf_inj in E2. lia.
Qed.

(** X13. The target centres of an issued batch lie symmetrically about the
    trigger point the frame records: the centre at position j and the one
    at position j from the end add up to twice the trigger point in x and
    z, and every centre is at the height of the trigger point. *)
Theorem issued_batch_is_centred_on_its_trigger_point (t random : Q)
    (s : State) (batch : Batch) :
  0 <= random -> random < 1 ->
  pending (world (animate t random s)) = pending (world s) ++ [batch] ->
  exists p,
    generationTriggerPointsRef (streaming (animate t random s))
    = generationTriggerPointsRef (streaming s) ++ [p]
    /\ forall j c c',
         targetCenters batch !! j = Some c ->
         targetCenters batch !! (List.length (targetCenters batch) - 1 - j)%nat
         = Some c' ->
         vx c + vx c' == 2 * vx p
         /\ vy c == vy p
         /\ vz c + vz c' == 2 * vz p.
Proof.
  intros H0 H1 Hp.
  destruct (animate_issued t random s batch Hp) as (p & rd & E & Hy & Hr).
  cbv zeta in E, Hr.
  pose proof (Math_floor_random random H0 H1) as Hn.
  set (n := (Math_floor (random * 5) + 1)%Z) in *. clearbody n.
  destruct (subClusters_spec p rd n (Z.to_nat n) 0
              (nextClusterIdCounterRef (streaming s)))
    as (cs & ps & E' & Hcs & _ & Hj).
  rewrite E in E'. injection E' as <- <-.
  exists p. split; [now rewrite Hr|].
  intros j c c' Hc Hc'.
  pose proof (lookup_lt_Some _ _ _ Hc) as Hlt. rewrite Hcs in Hlt, Hc'.
  destruct (Hj j Hlt) as [_ Ej]. rewrite Ej in Hc. injection Hc as <-.
  destruct (Hj (Z.to_nat n - 1 - j)%nat) as [_ Ej']; [lia|].
  rewrite Ej' in Hc'. injection Hc' as <-.
  apply mirrored_centres; [|exact Hy].
  rewrite <- inject_Z_plus. apply inject_Z_injective. lia.
Qed.
End Issue.

Lemma issued_batch_has_one_to_five_numbered_sub_clusters_witness :
  0 <= 1 # 2
  /\ 1 # 2 < 1
  /\ pending (world (@animate rightAngles 2 (1 # 2) turnedState))
     = pending (world turnedState) ++ [turnedBatch]
  /\ NoDup (clusterIdPrefixes turnedBatch)
  /\ nextClusterIdCounterRef
       (streaming (@animate rightAngles 2 (1 # 2) turnedState))
     = (nextClusterIdCounterRef (streaming turnedState)
        + Z.of_nat (List.length (targetCenters turnedBatch)))%Z.
Proof.
  assert (H0 : 0 <= 1 # 2) by (vm_compute; discriminate).
  assert (H1 : 1 # 2 < 1) by (vm_compute; reflexivity).
  assert (Hp : pending (world (@animate rightAngles 2 (1 # 2) turnedState))
               = pending (world turnedState) ++ [turnedBatch])
    by (vm_compute; reflexivity).
  repeat (split; [assumption|]).
  destruct (@issued_batch_has_one_to_five_numbered_sub_clusters rightAngles
              2 (1 # 2) turnedState turnedBatch H0 H1 Hp)
    as (_ & _ & _ & _ & Hnd & Hk & _).
  split; [exact Hnd | exact Hk].
Defined.

Lemma issued_batch_is_centred_on_its_trigger_point_witness :
  0 <= 1 # 2
  /\ 1 # 2 < 1
  /\ pending (world (@animate rightAngles 2 (1 # 2) turnedState))
     = pending (world turnedState) ++ [turnedBatch]
  /\ exists p,
       generationTriggerPointsRef
         (streaming (@animate rightAngles 2 (1 # 2) turnedState))
       = generationTriggerPointsRef (streaming turnedState) ++ [p].
Proof.
  assert (H0 : 0 <= 1 # 2) by (vm_compute; discriminate).
  assert (H1 : 1 # 2 < 1) by (vm_compute; reflexivity).
  assert (Hp : pending (world (@animate rightAngles 2 (1 # 2) turnedState))
               = pending (world turnedState) ++ [turnedBatch])
    by (vm_compute; reflexivity).
  repeat (split; [assumption|]).
  destruct (@issued_batch_is_centred_on_its_trigger_point rightAngles
              2 (1 # 2) turnedState turnedBatch H0 H1 Hp) as (p & Hr & _).
  exists p. exact Hr.
Defined.

(** ** Batches that fail *)

Lemma foldl_applyResult_failed now : forall centers results acc,
  forallb failedResult results = true ->
  foldl (applyResult now) acc (zip centers results) = acc.
Proof.
  induction centers as [|c centers IH]; intros [|r results] acc Hf;
    try reflexivity.
  cbn [forallb] in Hf. apply andb_prop in Hf as [Hr Hf].
  cbn [zip zip_with foldl]. rewrite IH by exact Hf.
  now destruct r as [[bs|]|].
Qed.

(** X14. When every request of a batch is rejected or resolves to null, or
    when the scene is unmounted by then, settling the batch only removes it
    from the batches in flight and lowers the in-flight counter by one: no
    object is created and the dynamic-id set, the trigger points and the
    cluster-id counter stay as they are. *)
Theorem failed_batch_changes_only_the_counter (i : nat) (batch : Batch)
    (results : list PromiseSettledResult) (now : Q) (s : State) :
  pending (world s) !! i = Some batch ->
  List.length results = List.length (targetCenters batch) ->
  forallb failedResult results = true \/ scene s = None ->
  settle i results now s
  = withStreaming
      (withWorld s (withPending (world s) (delete i (pending (world s)))))
      (requestDone (streaming s)).
Proof.
  intros Hb Hlen Hfail. unfold settle. rewrite Hb, Hlen, Nat.eqb_refl.
  unfold settleBatch. cbn [scene withWorld].
  destruct (scene s) as [sc|] eqn:Hsc.
  - destruct Hfail as [Hfail|]; [|discriminate].
    rewrite foldl_applyResult_failed by exact Hfail.
    destruct s as [sc0 c inp r w]. cbn in Hsc. subst sc0.
    now destruct sc.
  - reflexivity.
Qed.

Lemma failed_batch_changes_only_the_counter_witness :
  let s := @run rightAngles [Mount 16 9 0] in
  let batch :=
    mkBatch [mkVector3 (0 # 20) (6000 # 20) (-10012 # 20)] ["dyn_c0_"] in
  pending (world s) !! 0%nat = Some batch
  /\ List.length [rejected] = List.length (targetCenters batch)
  /\ (forallb failedResult [rejected] = true \/ scene s = None)
  /\ childrenOf (settle 0 [rejected] 1 s) = childrenOf s
  /\ activeClusterRequestsRef (streaming (settle 0 [rejected] 1 s)) = 0%Z.
Proof.
  intros s batch.
  assert (Hb : pending (world s) !! 0%nat = Some batch)
    by (vm_compute; reflexivity).
  assert (Hlen : List.length [rejected] = List.length (targetCenters batch))
    by reflexivity.
  assert (Hfail : forallb failedResult [rejected] = true \/ scene s = None)
    by (left; reflexivity).
  repeat (split; [assumption|]).
  rewrite (failed_batch_changes_only_the_counter 0 batch [rejected] 1 s
             Hb Hlen Hfail).
  split; vm_compute; reflexivity.
Defined.

(** ** The counters of the streaming controller *)

Lemma settle_nextClusterId i results now s :
  nextClusterIdCounterRef (streaming (settle i results now s))
  = nextClusterIdCounterRef (streaming s).
Proof.
  unfold settle. destruct (pending (world s) !! i); [|easy].
  destruct (Nat.eqb _ _); [|easy].
  unfold settleBatch. cbn [scene withWorld].
  destruct (scene s) as [sc|]; [|reflexivity].
  now destruct (foldl _ _ _) as [[g d] w].
Qed.

Section Counters.
Context `{JSLib}.

Lemma animate_countersInBounds t r s :
  countersInBounds s -> countersInBounds (animate t r s).
Proof.
  intros (Hcap & Hpending & Hnext). unfold countersInBounds.
  destruct (animate_issue t r s)
    as [[-> ->]|(base & rd & cs & ps & _ & _ & Hlt & -> & ->)];
    [now repeat split|].
  cbn [activeClusterRequestsRef nextClusterIdCounterRef].
  rewrite length_app. cbn [List.length].
  unfold MAX_ACTIVE_CLUSTER_REQUESTS in *. repeat split; lia.
Qed.

Lemma step_countersInBounds s e :
  countersInBounds s -> countersInBounds (step s e).
Proof.
  intros Hs.
  destruct (inputEvent e) eqn:Ei.
  { destruct (input_event_only_input s e Ei) as [i' ->]. exact Hs. }
  destruct e as [w h r| | | | | | | | | | | |w h|t r|i results now|l|o now];
    try discriminate; cbn [step].
  - unfold mount. apply animate_countersInBounds. exact Hs.
  - unfold unmount. destruct (scene s) as [sc|]; [|exact Hs].
    unfold countersInBounds. cbn [streaming world withWorld withScene].
    now rewrite pending_foldl_disposeChild.
  - unfold handleResize. now destruct (scene s).
  - now apply animate_countersInBounds.
  - destruct Hs as (Hcap & Hpending & Hnext). unfold countersInBounds.
    rewrite settle_nextClusterId.
    destruct (settle_counter i results now s) as [->|(Hi & -> & ->)];
      [now repeat split|].
    rewrite length_delete by now apply lookup_lt_is_Some_2.
    repeat split; lia.
  - destruct Hs as (Hcap & Hpending & Hnext). unfold countersInBounds.
    rewrite pending_landscapeEffect.
    destruct (landscapeEffect_streaming l s) as [->| ->];
      [now repeat split|].
    cbn. unfold MAX_ACTIVE_CLUSTER_REQUESTS. repeat split; lia.
  - unfold countersInBounds.
    now rewrite capture_streaming, pending_capture.
Qed.

(** X15. In every reachable state the in-flight counter is at most 1 and at
    most the number of batches in flight, and the cluster-id counter is
    not negative. (The counter can undercount, see
    [two_batches_in_flight_after_regeneration], but it never
    exceeds the cap or the batches there are.) *)
Theorem request_counter_never_overcounts (events : list Event) :
  (activeClusterRequestsRef (streaming (run events)) <= 1)%Z
  /\ (activeClusterRequestsRef (streaming (run events))
      <= Z.of_nat (List.length (pending (world (run events)))))%Z
  /\ (0 <= nextClusterIdCounterRef (streaming (run events)))%Z.
Proof.
  apply (run_invariant countersInBounds).
  - unfold countersInBounds. cbn. unfold MAX_ACTIVE_CLUSTER_REQUESTS. lia.
  - intros s e. apply step_countersInBounds.
Qed.
End Counters.

Lemma counter_counts_the_batches_a_regeneration_does_not_lose_witness :
  let events := [Mount 16 9 0; Landscape (Some sampleLandscape);
                 Settle 0 [fulfilled (Some [sampleBox "dyn_c0_a" 0 0])] 1;
                 TurnView dir_right; TurnView dir_right; Frame 2 0] in
  @regenerationsLoseNoBatch rightAngles initialState events
  /\ counterMatchesBatches (@run rightAngles events)
  /\ List.length (pending (world (@run rightAngles events))) = 1%nat.
Proof.
  intros events.
  assert (Hidle : @regenerationsLoseNoBatch rightAngles initialState events).
  { vm_compute. repeat split. right; left. reflexivity. }
  split; [exact Hidle|].
  split; [|vm_compute; reflexivity].
  exact (@counter_counts_the_batches_a_regeneration_does_not_lose rightAngles
           events Hidle).
Defined.

(** ** Streamed elements and the dynamic-id set *)

Lemma fadeIn_userData_ids t c :
  ud_id (userData (fadeIn t c)) = ud_id (userData c)
  /\ isDynamic (fadeIn t c) = isDynamic c.
Proof.
  unfold fadeIn, isDynamic.
  destruct (flag _ && flag _); [|easy].
  destruct (creationTime (userData c)); [|easy].
  now destruct (Qle_bool _ _).
Qed.

Lemma dynamicRegistered_map (f : LineSegments -> LineSegments) group dyn :
  (forall c, ud_id (userData (f c)) = ud_id (userData c)
             /\ isDynamic (f c) = isDynamic c) ->
  dynamicRegistered group dyn -> dynamicRegistered (map f group) dyn.
Proof.
  intros Hf Hg c' Hc'. apply list_elem_of_fmap in Hc' as (c & -> & Hc).
  destruct (Hf c) as [-> ->]. now apply Hg.
Qed.

Lemma dynamicRegistered_nil dyn : dynamicRegistered [] dyn.
Proof. intros c Hc. now apply elem_of_nil in Hc. Qed.

Lemma dynamicRegistered_addClusterBuilding now center bs : forall group dyn w,
  dynamicRegistered group dyn ->
  dynamicRegistered
    (foldl (addClusterBuilding now center) (group, dyn, w) bs).1.1
    (foldl (addClusterBuilding now center) (group, dyn, w) bs).1.2.
Proof.
  intros group dyn w Hg.
  destruct (foldl_addClusterBuilding now center bs group dyn w)
    as (news & w' & -> & Hnews & _). cbn [fst snd].
  intros c Hc Hd. apply elem_of_app in Hc as [Hc|Hc].
  - apply elem_of_union_r. now apply Hg.
  - apply elem_of_union_l, elem_of_list_to_set.
    apply list_elem_of_lookup in Hc as [k Hk].
    destruct (Forall2_lookup_r _ _ _ _ _ Hnews Hk) as (b & Hb & Hs).
    destruct Hs as (-> & _). apply list_elem_of_fmap_2.
    eapply list_elem_of_lookup_2; eassumption.
Qed.

Lemma dynamicRegistered_applyResult now entries : forall group dyn w,
  dynamicRegistered group dyn ->
  dynamicRegistered (foldl (applyResult now) (group, dyn, w) entries).1.1
    (foldl (applyResult now) (group, dyn, w) entries).1.2.
Proof.
  induction entries as [|[center [[bs|]|]] entries IH]; intros group dyn w Hg;
    cbn [foldl applyResult]; auto.
  pose proof (dynamicRegistered_addClusterBuilding now center bs group dyn w Hg)
    as Hstep.
  destruct (foldl (addClusterBuilding now center) (group, dyn, w) bs)
    as [[g d] w']. now apply IH.
Qed.

(** ** What a regeneration leaves in the city group *)

Lemma updateElement_shows b c w :
  idIs (el_id b) c = true -> shows b (updateElement b c w).1.
Proof.
  unfold idIs. intros Hid. apply String.eqb_eq in Hid.
  unfold shows, updateElement, createOrUpdateLineSegments, buildEdges, isDynamic.
  cbn. repeat split; auto. now intros r ->.
Qed.

Lemma createElement_shows b w :
  shows b (createOrUpdateLineSegments b None false None w).1.
Proof.
  unfold shows, createOrUpdateLineSegments, buildEdges, isDynamic.
  cbn. repeat split; auto. now intros r ->.
Qed.

Lemma find_head_filter {A} (f : A -> bool) (l : list A) :
  List.find f l = head (List.filter f l).
Proof. induction l as [|x l IH]; cbn; [reflexivity | now destruct (f x)]. Qed.

Lemma reconcileBuilding_shows b group w :
  let group' := (reconcileBuilding ∅ (group, w) b).1 in
  (exists c, List.find (idIs (el_id b)) group' = Some c /\ shows b c)
  /\ forall c', c' ∈ group' -> c' ∈ group \/ isDynamic c' = false.
Proof.
  unfold reconcileBuilding. cbv zeta.
  rewrite bool_decide_eq_false_2 by apply not_elem_of_empty.
  destruct (updateFirst b group w) as [[g1 w1]|] eqn:Eu.
  - apply updateFirst_Some in Eu
      as (before & c & after & -> & Hb & Hc & -> & ->).
    pose proof (updateElement_shows b c w Hc) as Hs.
    cbn [fst]. split.
    + exists (updateElement b c w).1. split; [|exact Hs].
      rewrite find_head_filter, filter_idIs_app,
        (filter_idIs_none _ _ Hb). cbn [app List.filter].
      destruct Hs as (Hi & _). unfold idIs. rewrite Hi, String.eqb_refl.
      reflexivity.
    + intros c' Hc'. rewrite elem_of_app, elem_of_cons in Hc'.
      destruct Hc' as [Hc'|[->|Hc']].
      * left. apply elem_of_app. now left.
      * right. apply Hs.
      * left. apply elem_of_app. right. apply elem_of_cons. now right.
  - pose proof (createElement_shows b w) as Hs.
    apply updateFirst_None in Eu.
    destruct (createOrUpdateLineSegments b None false None w) as [e w1].
    cbn [fst] in *. split.
    + exists e. split; [|exact Hs].
      rewrite find_head_filter, filter_idIs_app, (filter_idIs_none _ _ Eu).
      cbn [app List.filter].
      destruct Hs as (Hi & _). unfold idIs. rewrite Hi, String.eqb_refl.
      reflexivity.
    + intros c' Hc'. apply elem_of_app in Hc' as [Hc'|Hc']; [now left|].
      apply list_elem_of_singleton in Hc' as ->. right. apply Hs.
Qed.

Lemma foldl_reconcileBuilding_dynamic bs : forall group w c',
  c' ∈ (foldl (reconcileBuilding ∅) (group, w) bs).1 ->
  c' ∈ group \/ isDynamic c' = false.
Proof.
  induction bs as [|b0 bs IH]; intros group w c' Hc'; [now left|].
  cbn [foldl] in Hc'.
  destruct (reconcileBuilding_shows b0 group w) as [_ Hdyn0].
  destruct (reconcileBuilding ∅ (group, w) b0) as [g1 w1].
  destruct (IH g1 w1 c' Hc') as [Hin|Hno]; [|now right].
  apply Hdyn0, Hin.
Qed.

Lemma reconcileGroup_dynamic l group w c' :
  c' ∈ (reconcileGroup l ∅ group w).1 -> c' ∈ group \/ isDynamic c' = false.
Proof.
  unfold reconcileGroup.
  assert (Hnone : c' ∈ (removeWhere (fun _ => true) group w).1 ->
                  c' ∈ group \/ isDynamic c' = false).
  { rewrite removeWhere_all. intros Hx. now apply elem_of_nil in Hx. }
  destruct l as [l|]; [|exact Hnone].
  destruct (buildings l) as [|b0 bs]; [exact Hnone|].
  pose proof (foldl_reconcileBuilding_dynamic (b0 :: bs) group w c') as Hdyn.
  destruct (foldl (reconcileBuilding ∅) (group, w) (b0 :: bs)) as [g1 w1].
  unfold removeWhere. cbn [fst] in *. intros Hc'. apply Hdyn.
  apply list_elem_of_In, List.filter_In in Hc' as [Hc' _].
  now apply list_elem_of_In.
Qed.

Lemma foldl_reconcileBuilding_shows bs : forall group w,
  NoDup (map el_id bs) ->
  let group' := (foldl (reconcileBuilding ∅) (group, w) bs).1 in
  (forall b, b ∈ bs ->
     exists c, List.find (idIs (el_id b)) group' = Some c /\ shows b c)
  /\ forall c', c' ∈ group' -> c' ∈ group \/ isDynamic c' = false.
Proof.
  induction bs as [|b0 bs IH]; intros group w Hnd; cbv zeta.
  - split; [intros b Hb; now apply elem_of_nil in Hb | auto].
  - cbn [map] in Hnd. apply NoDup_cons in Hnd as [Hfresh Hnd].
    cbn [foldl].
    destruct (reconcileBuilding_shows b0 group w) as [Hshow0 Hdyn0].
    destruct (reconcileBuilding ∅ (group, w) b0) as [g1 w1] eqn:E1.
    cbn [fst] in Hshow0, Hdyn0.
    destruct (IH g1 w1 Hnd) as [Hshow Hdyn].
    destruct (foldl_reconcileBuilding_spec ∅ bs g1 w1) as (_ & _ & _ & Hkeep).
    split.
    + intros b Hb. apply elem_of_cons in Hb as [->|Hb]; [|now apply Hshow].
      destruct Hshow0 as (c & Hc & Hs). exists c. split; [|exact Hs].
      rewrite find_head_filter, (Hkeep _ Hfresh), <- find_head_filter.
      exact Hc.
    + intros c' Hc'. destruct (Hdyn c' Hc') as [Hin|Hno]; [|now right].
      apply Hdyn0, Hin.
Qed.

Lemma filter_filter_implied {A} (f g : A -> bool) (l : list A) :
  (forall x, In x l -> f x = true -> g x = true) ->
  List.filter f (List.filter g l) = List.filter f l.
Proof.
  induction l as [|x l IH]; intros H; cbn; [reflexivity|].
  destruct (g x) eqn:Hg; cbn.
  - destruct (f x); rewrite IH; auto; intros; apply H; auto; now right.
  - destruct (f x) eqn:Hf.
    + rewrite (H x) in Hg; [discriminate | now left | exact Hf].
    + apply IH. intros; apply H; auto; now right.
Qed.

Lemma reconcileGroup_shows l group w :
  NoDup (map el_id (buildingsOf l)) ->
  let group' := (reconcileGroup l ∅ group w).1 in
  (forall b, b ∈ buildingsOf l ->
     exists c, List.find (idIs (el_id b)) group' = Some c /\ shows b c)
  /\ forall c', c' ∈ group' -> c' ∈ group \/ isDynamic c' = false.
Proof.
  intros Hnd. cbv zeta. unfold reconcileGroup.
  assert (Hnone : buildingsOf l = [] ->
    (forall b, b ∈ buildingsOf l ->
       exists c, List.find (idIs (el_id b))
                   (removeWhere (fun _ => true) group w).1 = Some c
                 /\ shows b c)
    /\ forall c', c' ∈ (removeWhere (fun _ => true) group w).1 ->
         c' ∈ group \/ isDynamic c' = false).
  { intros E. rewrite E, removeWhere_all.
    split; intros x Hx; now apply elem_of_nil in Hx. }
  destruct l as [l|]; [|now apply Hnone].
  destruct (buildings l) as [|b0 bs] eqn:Eb; [now apply Hnone|].
  clear Hnone. unfold buildingsOf in *. rewrite Eb in *.
  destruct (foldl_reconcileBuilding_shows (b0 :: bs) group w Hnd)
    as [Hshow Hdyn].
  destruct (foldl (reconcileBuilding ∅) (group, w) (b0 :: bs)) as [g1 w1].
  cbn [fst] in Hshow, Hdyn. unfold removeWhere. cbn [fst].
  split.
  - intros b Hb. destruct (Hshow b Hb) as (c & Hc & Hs).
    exists c. split; [|exact Hs].
    rewrite find_head_filter, filter_filter_implied, <- find_head_filter;
      [exact Hc|].
    intros x _ Hx. unfold idIs in Hx. apply String.eqb_eq in Hx.
    rewrite (bool_decide_eq_true_2 (ud_id (userData x) ∈ _)).
    + now rewrite andb_false_r.
    + rewrite Hx. apply elem_of_list_to_set. now apply list_elem_of_fmap_2.
  - intros c' Hc'. apply Hdyn.
    apply list_elem_of_In, List.filter_In in Hc' as [Hc' _].
    now apply list_elem_of_In.
Qed.

(** The regeneration effect on a mounted scene, whatever the dynamic-id
    set holds: the children whose id is in the set are disposed and leave,
    the refs are reset when the set is not empty, and the rest is merged
    with the Landscape. *)
Lemma landscapeEffect_mounted l s sc :
  scene s = Some sc ->
  let isDyn := fun child : LineSegments =>
    bool_decide (ud_id (userData child)
                 ∈ dynamicallyGeneratedBuildingsRef (streaming s)) in
  let r := reconcileGroup l ∅
             (List.filter (fun c => negb (isDyn c)) (children sc))
             (foldl disposeChild (world s)
                (List.filter isDyn (children sc))) in
  landscapeEffect l s
  = mkState (Some (mkScene (camera sc) (skyVisible sc) r.1))
      (isCapturingRef s) (input s)
      (if Nat.ltb 0 (size (dynamicallyGeneratedBuildingsRef (streaming s)))
       then mkStreamingRefs ∅ [] 0%Z 0%Z else streaming s) r.2.
Proof.
  intros Hsc isDyn r.
  destruct (Nat.ltb 0 (size _)) eqn:Hsize.
  - apply landscapeEffect_dynamic; [exact Hsc|].
    now apply size_positive_iff.
  - assert (Hempty : dynamicallyGeneratedBuildingsRef (streaming s) = ∅).
    { destruct (decide (dynamicallyGeneratedBuildingsRef (streaming s) = ∅))
        as [E|E]; [exact E|].
      apply size_positive_iff in E. congruence. }
    rewrite (landscapeEffect_static l s sc Hsc Hempty). cbv zeta.
    assert (Hall : forall c, isDyn c = false).
    { intros c. unfold isDyn. rewrite Hempty.
      apply bool_decide_eq_false_2, not_elem_of_empty. }
    assert (Hkeep : List.filter (fun c => negb (isDyn c)) (children sc)
                    = children sc).
    { clear r. induction (children sc) as [|c cs IH]; cbn; [reflexivity|].
      now rewrite Hall, IH. }
    assert (Hdrop : List.filter isDyn (children sc) = []).
    { clear r Hkeep. induction (children sc) as [|c cs IH]; cbn; [reflexivity|].
      now rewrite Hall. }
    unfold r. now rewrite Hkeep, Hdrop.
Qed.

Lemma reconcileGroup_empty l dyn group w :
  buildingsOf l = [] ->
  reconcileGroup l dyn group w = removeWhere (fun _ => true) group w.
Proof.
  unfold reconcileGroup, buildingsOf. destruct l as [l|]; [|reflexivity].
  now intros ->.
Qed.

Lemma filter_true {A} (l : list A) : List.filter (fun _ => true) l = l.
Proof. induction l as [|x l IH]; cbn; [reflexivity | now rewrite IH]. Qed.

(** X16. On a mounted scene a regeneration with no Landscape or with an
    empty building list empties the city group, and the geometry and the
    material of every child the group held are disposed. *)
Theorem landscape_without_buildings_clears_the_city
    (l : option LandscapeData) (s : State) (sc : Scene) :
  scene s = Some sc ->
  buildingsOf l = [] ->
  childrenOf (landscapeEffect l s) = []
  /\ forall c, c ∈ children sc ->
       geomId (geometry c) ∈ disposedGeometries (world (landscapeEffect l s))
       /\ matId (material c) ∈ disposedMaterials (world (landscapeEffect l s)).
Proof.
  intros Hsc Hempty. rewrite (landscapeEffect_mounted l s sc Hsc). cbv zeta.
  rewrite (reconcileGroup_empty l _ _ _ Hempty).
  unfold childrenOf. cbn [scene children world].
  split; [apply removeWhere_all|].
  intros c Hc. unfold removeWhere. cbn [snd]. rewrite filter_true.
  set (isDyn := fun child : LineSegments =>
         bool_decide (ud_id (userData child)
                      ∈ dynamicallyGeneratedBuildingsRef (streaming s))).
  destruct (isDyn c) eqn:Hd.
  - destruct (disposed_foldl_disposeChild (List.filter isDyn (children sc))
                (world s) c) as [Hg Hm].
    { apply list_elem_of_In, List.filter_In. split; [|exact Hd].
      now apply list_elem_of_In. }
    destruct (grows_foldl_disposeChild
                (List.filter (fun c0 => negb (isDyn c0)) (children sc))
                (foldl disposeChild (world s)
                   (List.filter isDyn (children sc))))
      as (Hpg & Hpm & _).
    split; eapply elem_of_prefix; eassumption.
  - apply disposed_foldl_disposeChild.
    apply list_elem_of_In, List.filter_In. split; [now apply list_elem_of_In|].
    change (negb (isDyn c) = true). now rewrite Hd.
Qed.

(** X17. After a regeneration with a Landscape whose building ids are
    pairwise different, looking a building up by its id in the city group
    finds an object placed and shaped by the data of that building (centre
    raised by half the height), in the city colour, opaque, not flagged as
    dynamically generated, with the rotation of the data when it gives
    one. *)
Theorem regenerated_building_stands_where_the_data_says
    (l : option LandscapeData) (s : State) (sc : Scene)
    (b : CityElementData) :
  scene s = Some sc ->
  NoDup (map el_id (buildingsOf l)) ->
  b ∈ buildingsOf l ->
  exists c,
    List.find (idIs (el_id b)) (childrenOf (landscapeEffect l s)) = Some c
    /\ shows b c.
Proof.
  intros Hsc Hnd Hb. rewrite (landscapeEffect_mounted l s sc Hsc). cbv zeta.
  unfold childrenOf. cbn [scene children].
  now apply reconcileGroup_shows.
Qed.

Lemma restoreElement_userData colors now c :
  userData (restoreElement colors now c) = userData c.
Proof.
  unfold restoreElement, restoreColor. cbn.
  destruct (flag _ && flag _); [now destruct (creationTime _)|].
  now destruct (flag _ && negb _).
Qed.

Lemma capture_userData o now s :
  map userData (childrenOf (handleCanvasClickAndCapture o now s))
  = map userData (childrenOf s).
Proof.
  unfold handleCanvasClickAndCapture, childrenOf.
  destruct (scene s) as [sc|] eqn:Hsc; [|now rewrite Hsc].
  destruct (isCapturingRef s); [now rewrite Hsc|].
  unfold renderPhase.
  repeat match goal with
         | |- context [if throwsHere ?o ?p then _ else _] =>
             destruct (throwsHere o p)
         end;
    cbn [scene children cleanupPhase withSkyVisible withChildren withAspect];
    rewrite <- !list_fmap_compose; apply list_fmap_ext;
    intros i c _; cbn; now rewrite restoreElement_userData.
Qed.

Lemma dynamicRegistered_userData group group' dyn :
  map userData group' = map userData group ->
  dynamicRegistered group dyn -> dynamicRegistered group' dyn.
Proof.
  intros Hu Hg c' Hc' Hd.
  apply list_elem_of_lookup in Hc' as [k Hk].
  assert (Hk' : map userData group' !! k = Some (userData c'))
    by (rewrite list_lookup_fmap, Hk; reflexivity).
  rewrite Hu, list_lookup_fmap in Hk'.
  destruct (group !! k) as [c|] eqn:Hc; [|discriminate].
  injection Hk' as Hk'. unfold isDynamic in Hd. rewrite <- Hk' in *.
  apply Hg; [eapply list_elem_of_lookup_2; eassumption | exact Hd].
Qed.

Lemma landscapeEffect_none_dynamic l s c :
  registered s ->
  c ∈ childrenOf (landscapeEffect l s) -> isDynamic c = false.
Proof.
  intros Hs. unfold childrenOf at 1.
  destruct (scene s) as [sc|] eqn:Hsc.
  - rewrite (landscapeEffect_mounted l s sc Hsc). cbv zeta.
    cbn [scene children]. intros Hc.
    apply reconcileGroup_dynamic in Hc as [Hc|Hc]; [|exact Hc].
    apply list_elem_of_In, List.filter_In in Hc as [Hc Hout].
    apply negb_true_iff, bool_decide_eq_false in Hout.
    destruct (isDynamic c) eqn:Hd; [|reflexivity].
    exfalso. apply Hout, Hs; [|exact Hd].
    unfold childrenOf. rewrite Hsc. now apply list_elem_of_In.
  - unfold landscapeEffect. rewrite Hsc, Hsc. intros Hc.
    now apply elem_of_nil in Hc.
Qed.

Section Registered.
Context `{JSLib}.

Lemma animate_registered t r s : registered s -> registered (animate t r s).
Proof.
  unfold registered. intros Hs.
  assert (Hdyn : dynamicallyGeneratedBuildingsRef (streaming (animate t r s))
                 = dynamicallyGeneratedBuildingsRef (streaming s)).
  { destruct (animate_issue t r s)
      as [[-> _]|(base & rd & cs & ps & _ & _ & _ & -> & _)]; reflexivity. }
  rewrite Hdyn.
  destruct (scene s) as [sc|] eqn:Hsc.
  - destruct (isCapturingRef s) eqn:Hcap.
    + unfold animate. now rewrite Hsc, Hcap.
    + rewrite (animate_children t r s sc Hsc Hcap).
      apply dynamicRegistered_map; [apply fadeIn_userData_ids|].
      unfold childrenOf in Hs. now rewrite Hsc in Hs.
  - unfold animate. now rewrite Hsc.
Qed.

Lemma step_registered s e : registered s -> registered (step s e).
Proof.
  intros Hs.
  destruct (inputEvent e) eqn:Ei.
  { destruct (input_event_only_input s e Ei) as [i' ->]. exact Hs. }
  destruct e as [w h r| | | | | | | | | | | |w h|t r|i results now|l|o now];
    try discriminate; cbn [step].
  - unfold mount. apply animate_registered. apply dynamicRegistered_nil.
  - unfold unmount, registered, childrenOf.
    destruct (scene s); [apply dynamicRegistered_nil | exact Hs].
  - unfold handleResize, registered, childrenOf in *.
    destruct (scene s) as [sc|] eqn:Hsc; [exact Hs | now rewrite Hsc].
  - now apply animate_registered.
  - unfold settle. destruct (pending (world s) !! i) as [batch|]; [|exact Hs].
    destruct (Nat.eqb _ _); [|exact Hs].
    unfold settleBatch, registered, childrenOf in *. cbn [scene withWorld].
    destruct (scene s) as [sc|] eqn:Hsc;
      [|cbn [scene withStreaming withWorld]; rewrite Hsc;
        apply dynamicRegistered_nil].
    pose proof (dynamicRegistered_applyResult now
                  (zip (targetCenters batch) results) (children sc)
                  (dynamicallyGeneratedBuildingsRef (streaming s))
                  (withPending (world s) (delete i (pending (world s)))) Hs)
      as Hstep.
    cbn [streaming withWorld world].
    destruct (foldl (applyResult now) _ _) as [[g d] w']. exact Hstep.
  - intros c Hc Hd.
    rewrite (landscapeEffect_none_dynamic l s c Hs Hc) in Hd. discriminate.
  - unfold registered. rewrite capture_streaming.
    eapply dynamicRegistered_userData; [apply capture_userData | exact Hs].
Qed.

(** X18. In every reachable state a child of the city group that is flagged
    as dynamically generated has its id in the dynamic-id set. *)
Theorem streamed_elements_are_registered (events : list Event)
    (c : LineSegments) :
  c ∈ childrenOf (run events) ->
  isDynamicallyGenerated (userData c) = Some true ->
  ud_id (userData c)
  ∈ dynamicallyGeneratedBuildingsRef (streaming (run events)).
Proof.
  intros Hc Hd.
  apply (run_invariant registered); [apply dynamicRegistered_nil | | exact Hc |].
  - intros s e. apply step_registered.
  - unfold isDynamic. now rewrite Hd.
Qed.

(** X19. After a regeneration on a reachable state no child of the city
    group is flagged as dynamically generated and every child carries the
    id of a building of the Landscape; with a mounted scene every building
    of the Landscape has a child with its id, and the dynamic-id set is
    empty. *)
Theorem regeneration_leaves_exactly_the_landscape (events : list Event)
    (l : option LandscapeData) :
  let s' := landscapeEffect l (run events) in
  (is_Some (scene (run events)) ->
   (forall b, b ∈ buildingsOf l -> el_id b ∈ childIds (childrenOf s'))
   /\ dynamicallyGeneratedBuildingsRef (streaming s') = ∅)
  /\ forall c, c ∈ childrenOf s' ->
       isDynamic c = false
       /\ ud_id (userData c) ∈ map el_id (buildingsOf l).
Proof.
  intros s'.
  assert (Hreg : registered (run events)).
  { apply (run_invariant registered); [apply dynamicRegistered_nil|].
    intros s e. apply step_registered. }
  assert (Hnone : forall c, c ∈ childrenOf s' -> isDynamic c = false).
  { intros c. now apply landscapeEffect_none_dynamic. }
  split.
  - intros [sc Hsc]. unfold s'.
    rewrite (landscapeEffect_mounted l _ sc Hsc). cbv zeta.
    unfold childrenOf. cbn [scene children streaming].
    split; [apply reconcileGroup_first|].
    destruct (Nat.ltb 0 (size _)) eqn:Hsize; [reflexivity|].
    destruct (decide (dynamicallyGeneratedBuildingsRef
                        (streaming (run events)) = ∅)) as [E|E]; [exact E|].
    apply size_positive_iff in E. congruence.
  - intros c Hc. split; [now apply Hnone|].
    pose proof (Hnone c Hc) as Hd. revert Hc. unfold s', childrenOf at 1.
    destruct (scene (run events)) as [sc|] eqn:Hsc.
    + rewrite (landscapeEffect_mounted l _ sc Hsc). cbv zeta.
      cbn [scene children]. intros Hc.
      destruct (proj1 (proj2 (reconcileGroup_first l _ _)) c Hc)
        as [Hdyn|Hid]; [|exact Hid].
      unfold isDynamic in Hd. congruence.
    + unfold landscapeEffect. rewrite Hsc, Hsc. intros Hc.
      now apply elem_of_nil in Hc.
Qed.
End Registered.

Lemma landscape_without_buildings_clears_the_city_witness :
  let s := @run rightAngles
             [Mount 16 9 0;
              Settle 0 [fulfilled (Some [sampleBox "dyn_c0_a" 0 0])] 1] in
  scene s = Some streamedScene
  /\ buildingsOf None = []
  /\ childrenOf (landscapeEffect None s) = [].
Proof.
  intros s.
  assert (Hsc : scene s = Some streamedScene) by (vm_compute; reflexivity).
  assert (Hempty : buildingsOf None = []) by reflexivity.
  repeat (split; [assumption|]).
  exact (proj1 (landscape_without_buildings_clears_the_city None s
                  streamedScene Hsc Hempty)).
Defined.

Lemma regenerated_building_stands_where_the_data_says_witness :
  let s := @run rightAngles [Mount 16 9 0] in
  let b := sampleBox "bld_2" 40 (-30) in
  scene s = Some mountedScene
  /\ NoDup (map el_id (buildingsOf (Some sampleLandscape)))
  /\ b ∈ buildingsOf (Some sampleLandscape)
  /\ exists c,
       List.find (idIs (el_id b))
         (childrenOf (landscapeEffect (Some sampleLandscape) s)) = Some c
       /\ seg_position c = mkVector3 40 (0 + 20 / 2) (-30).
Proof.
  intros s b.
  assert (Hsc : scene s = Some mountedScene) by (vm_compute; reflexivity).
  assert (Hnd : NoDup (map el_id (buildingsOf (Some sampleLandscape)))).
  { cbn. apply NoDup_cons. split; [|apply NoDup_singleton].
    rewrite list_elem_of_singleton. discriminate. }
  assert (Hb : b ∈ buildingsOf (Some sampleLandscape)).
  { cbn. apply elem_of_cons. right. now apply list_elem_of_singleton. }
  repeat (split; [assumption|]).
  destruct (regenerated_building_stands_where_the_data_says
              (Some sampleLandscape) s mountedScene b Hsc Hnd Hb)
    as (c & Hc & Hs).
  exists c. split; [exact Hc | exact (proj1 (proj2 Hs))].
Defined.

Lemma streamed_elements_are_registered_witness :
  let events := [Mount 16 9 0;
                 Settle 0 [fulfilled (Some [sampleBox "dyn_c0_a" 0 0])] 1] in
  let c := mkLineSegments 3 (mkGeometry 1 (BoxEdges 10 20 10))
             (mkMaterial 2 globalCityColor 0.01 true)
             (mkVector3 (0 # 20) (20 # 2) (-10012 # 20)) 0
             (mkUserData "dyn_c0_a" 20 (Some true) (Some true) (Some 1)) in
  c ∈ childrenOf (@run rightAngles events)
  /\ isDynamicallyGenerated (userData c) = Some true
  /\ ud_id (userData c)
     ∈ dynamicallyGeneratedBuildingsRef (streaming (@run rightAngles events)).
Proof.
  intros events c.
  assert (Hc : c ∈ childrenOf (@run rightAngles events))
    by (vm_compute; constructor).
  assert (Hd : isDynamicallyGenerated (userData c) = Some true)
    by reflexivity.
  repeat (split; [assumption|]).
  exact (@streamed_elements_are_registered rightAngles events c Hc Hd).
Defined.

(** ** Validated buildings in the geometry builder *)

Lemma truthy_positive v : 0 < v -> truthy (Some v) = true.
Proof.
  intros Hv. unfold truthy.
  destruct (Qeq_bool v 0) eqn:E; [|reflexivity].
  apply Qeq_bool_iff in E. lra.
Qed.

Lemma orElse_positive v d : 0 < v -> orElse v d = v.
Proof.
  intros Hv. unfold orElse.
  destruct (Qeq_bool v 0) eqn:E; [|reflexivity].
  apply Qeq_bool_iff in E. lra.
Qed.

(** X20. An element that passes [isValidBuildingElement] is drawn with its
    own shape, never with the 10 x 10 x 10 fallback box of the builder: a
    box with its positive width, height and depth, a cylinder with its
    positive radius and height; and it is centred at half its height above
    its ground position. *)
Theorem validated_building_is_drawn_with_its_own_shape `{JSLib} (el : JSON) :
  isValidBuildingElement el = true ->
  exists d,
    asCityElementData el = Some d
    /\ 0 < height (dimensions d)
    /\ match shape d with
       | box =>
           exists w dp,
             width (dimensions d) = Some w /\ depth (dimensions d) = Some dp
             /\ 0 < w /\ 0 < dp
             /\ edgesShapeOf d = BoxEdges w (height (dimensions d)) dp
       | cylinder =>
           exists r,
             radius (dimensions d) = Some r /\ 0 < r
             /\ edgesShapeOf d = CylinderEdges r (height (dimensions d))
       end
    /\ vx (placementOf d) = vx (position d)
    /\ vy (placementOf d) == height (dimensions d) / 2
    /\ vz (placementOf d) = vz (position d).
Proof.
  intros Hv.
  destruct (isValidBuildingElement_asCityElementData el Hv)
    as (d & Hd & _ & Hy & Hh & Hshape).
  exists d. split; [exact Hd|]. split; [exact Hh|]. split.
  - unfold edgesShapeOf. destruct (shape d).
    + destruct Hshape as (w & dp & Hw & Hdp & Hwp & Hdpp).
      exists w, dp. rewrite Hw, Hdp.
      rewrite !truthy_positive by assumption. auto.
    + destruct Hshape as (r & Hr & Hrp). exists r. rewrite Hr.
      rewrite !truthy_positive by assumption.
      destruct (width (dimensions d)), (depth (dimensions d)); auto.
  - unfold placementOf. cbn [vx vy vz].
    rewrite (orElse_positive _ _ Hh), Hy. split; [reflexivity|].
    split; [field | reflexivity].
Qed.

Lemma validated_building_is_drawn_with_its_own_shape_witness :
  @isValidBuildingElement rightAngles (sampleBuildingJSON "bld_1") = true
  /\ exists d,
       asCityElementData (sampleBuildingJSON "bld_1") = Some d
       /\ 0 < height (dimensions d).
Proof.
  assert (Hv : @isValidBuildingElement rightAngles (sampleBuildingJSON "bld_1")
               = true) by (vm_compute; reflexivity).
  split; [exact Hv|].
  destruct (@validated_building_is_drawn_with_its_own_shape rightAngles
              (sampleBuildingJSON "bld_1") Hv) as (d & Hd & Hh & _).
  exists d. split; [exact Hd | exact Hh].
Defined.

(** ** What a capture leaves of the scene *)

Lemma lookupColor_original (l : list LineSegments) c :
  NoDup (map uuid l) -> c ∈ l ->
  lookupColor (uuid c) (map (fun e => (uuid e, color (material e))) l)
  = Some (color (material c)).
Proof.
  induction l as [|x l IH]; intros Hnd Hc; [now apply elem_of_nil in Hc|].
  cbn [map] in Hnd. apply NoDup_cons in Hnd as [Hx Hnd].
  cbn [map lookupColor]. apply elem_of_cons in Hc as [->|Hc].
  - now rewrite Nat.eqb_refl.
  - destruct (Nat.eqb (uuid c) (uuid x)) eqn:E; [|now apply IH].
    apply Nat.eqb_eq in E. exfalso. apply Hx. rewrite <- E.
    now apply list_elem_of_fmap_2.
Qed.

Lemma restoreElement_sameObject colors now (g : LineSegments -> LineSegments)
    (l : list LineSegments) :
  (forall c, c ∈ l ->
     lookupColor (uuid c) colors = Some (color (material c))) ->
  (forall c, uuid (g c) = uuid c /\ geometry (g c) = geometry c
             /\ seg_position (g c) = seg_position c
             /\ rotation_y (g c) = rotation_y c
             /\ userData (g c) = userData c
             /\ matId (material (g c)) = matId (material c)) ->
  Forall2 sameObject l (map (fun c => restoreElement colors now (g c)) l).
Proof.
  intros Hcolors Hg. apply Forall2_fmap_r, Forall_Forall2_diag, Forall_forall.
  intros c Hc. destruct (Hg c) as (Hu & Hge & Hp & Hr & Hud & Hm).
  unfold compose, sameObject, restoreElement, restoreColor.
  rewrite Hu, (Hcolors c Hc).
  destruct (flag _ && flag _);
    [destruct (creationTime _)|destruct (flag _ && negb _)];
    cbn; auto 10.
Qed.

(** X21. A capture on a scene whose children are different objects, wherever
    its render phase throws: the camera (position, field of view, aspect)
    and the visibility of the sky are as before, every child is the same
    object with its geometry, placement, [userData], material object and
    colour, no object is created or disposed, and the input and streaming
    refs are untouched. *)
Theorem capture_restores_the_scene (o : CaptureOutcome) (now : Q)
    (s : State) (sc : Scene) :
  scene s = Some sc ->
  isCapturingRef s = false ->
  NoDup (map uuid (children sc)) ->
  let s' := handleCanvasClickAndCapture o now s in
  exists sc',
    scene s' = Some sc'
    /\ camera sc' = camera sc
    /\ skyVisible sc' = skyVisible sc
    /\ Forall2 sameObject (children sc) (children sc')
    /\ input s' = input s
    /\ streaming s' = streaming s
    /\ nextId (world s') = nextId (world s)
    /\ disposedGeometries (world s') = disposedGeometries (world s)
    /\ disposedMaterials (world s') = disposedMaterials (world s)
    /\ pending (world s') = pending (world s).
Proof.
  intros Hsc Hcap Hnd s'.
  pose proof (lookupColor_original (children sc)) as Hcolors.
  unfold s', handleCanvasClickAndCapture. rewrite Hsc, Hcap.
  unfold renderPhase.
  repeat match goal with
         | |- context [if throwsHere ?o ?p then _ else _] =>
             destruct (throwsHere o p)
         end;
    (eexists; split; [reflexivity|];
     cbn [camera skyVisible children cleanupPhase withSkyVisible withChildren
            withAspect cam_position fov aspect];
     split; [now destruct sc as [[p f a] v ch]|];
     split; [reflexivity|];
     split;
     [rewrite ?List.map_map;
      apply (restoreElement_sameObject _ now _ (children sc));
      [intros c Hc; now apply Hcolors | intros c; cbn; auto 10]
     |]).
  all: destruct (_ && _); cbn; auto 10.
Qed.

Lemma capture_restores_the_scene_witness :
  let s := @run rightAngles
             [Mount 16 9 0;
              Settle 0 [fulfilled (Some [sampleBox "dyn_c0_a" 0 0])] 1] in
  let o := mkCaptureOutcome (Some WhiteRender) true true in
  scene s = Some streamedScene
  /\ isCapturingRef s = false
  /\ NoDup (map uuid (children streamedScene))
  /\ exists sc',
       scene (handleCanvasClickAndCapture o 2 s) = Some sc'
       /\ camera sc' = camera streamedScene
       /\ skyVisible sc' = skyVisible streamedScene.
Proof.
  intros s o.
  assert (Hsc : scene s = Some streamedScene) by (vm_compute; reflexivity).
  assert (Hcap : isCapturingRef s = false) by (vm_compute; reflexivity).
  assert (Hnd : NoDup (map uuid (children streamedScene)))
    by (cbn; apply NoDup_singleton).
  repeat (split; [assumption|]).
  destruct (capture_restores_the_scene o 2 s streamedScene Hsc Hcap Hnd)
    as (sc' & Hsc' & Hcam & Hsky & _).
  exists sc'. split; [exact Hsc'|]. split; [exact Hcam | exact Hsky].
Defined.

(** X22. A capture makes no render pass when the green pass throws, one when
    the white pass throws and two otherwise, and it downloads one snapshot
    exactly when nothing threw, both images loaded and the 2d context
    exists. *)
Theorem snapshot_is_downloaded_only_after_both_passes (o : CaptureOutcome)
    (now : Q) (s : State) (sc : Scene) :
  scene s = Some sc ->
  isCapturingRef s = false ->
  let s' := handleCanvasClickAndCapture o now s in
  renderPasses (world s') = (renderPasses (world s) + passesMade o)%nat
  /\ downloads (world s')
     = (downloads (world s)
        + if bool_decide (throwsAt o = None) && imagesLoad o && context2d o
          then 1 else 0)%nat
  /\ (downloads (world s') <> downloads (world s) ->
      renderPasses (world s') = (renderPasses (world s) + 2)%nat).
Proof.
  intros Hsc Hcap s'. unfold s', handleCanvasClickAndCapture, passesMade.
  rewrite Hsc, Hcap. unfold renderPhase, throwsHere.
  destruct (throwsAt o) as [[| | |]|]; cbn [ThrowPoint_eqb];
    destruct (imagesLoad o), (context2d o); cbn;
    repeat split; try lia; intros Hne; try lia; now contradiction Hne.
Qed.

Lemma snapshot_is_downloaded_only_after_both_passes_witness :
  let s := @run rightAngles [Mount 16 9 0] in
  let o := mkCaptureOutcome None true true in
  scene s = Some mountedScene
  /\ isCapturingRef s = false
  /\ downloads (world (handleCanvasClickAndCapture o 1 s)) = 1%nat.
Proof.
  intros s o.
  assert (Hsc : scene s = Some mountedScene) by (vm_compute; reflexivity).
  assert (Hcap : isCapturingRef s = false) by (vm_compute; reflexivity).
  repeat (split; [assumption|]).
  exact (proj1 (proj2 (snapshot_is_downloaded_only_after_both_passes o 1 s
                         mountedScene Hsc Hcap))).
Defined.

(** ** The cleanup of the setup effect *)

(** X23. The cleanup of the setup effect leaves no scene, disposes the
    geometry and the material of every child, one geometry each, keeps the
    input refs, the streaming refs and the batches in flight, and running
    it again changes nothing. *)
Theorem unmount_disposes_every_child_and_keeps_the_refs (s : State)
    (sc : Scene) :
  scene s = Some sc ->
  scene (unmount s) = None
  /\ (forall c, c ∈ children sc ->
        geomId (geometry c) ∈ disposedGeometries (world (unmount s))
        /\ matId (material c) ∈ disposedMaterials (world (unmount s)))
  /\ List.length (disposedGeometries (world (unmount s)))
     = (List.length (disposedGeometries (world s))
        + List.length (children sc))%nat
  /\ input (unmount s) = input s
  /\ streaming (unmount s) = streaming s
  /\ pending (world (unmount s)) = pending (world s)
  /\ unmount (unmount s) = unmount s.
Proof.
  intros Hsc. unfold unmount at 1 2 3 4 5 6 7. rewrite Hsc.
  cbn [scene withWorld withScene world input streaming].
  split; [reflexivity|]. split.
  { intros c Hc. now apply disposed_foldl_disposeChild. }
  split.
  { generalize (world s). induction (children sc) as [|c cs IH]; intros w.
    - cbn. lia.
    - cbn [foldl List.length]. rewrite IH. unfold disposeChild.
      cbn. rewrite length_app. cbn. lia. }
  split; [reflexivity|]. split; [reflexivity|].
  split; [apply pending_foldl_disposeChild|].
  unfold unmount at 1. unfold unmount at 1. now rewrite Hsc.
Qed.

Lemma unmount_disposes_every_child_and_keeps_the_refs_witness :
  let s := @run rightAngles
             [Mount 16 9 0;
              Settle 0 [fulfilled (Some [sampleBox "dyn_c0_a" 0 0])] 1] in
  scene s = Some streamedScene
  /\ scene (unmount s) = None
  /\ streaming (unmount s) = streaming s.
Proof.
  intros s.
  assert (Hsc : scene s = Some streamedScene) by (vm_compute; reflexivity).
  split; [exact Hsc|].
  destruct (unmount_disposes_every_child_and_keeps_the_refs s streamedScene
              Hsc) as (Hnone & _ & _ & _ & Hr & _).
  split; [exact Hnone | exact Hr].
Defined.

Section Unmounted.
Context `{JSLib}.

(** X24. While the scene is unmounted no event other than the setup effect
    mounts a scene, allocates or disposes an object, renders, notifies or
    downloads, or changes the target field of view. *)
Theorem unmounted_component_touches_no_scene_object (s : State) (e : Event) :
  scene s = None ->
  isMount e = false ->
  scene (step s e) = None
  /\ nextId (world (step s e)) = nextId (world s)
  /\ disposedGeometries (world (step s e)) = disposedGeometries (world s)
  /\ disposedMaterials (world (step s e)) = disposedMaterials (world s)
  /\ screenshotsInitiated (world (step s e)) = screenshotsInitiated (world s)
  /\ renderPasses (world (step s e)) = renderPasses (world s)
  /\ downloads (world (step s e)) = downloads (world s)
  /\ cameraFovRef (input (step s e)) = cameraFovRef (input s).
Proof.
  intros Hsc Hm.
  destruct e as [w h r| |d|f|d|rect x| |rect ts|rect ts|rect ts|k|k|w h|t r
                |i results now|l|o now];
    try discriminate; cbn [step].
  - unfold unmount. now rewrite Hsc.
  - now destruct d.
  - unfold zoomCameraByFactor. now rewrite Hsc.
  - unfold handleMouseWheel. now rewrite Hsc.
  - unfold mouseMoveHandler, updateNormalizedPointerX. now rewrite Hsc.
  - easy.
  - unfold touchStartHandler. now rewrite Hsc.
  - unfold touchMoveHandler. now rewrite Hsc.
  - unfold touchEndHandler, updateNormalizedPointerX.
    destruct (Nat.ltb _ _), ts as [|t0 [|t1 ts]];
      cbn [scene withInput]; rewrite ?Hsc; easy.
  - now destruct k.
  - now destruct k.
  - unfold handleResize. now rewrite Hsc.
  - unfold animate. now rewrite Hsc.
  - unfold settle. destruct (pending (world s) !! i); [|easy].
    destruct (Nat.eqb _ _); [|easy].
    unfold settleBatch. cbn [scene withWorld]. now rewrite Hsc.
  - unfold landscapeEffect. now rewrite Hsc.
  - unfold handleCanvasClickAndCapture. now rewrite Hsc.
Qed.
End Unmounted.

Lemma unmounted_component_touches_no_scene_object_witness :
  let s := @run rightAngles [Mount 16 9 0; Unmount] in
  let e := Settle 0 [fulfilled (Some [sampleBox "dyn_c0_a" 0 0])] 1 in
  scene s = None
  /\ isMount e = false
  /\ scene (@step rightAngles s e) = None
  /\ nextId (world (@step rightAngles s e)) = nextId (world s).
Proof.
  intros s e.
  assert (Hsc : scene s = None) by (vm_compute; reflexivity).
  assert (Hm : isMount e = false) by reflexivity.
  split; [exact Hsc|]. split; [exact Hm|].
  destruct (@unmounted_component_touches_no_scene_object rightAngles s e
              Hsc Hm) as (Hnone & Hid & _).
  split; [exact Hnone | exact Hid].
Defined.

(** ** No child holds a disposed object *)

Section Live.
Implicit Types (ids log : list nat) (n k : nat).

Lemma live_grow ids n n' log :
  live ids n log -> (n <= n')%nat -> live ids n' log.
Proof.
  intros (Hnd & Hids & Hlog) Hn. split; [exact Hnd|]. split.
  - intros i Hi. destruct (Hids i Hi). split; [lia | assumption].
  - intros i Hi. specialize (Hlog i Hi). lia.
Qed.

Lemma live_log_equiv ids n log log' :
  (forall i, i ∈ log' <-> i ∈ log) -> live ids n log -> live ids n log'.
Proof.
  intros He (Hnd & Hids & Hlog). split; [exact Hnd|]. split.
  - intros i Hi. destruct (Hids i Hi) as [Hlt Hout].
    split; [exact Hlt|]. now rewrite He.
  - intros i Hi. apply Hlog. now apply He.
Qed.

(** A fresh object is created and disposed at once. *)
Lemma live_log ids n log k :
  live ids n log -> (n <= k)%nat -> live ids (S k) (log ++ [k]).
Proof.
  intros (Hnd & Hids & Hlog) Hk. split; [exact Hnd|]. split.
  - intros i Hi. destruct (Hids i Hi) as [Hlt Hout]. split; [lia|].
    rewrite elem_of_app, list_elem_of_singleton. intros [?|?]; [tauto | lia].
  - intros i. rewrite elem_of_app, list_elem_of_singleton.
    intros [Hi| ->]; [specialize (Hlog i Hi)|]; lia.
Qed.

(** A fresh object is put to use, anywhere in the group. *)
Lemma live_insert ids1 ids2 n log k :
  live (ids1 ++ ids2) n log -> (n <= k)%nat ->
  live (ids1 ++ k :: ids2) (S k) log.
Proof.
  intros (Hnd & Hids & Hlog) Hk.
  assert (Hfresh : (k ∉ ids1 ++ ids2) /\ (k ∉ log)).
  { split; intros Hin; [destruct (Hids k Hin) | specialize (Hlog k Hin)]; lia. }
  destruct Hfresh as [Hk1 Hk2]. split; [|split].
  - apply NoDup_app in Hnd as (Hn1 & Hdisj & Hn2).
    rewrite elem_of_app in Hk1.
    apply NoDup_app. split; [exact Hn1|]. split.
    + intros i Hi. rewrite elem_of_cons. intros [->|Hi2]; [tauto|].
      now apply (Hdisj i).
    + apply NoDup_cons. split; [tauto | exact Hn2].
  - intros i. rewrite elem_of_app, elem_of_cons.
    intros Hi.
    assert (Hcase : i = k \/ i ∈ ids1 ++ ids2)
      by (rewrite elem_of_app; tauto).
    destruct Hcase as [->|Hin]; [split; [lia | exact Hk2]|].
    destruct (Hids i Hin). split; [lia | assumption].
  - intros i Hi. specialize (Hlog i Hi). lia.
Qed.

Lemma live_snoc ids n log k :
  live ids n log -> (n <= k)%nat -> live (ids ++ [k]) (S k) log.
Proof.
  intros Hl Hk.
  apply (live_insert ids [] n log k); [now rewrite app_nil_r | exact Hk].
Qed.

(** An object in use is disposed and leaves the group. *)
Lemma live_dispose ids1 k ids2 n log :
  live (ids1 ++ k :: ids2) n log -> live (ids1 ++ ids2) n (log ++ [k]).
Proof.
  intros (Hnd & Hids & Hlog).
  apply NoDup_app in Hnd as (Hn1 & Hdisj & Hn2).
  apply NoDup_cons in Hn2 as [Hk2 Hn2].
  assert (Hk1 : k ∉ ids1).
  { intros Hin. apply (Hdisj k Hin). now left. }
  assert (Hin : forall i, i ∈ ids1 ++ ids2 -> i ∈ ids1 ++ k :: ids2).
  { intros i. rewrite !elem_of_app, elem_of_cons. tauto. }
  split; [|split].
  - apply NoDup_app. split; [exact Hn1|]. split; [|exact Hn2].
    intros i Hi Hi2. apply (Hdisj i Hi). now right.
  - intros i Hi. destruct (Hids i (Hin i Hi)) as [Hlt Hout].
    split; [exact Hlt|].
    rewrite elem_of_app, list_elem_of_singleton. intros [?| ->]; [tauto|].
    rewrite elem_of_app in Hi. tauto.
  - intros i. rewrite elem_of_app, list_elem_of_singleton.
    intros [Hi| ->]; [now apply Hlog|].
    apply (Hids k). rewrite elem_of_app, elem_of_cons. tauto.
Qed.
End Live.

Lemma live_filter {A} (key : A -> nat) (p : A -> bool) (l : list A) n :
  forall log,
  live (map key l) n log ->
  live (map key (List.filter (fun x => negb (p x)) l)) n
    (log ++ map key (List.filter p l)).
Proof.
  induction l as [|x l IH]; intros log Hl; cbn [List.filter map].
  - now rewrite app_nil_r.
  - destruct (p x) eqn:Hp; cbn [negb map].
    + replace (log ++ key x :: map key (List.filter p l))
        with ((log ++ [key x]) ++ map key (List.filter p l))
        by now rewrite <- app_assoc.
      apply IH. exact (live_dispose [] (key x) (map key l) n log Hl).
    + assert (Hsub : forall q i, i ∈ map key (List.filter q l) ->
                                 i ∈ map key l).
      { intros q i Hi. apply list_elem_of_fmap in Hi as (y & -> & Hy).
        apply list_elem_of_In, List.filter_In in Hy as [Hy _].
        apply list_elem_of_fmap_2. now apply list_elem_of_In. }
      destruct Hl as (Hnd & Hids & Hlog).
      apply NoDup_cons in Hnd as [Hx Hnd].
      assert (Htail : live (map key l) n log).
      { split; [exact Hnd|]. split; [|exact Hlog].
        intros i Hi. apply Hids. now right. }
      destruct (IH log Htail) as (Hnd' & Hids' & Hlog').
      split; [|split; [|exact Hlog']].
      * apply NoDup_cons. split; [|exact Hnd'].
        intros Hin. apply Hx. now apply (Hsub (fun y => negb (p y))).
      * intros i Hi. apply elem_of_cons in Hi as [->|Hi]; [|now apply Hids'].
        destruct (Hids (key x)) as [Hlt Hout]; [now left|].
        split; [exact Hlt|]. rewrite elem_of_app. intros [Hin|Hin]; [tauto|].
        apply Hx. now apply (Hsub p).
Qed.

Lemma foldl_disposeChild_logs cs : forall w,
  nextId (foldl disposeChild w cs) = nextId w
  /\ disposedGeometries (foldl disposeChild w cs)
     = disposedGeometries w ++ geometryIds cs
  /\ disposedMaterials (foldl disposeChild w cs)
     = disposedMaterials w ++ childMaterials cs.
Proof.
  induction cs as [|c cs IH]; intros w; cbn [foldl].
  - cbn. now rewrite !app_nil_r.
  - destruct (IH (disposeChild w c)) as (-> & -> & ->).
    unfold disposeChild, geometryIds, childMaterials. cbn.
    now rewrite <- !app_assoc.
Qed.

Lemma liveObjects_removeWhere p group w :
  liveObjects group w ->
  liveObjects (removeWhere p group w).1 (removeWhere p group w).2.
Proof.
  intros [Hg Hm]. unfold removeWhere, liveObjects. cbn [fst snd].
  destruct (foldl_disposeChild_logs (List.filter p group) w) as (-> & -> & ->).
  split; [apply (live_filter _ p), Hg | apply (live_filter _ p), Hm].
Qed.

Lemma createElement_ids b fade clock w :
  let c' := (createOrUpdateLineSegments b None fade clock w).1 in
  let w' := (createOrUpdateLineSegments b None fade clock w).2 in
  geomId (geometry c') = S (nextId w)
  /\ matId (material c') = S (S (nextId w))
  /\ nextId w' = S (S (S (S (nextId w))))
  /\ disposedGeometries w' = disposedGeometries w ++ [nextId w]
  /\ disposedMaterials w' = disposedMaterials w.
Proof.
  unfold createOrUpdateLineSegments, buildEdges.
  destruct fade, clock; cbn; repeat split; auto; lia.
Qed.

Lemma liveObjects_create b fade clock group w :
  liveObjects group w ->
  liveObjects (group ++ [(createOrUpdateLineSegments b None fade clock w).1])
    (createOrUpdateLineSegments b None fade clock w).2.
Proof.
  intros [Hg Hm].
  destruct (createElement_ids b fade clock w) as (Eg & Em & En & Elg & Elm).
  unfold liveObjects, geometryIds, childMaterials.
  rewrite !map_app. cbn [map]. rewrite Eg, Em, En, Elg, Elm. split.
  - pose proof (live_log _ _ _ (nextId w) Hg (le_n _)) as H1.
    pose proof (live_snoc _ _ _ (S (nextId w)) H1 (le_n _)) as H2.
    eapply live_grow; [exact H2 | lia].
  - assert (Hle : (nextId w <= S (S (nextId w)))%nat) by lia.
    pose proof (live_snoc _ _ _ (S (S (nextId w))) Hm Hle) as H1.
    eapply live_grow; [exact H1 | lia].
Qed.

Lemma liveObjects_update b c before after w :
  liveObjects (before ++ c :: after) w ->
  liveObjects (before ++ (updateElement b c w).1 :: after)
    (updateElement b c w).2.
Proof.
  intros [Hg Hm].
  destruct (updateElement_spec b c w)
    as (_ & _ & Em & _ & _ & Eg & En & Elg & Elm).
  unfold liveObjects, geometryIds, childMaterials in *.
  rewrite !map_app in *. cbn [map] in *. rewrite Eg, Em, En, Elg, Elm.
  split.
  - apply live_dispose in Hg.
    apply (live_log _ _ _ (nextId w)) in Hg; [|lia].
    apply (live_insert _ _ _ _ (S (nextId w))) in Hg; [|lia].
    replace (nextId w + 2)%nat with (S (S (nextId w))) by lia.
    eapply live_log_equiv; [|exact Hg].
    intros i. rewrite !elem_of_app, !elem_of_cons, !elem_of_nil. tauto.
  - eapply live_grow; [exact Hm | lia].
Qed.

Lemma liveObjects_reconcileBuilding dyn b group w :
  liveObjects group w ->
  liveObjects (reconcileBuilding dyn (group, w) b).1
    (reconcileBuilding dyn (group, w) b).2.
Proof.
  intros Hl. unfold reconcileBuilding.
  destruct (bool_decide (el_id b ∈ dyn)); [exact Hl|].
  destruct (updateFirst b group w) as [[g1 w1]|] eqn:Eu.
  - apply updateFirst_Some in Eu
      as (before & c & after & -> & _ & _ & -> & ->).
    cbn [fst snd]. now apply liveObjects_update.
  - pose proof (liveObjects_create b false None group w Hl) as Hc.
    now destruct (createOrUpdateLineSegments b None false None w).
Qed.

Lemma liveObjects_foldl_reconcileBuilding dyn bs : forall group w,
  liveObjects group w ->
  liveObjects (foldl (reconcileBuilding dyn) (group, w) bs).1
    (foldl (reconcileBuilding dyn) (group, w) bs).2.
Proof.
  induction bs as [|b bs IH]; intros group w Hl; [exact Hl|].
  cbn [foldl].
  pose proof (liveObjects_reconcileBuilding dyn b group w Hl) as Hstep.
  destruct (reconcileBuilding dyn (group, w) b) as [g1 w1]. now apply IH.
Qed.

Lemma liveObjects_reconcileGroup l dyn group w :
  liveObjects group w ->
  liveObjects (reconcileGroup l dyn group w).1 (reconcileGroup l dyn group w).2.
Proof.
  intros Hl. unfold reconcileGroup.
  destruct l as [l|]; [|now apply liveObjects_removeWhere].
  destruct (buildings l) as [|b0 bs]; [now apply liveObjects_removeWhere|].
  pose proof (liveObjects_foldl_reconcileBuilding dyn (b0 :: bs) group w Hl)
    as Hfold.
  destruct (foldl (reconcileBuilding dyn) (group, w) (b0 :: bs)) as [g1 w1].
  now apply liveObjects_removeWhere.
Qed.

Lemma liveObjects_landscapeEffect l s :
  liveObjects (childrenOf s) (world s) ->
  liveObjects (childrenOf (landscapeEffect l s)) (world (landscapeEffect l s)).
Proof.
  unfold landscapeEffect, childrenOf.
  destruct (scene s) as [sc|] eqn:Hsc; [|now rewrite Hsc].
  intros Hl. unfold clearDynamic. destruct (Nat.ltb _ _).
  - pose proof (liveObjects_removeWhere
                  (fun child => bool_decide
                     (ud_id (userData child)
                      ∈ dynamicallyGeneratedBuildingsRef (streaming s)))
                  (children sc) (world s) Hl) as E.
    destruct (removeWhere _ (children sc) (world s)) as [g1 w1].
    cbn [fst snd children dynamicallyGeneratedBuildingsRef] in *.
    pose proof (liveObjects_reconcileGroup l ∅ g1 w1 E) as E2.
    now destruct (reconcileGroup l ∅ g1 w1).
  - pose proof (liveObjects_reconcileGroup l
                  (dynamicallyGeneratedBuildingsRef (streaming s))
                  (children sc) (world s) Hl) as E2.
    now destruct (reconcileGroup _ _ _ _).
Qed.

Lemma liveObjects_foldl_addClusterBuilding now center bs : forall group dyn w,
  liveObjects group w ->
  liveObjects (foldl (addClusterBuilding now center) (group, dyn, w) bs).1.1
    (foldl (addClusterBuilding now center) (group, dyn, w) bs).2.
Proof.
  induction bs as [|b bs IH]; intros group dyn w Hl; [exact Hl|].
  cbn [foldl].
  assert (Hstep : exists e dyn1 w1,
            addClusterBuilding now center (group, dyn, w) b
            = (group ++ [e], dyn1, w1)
            /\ liveObjects (group ++ [e]) w1).
  { unfold addClusterBuilding.
    match goal with
    | |- context [createOrUpdateLineSegments ?m None true (Some now) w] =>
        pose proof (liveObjects_create m true (Some now) group w Hl) as Hc;
        destruct (createOrUpdateLineSegments m None true (Some now) w)
          as [e w1]
    end.
    eauto. }
  destruct Hstep as (e & dyn1 & w1 & -> & Hc). now apply IH.
Qed.

Lemma liveObjects_foldl_applyResult now entries : forall group dyn w,
  liveObjects group w ->
  liveObjects (foldl (applyResult now) (group, dyn, w) entries).1.1
    (foldl (applyResult now) (group, dyn, w) entries).2.
Proof.
  induction entries as [|[center [[bs|]|]] entries IH]; intros group dyn w Hl;
    cbn [foldl applyResult]; auto.
  pose proof (liveObjects_foldl_addClusterBuilding now center bs group dyn w Hl)
    as Hstep.
  destruct (foldl (addClusterBuilding now center) (group, dyn, w) bs)
    as [[g d] w']. now apply IH.
Qed.

Lemma liveObjects_settle i results now s :
  liveObjects (childrenOf s) (world s) ->
  liveObjects (childrenOf (settle i results now s))
    (world (settle i results now s)).
Proof.
  intros Hl. unfold settle.
  destruct (pending (world s) !! i) as [batch|]; [|exact Hl].
  destruct (Nat.eqb _ _); [|exact Hl].
  unfold settleBatch, childrenOf in *. cbn [scene withWorld].
  destruct (scene s) as [sc|] eqn:Hsc.
  - cbn [world withWorld streaming].
    pose proof (liveObjects_foldl_applyResult now
                  (zip (targetCenters batch) results) (children sc)
                  (dynamicallyGeneratedBuildingsRef (streaming s))
                  (withPending (world s) (delete i (pending (world s)))) Hl)
      as E.
    now destruct (foldl (applyResult now) _ _) as [[g d] w].
  - cbn [scene withStreaming withWorld]. rewrite Hsc. exact Hl.
Qed.

(** Changes of a child's material settings keep the objects it holds. *)
Lemma liveObjects_same_objects group group' w w' :
  geometryIds group' = geometryIds group ->
  childMaterials group' = childMaterials group ->
  nextId w' = nextId w ->
  disposedGeometries w' = disposedGeometries w ->
  disposedMaterials w' = disposedMaterials w ->
  liveObjects group w -> liveObjects group' w'.
Proof. unfold liveObjects. now intros -> -> -> -> ->. Qed.

Lemma fadeIn_objects t c :
  geomId (geometry (fadeIn t c)) = geomId (geometry c)
  /\ matId (material (fadeIn t c)) = matId (material c).
Proof.
  unfold fadeIn. destruct (flag _ && flag _); [|easy].
  destruct (creationTime (userData c)); [|easy].
  now destruct (Qle_bool _ _).
Qed.

Lemma map_objects_preserved (f : LineSegments -> LineSegments) group :
  (forall c, geomId (geometry (f c)) = geomId (geometry c)
             /\ matId (material (f c)) = matId (material c)) ->
  geometryIds (map f group) = geometryIds group
  /\ childMaterials (map f group) = childMaterials group.
Proof.
  intros Hf. unfold geometryIds, childMaterials. rewrite !List.map_map.
  split; apply List.map_ext; intros c; apply Hf.
Qed.

Lemma restoreElement_objects colors now c :
  geomId (geometry (restoreElement colors now c)) = geomId (geometry c)
  /\ matId (material (restoreElement colors now c)) = matId (material c).
Proof.
  unfold restoreElement, restoreColor.
  destruct (flag _ && flag _); [now destruct (creationTime _)|].
  now destruct (flag _ && negb _).
Qed.

Lemma liveObjects_capture o now s :
  liveObjects (childrenOf s) (world s) ->
  liveObjects (childrenOf (handleCanvasClickAndCapture o now s))
    (world (handleCanvasClickAndCapture o now s)).
Proof.
  unfold handleCanvasClickAndCapture, childrenOf.
  destruct (scene s) as [sc|] eqn:Hsc; [|now rewrite Hsc].
  destruct (isCapturingRef s); [now rewrite Hsc|].
  intros Hl. unfold renderPhase.
  repeat match goal with
         | |- context [if throwsHere ?o ?p then _ else _] =>
             destruct (throwsHere o p)
         end;
    cbn [scene children world cleanupPhase withSkyVisible withChildren
           withAspect];
    (eapply liveObjects_same_objects; [| | | | |exact Hl];
     [rewrite ?List.map_map; apply map_objects_preserved
     |rewrite ?List.map_map; apply map_objects_preserved
     |destruct (_ && _); reflexivity
     |destruct (_ && _); reflexivity
     |destruct (_ && _); reflexivity]);
    intros c; cbn; now rewrite !(proj1 (restoreElement_objects _ _ _)),
                          !(proj2 (restoreElement_objects _ _ _)).
Qed.

Lemma liveObjects_unmounted group w : liveObjects group w -> liveObjects [] w.
Proof.
  intros [(_ & _ & Hg) (_ & _ & Hm)].
  split; (split; [constructor|]; split; [|assumption]);
    intros i Hi; now apply elem_of_nil in Hi.
Qed.

Section LiveStates.
Context `{JSLib}.

Lemma liveObjects_animate t r s :
  liveObjects (childrenOf s) (world s) ->
  liveObjects (childrenOf (animate t r s)) (world (animate t r s)).
Proof.
  intros Hl. unfold animate, childrenOf in *.
  destruct (scene s) as [sc|] eqn:Hsc; [|now rewrite Hsc].
  destruct (isCapturingRef s); [now rewrite Hsc|].
  match goal with
  | |- context [if ?c then _ else _] => destruct c
  end;
    try destruct (subClusters _ _ _ _ _ _) as [[cs ps] k];
    cbn [scene world children];
    (eapply liveObjects_same_objects; [| | | | |exact Hl];
     [apply map_objects_preserved, fadeIn_objects
     |apply map_objects_preserved, fadeIn_objects
     |reflexivity..]).
Qed.

Lemma step_liveObjects s e :
  liveObjects (childrenOf s) (world s) ->
  liveObjects (childrenOf (step s e)) (world (step s e)).
Proof.
  intros Hs. destruct (inputEvent e) eqn:Ei.
  { destruct (input_event_only_input s e Ei) as [i' ->]. exact Hs. }
  destruct e as [w h r| | | | | | | | | | | |w h|t r|i results now|l|o now];
    try discriminate; cbn [step].
  - unfold mount. apply liveObjects_animate.
    exact (liveObjects_unmounted _ _ Hs).
  - unfold unmount, childrenOf in *.
    destruct (scene s) as [sc|] eqn:Hsc; [|now rewrite Hsc].
    cbn [scene world withWorld withScene].
    pose proof (liveObjects_removeWhere (fun _ => true) (children sc)
                  (world s) Hs) as Hr.
    unfold removeWhere in Hr. cbn [fst snd] in Hr.
    rewrite filter_true in Hr.
    exact (liveObjects_unmounted _ _ Hr).
  - unfold handleResize. destruct (scene s) as [sc|] eqn:Hsc; [|exact Hs].
    unfold childrenOf in *. rewrite Hsc in Hs. exact Hs.
  - now apply liveObjects_animate.
  - now apply liveObjects_settle.
  - now apply liveObjects_landscapeEffect.
  - now apply liveObjects_capture.
Qed.

(** X25. In every reachable state the children of the city group hold
    pairwise different geometries and pairwise different materials, all
    allocated, and none of them has been disposed. *)
Theorem no_child_holds_a_disposed_object (events : list Event) :
  NoDup (geometryIds (childrenOf (run events)))
  /\ NoDup (childMaterials (childrenOf (run events)))
  /\ forall c, c ∈ childrenOf (run events) ->
       (geomId (geometry c) ∉ disposedGeometries (world (run events)))
       /\ (matId (material c) ∉ disposedMaterials (world (run events)))
       /\ (geomId (geometry c) < nextId (world (run events)))%nat
       /\ (matId (material c) < nextId (world (run events)))%nat.
Proof.
  assert (Hlive : liveObjects (childrenOf (run events)) (world (run events))).
  { apply (run_invariant (fun s => liveObjects (childrenOf s) (world s))).
    - split; (split; [constructor|]; split);
        intros i Hi; now apply elem_of_nil in Hi.
    - intros s e. apply step_liveObjects. }
  destruct Hlive as [(Hgn & Hg & _) (Hmn & Hm & _)].
  split; [exact Hgn|]. split; [exact Hmn|].
  intros c Hc.
  destruct (Hg (geomId (geometry c))) as [Hg1 Hg2].
  { exact (list_elem_of_fmap_2 (fun x => geomId (geometry x)) _ c Hc). }
  destruct (Hm (matId (material c))) as [Hm1 Hm2].
  { exact (list_elem_of_fmap_2 (fun x => matId (material x)) _ c Hc). }
  auto.
Qed.
End LiveStates.

(** ** MonitorScreen.tsx: the noise texture *)

Lemma hexDigit_range c v : hexDigit c = Some v -> (0 <= v <= 15)%Z.
Proof.
  unfold hexDigit.
  repeat match goal with
         | |- context [if ?b then _ else _] => destruct b eqn:?
         end; intros [= <-]; lia.
Qed.

Lemma parseHexPair_range hi lo v : parseHexPair hi lo = Some v -> isByte v.
Proof.
  unfold parseHexPair.
  destruct (hexDigit hi) as [h|] eqn:Hh; [|discriminate].
  destruct (hexDigit lo) as [l|] eqn:Hl; [|discriminate].
  intros [= <-]. apply hexDigit_range in Hh, Hl. unfold isByte. lia.
Qed.

Lemma hexToRgb_range hex :
  isByte (rgb_r (hexToRgb hex)) /\ isByte (rgb_g (hexToRgb hex))
  /\ isByte (rgb_b (hexToRgb hex)).
Proof.
  assert (Hdefault : isByte (rgb_r failsafeGreen)
                     /\ isByte (rgb_g failsafeGreen)
                     /\ isByte (rgb_b failsafeGreen))
    by (unfold isByte; cbn; lia).
  unfold hexToRgb.
  set (digits := match hex with String "#"%char rest => rest | _ => hex end).
  destruct digits as [|c1 [|c2 [|c3 [|c4 [|c5 [|c6 [|c7 rest]]]]]]];
    try exact Hdefault.
  destruct (parseHexPair c1 c2) as [r|] eqn:Hr; [|exact Hdefault].
  destruct (parseHexPair c3 c4) as [g|] eqn:Hg; [|exact Hdefault].
  destruct (parseHexPair c5 c6) as [b|] eqn:Hb; [|exact Hdefault].
  cbn [rgb_r rgb_g rgb_b].
  split; [|split]; eapply parseHexPair_range; eassumption.
Qed.

Lemma floor_fraction_of_byte v (k : Q) :
  isByte v -> 0 <= k -> k <= 1 ->
  (0 <= Math_floor (inject_Z v * k) <= v)%Z.
Proof.
  intros [H0 H255] Hk0 Hk1. unfold Math_floor.
  assert (Hv : 0 <= inject_Z v).
  { change 0 with (inject_Z 0). now rewrite <- Zle_Qle. }
  split.
  - change 0%Z with (Qfloor 0). apply Qfloor_resp_le.
    apply Qmult_le_0_compat; assumption.
  - rewrite <- (Qfloor_Z v) at 2. apply Qfloor_resp_le. nra.
Qed.

(** X26. Without a 2d context [generateNoiseTexture] returns nothing. With
    one it fills one pixel per random value, each fully opaque and of the
    main colour, the dark colour or black; every byte written lies in
    [[0, 255]], for every colour string, and the dark colour is at most the
    main colour in each channel. *)
Theorem noise_texture_is_made_of_three_opaque_colours (color : string)
    (randoms : list Q) :
  let main := hexToRgb color in
  let dark := darkColorOf main in
  generateNoiseTexture color false randoms = None
  /\ (exists pixels,
        generateNoiseTexture color true randoms = Some pixels
        /\ List.length pixels = List.length randoms
        /\ Forall (fun p =>
                     (p = opaquePixel main \/ p = opaquePixel dark
                      \/ p = opaquePixel (mkRGB 0 0 0))
                     /\ isByte (px_r p) /\ isByte (px_g p)
                     /\ isByte (px_b p) /\ px_a p = 255%Z) pixels)
  /\ (0 <= rgb_r dark <= rgb_r main)%Z
  /\ (0 <= rgb_g dark <= rgb_g main)%Z
  /\ (0 <= rgb_b dark <= rgb_b main)%Z.
Proof.
  intros main dark.
  destruct (hexToRgb_range color) as (Hr & Hg & Hb).
  fold main in Hr, Hg, Hb.
  assert (Hdr : (0 <= rgb_r dark <= rgb_r main)%Z)
    by (apply floor_fraction_of_byte; [exact Hr | lra | lra]).
  assert (Hdg : (0 <= rgb_g dark <= rgb_g main)%Z)
    by (apply floor_fraction_of_byte; [exact Hg | lra | lra]).
  assert (Hdb : (0 <= rgb_b dark <= rgb_b main)%Z)
    by (apply floor_fraction_of_byte; [exact Hb | lra | lra]).
  split; [reflexivity|]. split; [|auto].
  unfold generateNoiseTexture. cbn [negb]. fold main. fold dark.
  eexists. split; [reflexivity|]. split; [apply length_map|].
  apply Forall_forall. intros p Hp.
  apply list_elem_of_fmap in Hp as (x & -> & _).
  unfold noisePixel, opaquePixel, isByte in *.
  destruct (Qltb x 0.6); [|destruct (Qltb x 0.85)];
    cbn [px_r px_g px_b px_a rgb_r rgb_g rgb_b];
    (split; [tauto|]); repeat split; lia.
Qed.

(** ** MonitorScreen.tsx: the buttons *)

(** X27. [handleGenericButtonPress] calls the action of a button exactly when
    no generation is running and generating is possible, whatever the
    button, flash type and duration. While a generation runs only the
    generate button flashes (generic, 100 ms); a flash lasts 100 ms, the
    default of its type, or the non-zero duration passed. *)
Theorem button_acts_only_when_enabled (isGenerating canGenerate : bool)
    (buttonId : string) (flashType : option (option FlashType))
    (flashDurationMs : option Q) :
  let press := handleGenericButtonPress isGenerating canGenerate buttonId
                 flashType flashDurationMs in
  (actionCalled press = true <-> isGenerating = false /\ canGenerate = true)
  /\ (isGenerating = true ->
      flashTriggered press
      = if String.eqb buttonId "generate" then Some (flash_generic, 100)
        else None)
  /\ (isGenerating = false -> canGenerate = false -> flashTriggered press = None)
  /\ forall t d, flashTriggered press = Some (t, d) ->
       d = 100 \/ d = defaultFlashDuration t
       \/ (flashDurationMs = Some d /\ ~ d == 0).
Proof.
  intros press. unfold press, handleGenericButtonPress.
  destruct (String.eqb buttonId "generate") eqn:Eg,
    (String.eqb buttonId "zoomLvl") eqn:Ez, isGenerating, canGenerate;
    cbn [andb orb negb actionCalled flashTriggered];
    (split; [split; [try discriminate; auto | intros [? ?]; try discriminate]
            |split; [try discriminate; auto
                    |split; [try discriminate; auto|]]]).
  all: try (intros t d; discriminate).
  all: try (destruct flashType as [[[]|]|]; reflexivity).
  all: intros t d; destruct flashType as [[[]|]|];
    cbn [flashTriggered]; try discriminate;
    try (destruct flashDurationMs as [q|]; [destruct (Qeq_bool q 0) eqn:Eq|]);
    intros [= <- <-]; auto.
  all: right; right; split; [reflexivity|];
    intros Hq; apply Qeq_bool_iff in Hq; congruence.
Qed.

Section CityButtons.
Context `{JSLib}.

Lemma clickZoom_enabled s sc :
  scene s = Some sc ->
  clickCityButton false true ZoomLvl s
  = withInput s
      (withFov (input s)
         (clampFov (cameraFovRef (input s) + DEFAULT_FOV * 0.25))).
Proof.
  intros Hsc. unfold clickCityButton, zoomCameraByFactor. cbn.
  rewrite Hsc. reflexivity.
Qed.

Lemma clickZoom_iter n s sc :
  scene s = Some sc ->
  fovInRange (cameraFovRef (input s)) ->
  let pressed := Nat.iter n (clickCityButton false true ZoomLvl) s in
  scene pressed = Some sc
  /\ fovInRange (cameraFovRef (input pressed))
  /\ cameraFovRef (input s) <= cameraFovRef (input pressed)
  /\ (90 <= cameraFovRef (input pressed)
      \/ cameraFovRef (input s) + 15 * inject_Z (Z.of_nat n)
         <= cameraFovRef (input pressed)).
Proof.
  intros Hsc Hr. induction n as [|n IH]; cbv zeta.
  - cbn [Nat.iter nat_rect]. split; [exact Hsc|]. split; [exact Hr|].
    split; [lra|]. right. change (inject_Z (Z.of_nat 0)) with 0. lra.
  - cbv zeta in IH. destruct IH as (Hsc' & Hr' & Hmono & Hfar).
    rewrite Nat.iter_succ. rewrite (clickZoom_enabled _ sc Hsc').
    cbn [scene input withInput withFov cameraFovRef].
    split; [exact Hsc'|]. split; [apply clampFov_range|].
    rewrite inject_Z_S. destruct Hr' as [Hlo Hhi].
    unfold MIN_FOV, MAX_FOV in *.
    destruct (clampFov_cases
                (cameraFovRef
                   (input (Nat.iter n (clickCityButton false true ZoomLvl) s))
                 + DEFAULT_FOV * 0.25)) as [[Hv ->]|[[Hv ->]|[Hv ->]]];
      unfold MIN_FOV, MAX_FOV, DEFAULT_FOV in *.
    + lra.
    + split; [lra|]. destruct Hfar; [left|right]; lra.
    + destruct Hr as [_ Hr]. unfold MAX_FOV in Hr.
      split; [lra|]. left. lra.
Qed.

(** X28. On a reachable mounted state, clicks on the enabled zoom button
    never lower the target field of view, and four or more of them put it
    at 90. A click on one of the three cityscape buttons while a generation
    runs or generating is impossible leaves the cityscape as it is. *)
Theorem zoom_button_only_widens_the_view (events : list Event) (n : nat)
    (isGenerating canGenerate : bool) (b : CityButton) :
  is_Some (scene (run events)) ->
  let s := run events in
  let pressed := Nat.iter n (clickCityButton false true ZoomLvl) s in
  cameraFovRef (input s) <= cameraFovRef (input pressed)
  /\ ((4 <= n)%nat -> cameraFovRef (input pressed) == 90)
  /\ (isGenerating = true \/ canGenerate = false ->
      clickCityButton isGenerating canGenerate b s = s).
Proof.
  intros [sc Hsc] s pressed.
  destruct (clickZoom_iter n s sc Hsc (reachable_fovInRange events))
    as (_ & [_ Hhi] & Hmono & Hfar).
  fold pressed in Hhi, Hmono, Hfar. unfold MAX_FOV in Hhi.
  split; [exact Hmono|]. split.
  - intros Hn. destruct (reachable_fovInRange events) as [Hlo _].
    unfold MIN_FOV in Hlo. fold s in Hlo.
    assert (Hn' : 4 <= inject_Z (Z.of_nat n)).
    { change 4 with (inject_Z 4). rewrite <- Zle_Qle. lia. }
    destruct Hfar; lra.
  - intros Hoff. unfold clickCityButton, handleGenericButtonPress.
    destruct b, isGenerating, canGenerate;
      destruct Hoff as [Hoff|Hoff]; try discriminate; reflexivity.
Qed.
End CityButtons.

Lemma zoom_button_only_widens_the_view_witness :
  let events := [Mount 16 9 0] in
  is_Some (scene (@run rightAngles events))
  /\ cameraFovRef (input (@run rightAngles events))
     <= cameraFovRef
          (input (Nat.iter 2 (@clickCityButton rightAngles false true ZoomLvl)
                    (@run rightAngles events))).
Proof.
  intros events.
  assert (Hm : is_Some (scene (@run rightAngles events)))
    by (vm_compute; eexists; reflexivity).
  split; [exact Hm|].
  exact (proj1 (@zoom_button_only_widens_the_view rightAngles events 2
                  false true ZoomLvl Hm)).
Defined.

(** ** MonitorScreen.tsx: the loader of a flash *)

Lemma Math_floor_scaled random (k : Z) :
  0 <= random -> random < 1 -> (0 < k)%Z ->
  (0 <= Math_floor (random * inject_Z k) < k)%Z.
Proof.
  intros H0 H1 Hk. unfold Math_floor.
  assert (Hk' : 0 < inject_Z k).
  { change 0 with (inject_Z 0). now rewrite <- Zlt_Qlt. }
  split.
  - change 0%Z with (Qfloor 0). apply Qfloor_resp_le. nra.
  - assert (Hlt : inject_Z (Qfloor (random * inject_Z k)) < inject_Z k).
    { apply Qle_lt_trans with (random * inject_Z k); [apply Qfloor_le | nra]. }
    now rewrite <- Zlt_Qlt in Hlt.
Qed.

Lemma targetPopulationNumber_range type random :
  0 <= random -> random < 1 ->
  match type with
  | flash_populate =>
      (1000000 <= targetPopulationNumber type random < 10000000)%Z
  | flash_research =>
      (50000 <= targetPopulationNumber type random < 1000000)%Z
  | flash_validate =>
      (20000 <= targetPopulationNumber type random < 450000)%Z
  | _ => targetPopulationNumber type random = 0%Z
  end.
Proof.
  intros H0 H1. destruct type; cbn [targetPopulationNumber]; try reflexivity.
  - pose proof (Math_floor_scaled random 9000000 H0 H1 eq_refl) as Hf.
    change (inject_Z 9000000) with 9000000 in Hf. lia.
  - pose proof (Math_floor_scaled random 950000 H0 H1 eq_refl) as Hf.
    change (inject_Z 950000) with 950000 in Hf. lia.
  - pose proof (Math_floor_scaled random 430000 H0 H1 eq_refl) as Hf.
    change (inject_Z 430000) with 430000 in Hf. lia.
Qed.

Lemma loaderProgressAt_range start duration t :
  0 < duration -> start <= t ->
  0 <= loaderProgressAt start duration t
  /\ loaderProgressAt start duration t <= 100.
Proof.
  intros Hd Ht. unfold loaderProgressAt. cbv zeta.
  assert (Hq : 0 <= (t - start) / duration)
    by (apply Qle_shift_div_l; [exact Hd | lra]).
  split; [apply Q.min_glb; lra | apply Q.le_min_l].
Qed.

Lemma loaderProgressAt_monotone start duration t1 t2 :
  0 < duration -> t1 <= t2 ->
  loaderProgressAt start duration t1 <= loaderProgressAt start duration t2.
Proof.
  intros Hd Ht. unfold loaderProgressAt. cbv zeta.
  apply Q.min_le_compat_l.
  assert (Hq : (t1 - start) / duration <= (t2 - start) / duration).
  { apply Qle_shift_div_l; [exact Hd|].
    unfold Qdiv. rewrite <- Qmult_assoc, (Qmult_comm (/ duration)),
      Qmult_inv_r, Qmult_1_r by lra. lra. }
  lra.
Qed.

Lemma percent_monotone (a b : Q) : a <= b -> a / 100 <= b / 100.
Proof.
  intros Hab. unfold Qdiv. apply Qmult_le_compat_r; [exact Hab|].
  unfold Qle. simpl. lia.
Qed.

Lemma floor_of_fractions (a b : Q) (T : Z) :
  0 <= a -> a <= b -> b <= 1 -> (0 <= T)%Z ->
  (0 <= Qfloor (a * inject_Z T))%Z
  /\ (Qfloor (a * inject_Z T) <= Qfloor (b * inject_Z T))%Z
  /\ (Qfloor (b * inject_Z T) <= T)%Z.
Proof.
  intros Ha Hab Hb HT.
  assert (HT' : 0 <= inject_Z T).
  { change 0 with (inject_Z 0). now rewrite <- Zle_Qle. }
  split; [change 0%Z with (Qfloor 0); apply Qfloor_resp_le; nra|].
  split; [apply Qfloor_resp_le; nra|].
  rewrite <- (Qfloor_Z T) at 2. apply Qfloor_resp_le. nra.
Qed.

(** The count [updateLoaderAnimation] computes, as a function of the
    timestamp of the frame. *)
Lemma loaderCountAt_monotone (type : FlashType)
    (random start duration t1 t2 : Q) :
  0 <= random -> random < 1 ->
  0 < duration ->
  start <= t1 -> t1 <= t2 ->
  let target := targetPopulationNumber type random in
  let count := fun t =>
    loaderCountAt target (loaderProgressAt start duration t) in
  match type with
  | flash_populate => (1000000 <= target < 10000000)%Z
  | flash_research => (50000 <= target < 1000000)%Z
  | flash_validate => (20000 <= target < 450000)%Z
  | _ => target = 0%Z
  end
  /\ (0 <= count t1)%Z
  /\ (count t1 <= count t2)%Z
  /\ (count t2 <= target)%Z
  /\ (start + duration <= t2 ->
      loaderProgressAt start duration t2 == 100 /\ count t2 = target).
Proof.
  intros H0 H1 Hd Ht1 Ht12 target count.
  pose proof (targetPopulationNumber_range type random H0 H1) as Hrange.
  fold target in Hrange.
  assert (Htarget : (0 <= target)%Z) by (destruct type; lia).
  assert (HT : 0 <= inject_Z target).
  { change 0 with (inject_Z 0). now rewrite <- Zle_Qle. }
  destruct (loaderProgressAt_range start duration t1 Hd Ht1) as [Hp1 Hp1'].
  destruct (loaderProgressAt_range start duration t2 Hd) as [Hp2 Hp2'];
    [lra|].
  pose proof (loaderProgressAt_monotone start duration t1 t2 Hd Ht12) as Hm.
  split; [exact Hrange|]. unfold count, loaderCountAt, Math_floor.
  destruct (floor_of_fractions (loaderProgressAt start duration t1 / 100)
              (loaderProgressAt start duration t2 / 100) target)
    as (Hc0 & Hc12 & Hc2);
    [apply Qle_trans with (0 / 100);
       [discriminate | exact (percent_monotone 0 _ Hp1)]
    |exact (percent_monotone _ _ Hm)
    |apply Qle_trans with (100 / 100);
       [exact (percent_monotone _ 100 Hp2') | discriminate]
    |exact Htarget |].
  split; [exact Hc0|]. split; [exact Hc12|]. split; [exact Hc2|].
  intros Hend.
  assert (Hfull : loaderProgressAt start duration t2 == 100).
  { unfold loaderProgressAt. cbv zeta. apply Q.min_l.
    assert (Hq : 1 <= (t2 - start) / duration)
      by (apply Qle_shift_div_l; [exact Hd | lra]).
    lra. }
  split; [exact Hfull|].
  rewrite Hfull. rewrite <- (Qfloor_Z target) at 2.
  apply Qfloor_comp. field.
Qed.

Lemma loaderCountAt_full target p :
  p == 100 -> loaderCountAt target p = target.
Proof.
  intros Hp. unfold loaderCountAt, Math_floor.
  rewrite <- (Qfloor_Z target) at 2. apply Qfloor_comp. rewrite Hp. field.
Qed.

Lemma loaderCountAt_below target start duration t :
  0 < duration -> t < start + duration -> (0 < target)%Z ->
  (loaderCountAt target (loaderProgressAt start duration t) < target)%Z.
Proof.
  intros Hd Ht Htar. unfold loaderCountAt, Math_floor.
  assert (HT : 0 < inject_Z target).
  { change 0 with (inject_Z 0). now rewrite <- Zlt_Qlt. }
  assert (Hq : (t - start) / duration < 1)
    by (apply Qlt_shift_div_r; [exact Hd | lra]).
  assert (Hp : loaderProgressAt start duration t < 100).
  { unfold loaderProgressAt. cbv zeta.
    apply Qle_lt_trans with ((t - start) / duration * 100);
      [apply Q.le_min_r | lra]. }
  assert (Hx : loaderProgressAt start duration t / 100 < 1).
  { apply Qlt_shift_div_r; [reflexivity | lra]. }
  assert (Hlt : inject_Z (Qfloor (loaderProgressAt start duration t / 100
                                  * inject_Z target)) < inject_Z target).
  { eapply Qle_lt_trans; [apply Qfloor_le | nra]. }
  now rewrite <- Zlt_Qlt in Hlt.
Qed.

Lemma Qltb_true a b : Qltb a b = true -> a < b.
Proof.
  unfold Qltb. intros Hlt. apply negb_true_iff in Hlt.
  apply Qnot_le_lt. intros Hle. apply Qle_bool_iff in Hle. congruence.
Qed.

Lemma loaderStep_frame target start duration u t l :
  0 < duration -> ~ start == 0 -> start <= u -> u <= t ->
  loaderAt target start duration u l ->
  loaderAt target start duration t (loaderStep duration l (AnimationFrame t)).
Proof.
  intros Hd Hs Hu Hut (Ht & Hto & Hdisp & Hcase). cbn [loaderStep].
  destruct Hcase as [(Hst & Hreq & _) | (Hst & Hreq & Hfull)]; rewrite Hreq.
  - unfold updateLoaderAnimation. rewrite Hst.
    destruct (Qeq_bool start 0) eqn:Hz;
      [apply Qeq_bool_iff in Hz; contradiction|].
    rewrite Ht.
    destruct (Qltb (loaderProgressAt start duration t) 100) eqn:Hlt.
    + unfold loaderAt. cbn. split; [reflexivity|]. split; [exact Hto|].
      split; [reflexivity|]. left.
      split; [reflexivity|]. split; [reflexivity|]. now apply Qltb_true.
    + unfold loaderAt. cbn. split; [reflexivity|]. split; [exact Hto|].
      split; [reflexivity|]. right.
      split; [reflexivity|]. split; [reflexivity|].
      apply Qltb_false in Hlt.
      destruct (loaderProgressAt_range start duration t Hd) as [_ Hle];
        [lra | lra].
  - assert (Hfull' : loaderProgressAt start duration t == 100).
    { pose proof (loaderProgressAt_monotone start duration u t Hd Hut).
      destruct (loaderProgressAt_range start duration t Hd) as [_ Hle];
        [lra | lra]. }
    unfold loaderAt. split; [exact Ht|]. split; [exact Hto|]. split.
    + rewrite Hdisp, !loaderCountAt_full by assumption. reflexivity.
    + right. split; [exact Hst|]. split; [exact Hreq | exact Hfull'].
Qed.

Lemma runLoader_frames target start duration t ts : forall u l,
  0 < duration -> ~ start == 0 -> start <= u -> inTimeOrder u (ts ++ [t]) ->
  loaderAt target start duration u l ->
  exists u',
    start <= u' /\ u' <= t
    /\ loaderAt target start duration u'
         (runLoader duration l (map AnimationFrame ts)).
Proof.
  induction ts as [|a ts IH]; intros u l Hd Hs Hu Hord Hl.
  - exists u. destruct Hord as [Hut _].
    split; [exact Hu|]. split; [exact Hut | exact Hl].
  - destruct Hord as [Hua Hrest]. cbn [map runLoader foldl].
    apply (IH a); try assumption; [lra|].
    now apply (loaderStep_frame target start duration u a).
Qed.

Lemma runLoader_after_timeout duration l events :
  animationFrameRequested l = false -> flashTimeoutPending l = false ->
  runLoader duration l events = l.
Proof.
  intros Hf Ht. induction events as [|e events IH]; [reflexivity|].
  cbn [runLoader foldl]. destruct e; cbn [loaderStep]; rewrite ?Hf, ?Ht;
    exact IH.
Qed.

(** X29. The loader of one flash, started at a positive clock reading with
    a positive duration, while the browser runs its animation frames in
    the order of their timestamps, none before the start. The target lies
    in [[1000000, 10000000)] for populate, [[50000, 1000000)] for research
    and [[20000, 450000)] for validate. Until the flash timeout runs, the
    count displayed is never negative, does not decrease from one frame to
    the next, never exceeds the target, and after the frame with timestamp
    [t] it is the floor of the target scaled by the progress at [t]: the
    target after a frame at or past the end of the duration, which also
    stops the animation, and less than the target after an earlier frame.
    The flash timeout puts the count and the progress back to 0 and ends
    the flash, and no later frame or timeout changes them. *)
Theorem loader_counts_up_until_the_flash_times_out (type : FlashType)
    (random start duration t : Q) (ts : list Q) (later : list LoaderEvent) :
  0 <= random -> random < 1 ->
  0 < start -> 0 < duration ->
  inTimeOrder start (ts ++ [t]) ->
  let target := targetPopulationNumber type random in
  let before :=
    runLoader duration (startLoader type random start)
      (map AnimationFrame ts) in
  let shown := loaderStep duration before (AnimationFrame t) in
  let timedOut := loaderStep duration shown FlashTimeout in
  match type with
  | flash_populate => (1000000 <= target < 10000000)%Z
  | flash_research => (50000 <= target < 1000000)%Z
  | flash_validate => (20000 <= target < 450000)%Z
  | _ => target = 0%Z
  end
  /\ (0 <= currentPopulationDisplay before)%Z
  /\ (currentPopulationDisplay before <= currentPopulationDisplay shown)%Z
  /\ (currentPopulationDisplay shown <= target)%Z
  /\ currentPopulationDisplay shown
     = loaderCountAt target (loaderProgressAt start duration t)
  /\ (start + duration <= t ->
      currentPopulationDisplay shown = target
      /\ animationFrameRequested shown = false)
  /\ (t < start + duration -> (0 < target)%Z ->
      (currentPopulationDisplay shown < target)%Z)
  /\ currentPopulationDisplay timedOut = 0%Z
  /\ loaderProgress timedOut = 0
  /\ isFlashing timedOut = false
  /\ runLoader duration timedOut later = timedOut.
Proof.
  intros H0 H1 Hs Hd Hord target before shown timedOut.
  assert (Hs' : ~ start == 0) by lra.
  assert (Hinit : loaderAt target start duration start
                    (startLoader type random start)).
  { assert (E : loaderProgressAt start duration start == 0).
    { unfold loaderProgressAt. cbv zeta.
      assert (E : (start - start) / duration * 100 == 0) by (field; lra).
      rewrite E. apply Q.min_r. discriminate. }
    unfold loaderAt, startLoader.
    cbn [targetPopulationNumberRef flashTimeoutPending
         currentPopulationDisplay loaderStartTimeRef animationFrameRequested].
    split; [reflexivity|]. split; [reflexivity|]. split.
    - unfold loaderCountAt, Math_floor. symmetry.
      transitivity (Qfloor 0); [|reflexivity].
      apply Qfloor_comp. rewrite E. field.
    - left. split; [reflexivity|]. split; [reflexivity|]. rewrite E.
      reflexivity. }
  destruct (runLoader_frames target start duration t ts start _ Hd Hs'
              (Qle_refl _) Hord Hinit) as (u & Hu & Hut & Hbefore).
  fold before in Hbefore.
  pose proof (loaderStep_frame target start duration u t before Hd Hs' Hu
                Hut Hbefore) as Hshown.
  fold shown in Hshown.
  destruct Hbefore as (_ & _ & Hdb & _).
  destruct Hshown as (Htar & Hto & Hds & Hcase).
  destruct (loaderCountAt_monotone type random start duration
              u t H0 H1 Hd Hu Hut)
    as (Hrange & Hc0 & Hc12 & Hc2 & Hend).
  fold target in Hrange, Hc0, Hc12, Hc2, Hend.
  split; [exact Hrange|]. rewrite Hdb, Hds.
  split; [exact Hc0|]. split; [exact Hc12|]. split; [exact Hc2|].
  split; [reflexivity|]. split.
  - intros Hfull. destruct (Hend Hfull) as [Hp Hc]. split; [exact Hc|].
    destruct Hcase as [(_ & _ & Hlt) | (_ & Hreq & _)]; [lra | exact Hreq].
  - split; [now apply loaderCountAt_below|].
    unfold timedOut. cbn [loaderStep]. rewrite Hto. cbn.
    repeat split; try reflexivity.
    now apply runLoader_after_timeout.
Qed.

Lemma loader_counts_up_until_the_flash_times_out_witness :
  let target := targetPopulationNumber flash_populate (1 # 2) in
  let shown :=
    runLoader 5000 (startLoader flash_populate (1 # 2) 1000)
      (map AnimationFrame [1016; 3500; 6000]) in
  0 <= 1 # 2 /\ 1 # 2 < 1 /\ 0 < 1000 /\ 0 < 5000
  /\ inTimeOrder 1000 ([1016; 3500] ++ [6000])
  /\ 1000 + 5000 <= 6000
  /\ currentPopulationDisplay shown = target
  /\ currentPopulationDisplay (loaderStep 5000 shown FlashTimeout) = 0%Z.
Proof.
  intros target shown.
  assert (H0 : 0 <= 1 # 2) by discriminate.
  assert (H1 : 1 # 2 < 1) by reflexivity.
  assert (Hs : 0 < 1000) by reflexivity.
  assert (Hd : 0 < 5000) by reflexivity.
  assert (Hord : inTimeOrder 1000 ([1016; 3500] ++ [6000]))
    by (simpl; repeat split; discriminate).
  assert (Hend : 1000 + 5000 <= 6000) by discriminate.
  split; [exact H0|]. split; [exact H1|]. split; [exact Hs|].
  split; [exact Hd|]. split; [exact Hord|]. split; [exact Hend|].
  destruct (loader_counts_up_until_the_flash_times_out flash_populate (1 # 2)
              1000 5000 6000 [1016; 3500] [] H0 H1 Hs Hd Hord)
    as (_ & _ & _ & _ & _ & Hfull & _ & Hzero & _).
  split; [exact (proj1 (Hfull Hend)) | exact Hzero].
Defined.

(** ** The first trigger *)

Lemma lengthSq_at_height p :
  vy p == HIGH_ANGLE_INITIAL_CAMERA_Y ->
  Qltb ((GENERATION_TRIGGER_DISTANCE * 0.5)
        * (GENERATION_TRIGGER_DISTANCE * 0.5)) (lengthSq p) = true.
Proof.
  intros Hy. unfold Qltb. apply negb_true_iff.
  destruct (Qle_bool _ _) eqn:Hle; [|reflexivity].
  apply Qle_bool_iff in Hle. unfold lengthSq in Hle. rewrite Hy in Hle.
  unfold GENERATION_TRIGGER_DISTANCE, HIGH_ANGLE_INITIAL_CAMERA_Y in Hle.
  assert (Hx : 0 <= vx p * vx p) by nra.
  assert (Hz : 0 <= vz p * vz p) by nra.
  lra.
Qed.

Section FirstTrigger.
Context `{JSLib}.

Lemma animate_first_trigger t random s sc :
  scene s = Some sc ->
  isCapturingRef s = false ->
  vy (cam_position (camera sc)) == HIGH_ANGLE_INITIAL_CAMERA_Y ->
  generationTriggerPointsRef (streaming s) = [] ->
  (activeClusterRequestsRef (streaming s) < MAX_ACTIVE_CLUSTER_REQUESTS)%Z ->
  exists batch,
    pending (world (animate t random s)) = pending (world s) ++ [batch].
Proof.
  intros Hsc Hcap Hy Hnone Hlt. unfold animate. rewrite Hsc, Hcap, Hnone.
  cbv zeta. rewrite (proj2 (Z.ltb_lt _ _) Hlt).
  unfold triggerCondition. rewrite lengthSq_at_height.
  - cbn [andb]. destruct (subClusters _ _ _ _ _ _) as [[cs ps] k].
    cbn [world pending withPending]. eauto.
  - cbn [vy addScaledVector normalize multiplyScalar]. rewrite Hy. ring.
Qed.

(** X30. On a reachable mounted state with an empty trigger-point list and
    the in-flight counter below 1, the next frame issues a batch and
    records its trigger point, wherever the camera is: at height 300 the
    camera is always farther than 200 from the origin, so the distance
    check of the empty list never holds a batch back. *)
Theorem empty_trigger_list_issues_a_batch_at_once (events : list Event)
    (t random : Q) :
  is_Some (scene (run events)) ->
  generationTriggerPointsRef (streaming (run events)) = [] ->
  (activeClusterRequestsRef (streaming (run events)) < 1)%Z ->
  exists batch p,
    pending (world (animate t random (run events)))
    = pending (world (run events)) ++ [batch]
    /\ generationTriggerPointsRef (streaming (animate t random (run events)))
       = [p]
    /\ activeClusterRequestsRef (streaming (animate t random (run events)))
       = (activeClusterRequestsRef (streaming (run events)) + 1)%Z.
Proof.
  intros [sc Hsc] Hnone Hlt.
  assert (Hcap : isCapturingRef (run events) = false).
  { apply (run_invariant (fun s => isCapturingRef s = false));
      [reflexivity | intros s e; apply step_capturing]. }
  assert (Hy : vy (cam_position (camera sc)) == HIGH_ANGLE_INITIAL_CAMERA_Y).
  { apply (run_invariant
             (fun s => forall p, cameraPositionOf s = Some p ->
                                 vy p == HIGH_ANGLE_INITIAL_CAMERA_Y)
             ltac:(discriminate) step_height events).
    unfold cameraPositionOf. now rewrite Hsc. }
  destruct (animate_first_trigger t random _ sc Hsc Hcap Hy Hnone Hlt)
    as [batch Hb].
  destruct (animate_issued t random _ batch Hb) as (p & rd & _ & _ & Hr).
  cbv zeta in Hr. exists batch, p. split; [exact Hb|].
  rewrite Hr, Hnone. cbn [generationTriggerPointsRef activeClusterRequestsRef].
  split; reflexivity.
Qed.
End FirstTrigger.

Lemma empty_trigger_list_issues_a_batch_at_once_witness :
  let events := [Mount 16 9 0;
                 Settle 0 [fulfilled (Some [sampleBox "dyn_c0_a" 0 0])] 1;
                 Landscape (Some sampleLandscape)] in
  is_Some (scene (@run rightAngles events))
  /\ generationTriggerPointsRef (streaming (@run rightAngles events)) = []
  /\ (activeClusterRequestsRef (streaming (@run rightAngles events)) < 1)%Z
  /\ exists batch,
       pending (world (@animate rightAngles 3 0 (@run rightAngles events)))
       = pending (world (@run rightAngles events)) ++ [batch].
Proof.
  intros events.
  assert (Hm : is_Some (scene (@run rightAngles events)))
    by (vm_compute; eexists; reflexivity).
  assert (Hnone : generationTriggerPointsRef
                    (streaming (@run rightAngles events)) = [])
    by (vm_compute; reflexivity).
  assert (Hlt : (activeClusterRequestsRef
                   (streaming (@run rightAngles events)) < 1)%Z)
    by (vm_compute; reflexivity).
  repeat (split; [assumption|]).
  destruct (@empty_trigger_list_issues_a_batch_at_once rightAngles events
              3 0 Hm Hnone Hlt) as (batch & p & Hb & _).
  exists batch. exact Hb.
Defined.
